(** * consumer-shared: connection lifecycle, DLQ retry routing, consumer loop

    A shallow embedding of
      - [src/services/dlq.service.ts]   (module [DlqService]),
      - [src/consumers/base.consumer.ts] (module [BaseConsumer]),
      - [src/config/rabbitmq.ts]        (module [ConnectionManager]),
    and of the error classes of [src/errors/index.ts] (module [Js]).

    The TypeScript code is asynchronous and talks to a broker through
    amqplib.  Every method becomes a function in a state-and-exception monad:
    the state holds the object's mutable fields together with the record of
    the calls made on the outside world (broker channel, logger, timers);
    the answers of the outside world (does this publish throw? does this
    connection attempt succeed?) are read from oracles stored in the state,
    so that every theorem quantifies over all behaviours of the broker.

    JavaScript numbers are modelled by [Z]: the retry counters, delays and
    attempt indices handled here are integers, and on non-negative integers
    the floating-point results of the source ([2 ** n], [Math.min], [+ 1])
    coincide with the integer ones (an overflow to [Infinity] is cut back by
    [Math.min] in [calculateDelay]). *)

From Stdlib Require Import ZArith Lia.
From stdpp Require Import base gmap strings list pretty.

Local Open Scope Z_scope.

(** ** JavaScript errors and the state-and-exception monad *)

Module Js.

(** The classes of [src/errors/index.ts], plus the built-in [Error] and the
    [SyntaxError] raised by [JSON.parse]. *)
Inductive ErrorClass :=
| PlainError
| SyntaxError
| RetryableError
| NonRetryableError
| ConnectionError
| ConfigurationError.

(** [new ConnectionError(message, code, context)]: name, message, code, and
    the optional context record. *)
Record Error := mkError {
  name : ErrorClass;
  message : string;
  code : option string;
  context : option (list (string * string))
}.

Definition plainError (msg : string) : Error :=
  {| name := PlainError; message := msg; code := None; context := None |}.

(** A call either returns or throws. *)
Inductive Outcome (A : Type) :=
| Returned (a : A)
| Thrown (e : Error).
Arguments Returned {A} a.
Arguments Thrown {A} e.

Definition M (S A : Type) : Type := S -> Outcome A * S.

Definition ret {S A} (a : A) : M S A := fun s => (Returned a, s).

Definition throw {S A} (e : Error) : M S A := fun s => (Thrown e, s).

Definition bind {S A B} (m : M S A) (k : A -> M S B) : M S B :=
  fun s =>
    match m s with
    | (Returned a, s') => k a s'
    | (Thrown e, s') => (Thrown e, s')
    end.

Definition gets {S A} (f : S -> A) : M S A := fun s => (Returned (f s), s).

Definition modify {S} (f : S -> S) : M S unit := fun s => (Returned tt, f s).

(** [try { m } catch (error) { h error }] *)
Definition tryCatch {S A} (m : M S A) (h : Error -> M S A) : M S A :=
  fun s =>
    match m s with
    | (Returned a, s') => (Returned a, s')
    | (Thrown e, s') => h e s'
    end.

(** [try { m } finally { f }]: [f] runs on both exits; an exception of [f]
    replaces the outcome of [m]. *)
Definition tryFinally {S A} (m : M S A) (f : M S unit) : M S A :=
  fun s =>
    match m s with
    | (o, s') =>
        match f s' with
        | (Returned _, s'') => (o, s'')
        | (Thrown e, s'') => (Thrown e, s'')
        end
    end.

(** Runs [m] and hands its outcome to the continuation: the value an
    [await] resumes with. *)
Definition settle {S A} (m : M S A) : M S (Outcome A) :=
  fun s => match m s with (o, s') => (Returned o, s') end.

Definition returns {A} (o : Outcome A) : bool :=
  match o with Returned _ => true | Thrown _ => false end.

(** The levels of [ILogger]. *)
Inductive LogLevel := Debug | Info | Warn | LError.

(** *** Numbers

    A JavaScript number that holds an integer is written as a [Z].  The
    source computes with IEEE doubles: its [+ 1], [- 1], [*] and [2 ** n]
    give the integer result as long as the operands and the result are
    integers that a double holds exactly, which is the case on the safe
    integers, [Number.isSafeInteger]. *)
Definition MAX_SAFE_INTEGER : Z := 2 ^ 53 - 1.

Definition isSafeInteger (n : Z) : bool :=
  (- MAX_SAFE_INTEGER <=? n) && (n <=? MAX_SAFE_INTEGER).

(** A JavaScript value as [JSON.parse] produces it. *)
#[warnings="-register-all"] Inductive Json :=
| JNull
| JBool (b : bool)
| JNum (n : Z)
| JStr (s : string)
| JArr (items : list Json)
| JObj (fields : list (string * Json)).

End Js.

Import Js.

Declare Scope js_scope.
Delimit Scope js_scope with js.
Notation "'let!' x ':=' m 'in' k" := (bind m (fun x => k))
  (at level 10, x name, m at level 100, k at level 200) : js_scope.
Notation "m1 '>>' m2" := (bind m1 (fun _ => m2))
  (at level 90, right associativity) : js_scope.
Local Open Scope js_scope.

(** ** The DLQ handler, [src/services/dlq.service.ts] *)

Module DlqService.

(** *** Messages and the broker channel *)

(** A header value as amqplib decodes it.  [HOther] stands for the kinds the
    handler never inspects (booleans, nested tables, arrays, ...). *)
Inductive HeaderValue :=
| HNum (n : Z)
| HStr (s : string)
| HNull
| HUndefined
| HOther (tag : nat).

(** A payload is a [Buffer]: a sequence of bytes. *)
Definition Buffer := string.

(** [ConsumeMessage]: [content], [fields.routingKey], [fields.deliveryTag]
    and [properties.headers] (which may be undefined). *)
Record Message := mkMessage {
  content : Buffer;
  routingKey : string;
  deliveryTag : Z;
  headers : option (gmap string HeaderValue)
}.

(** The options object handed to [channel.publish]. *)
Record PublishOptions := mkOptions {
  persistent : bool;
  contentType : string;
  optHeaders : option (gmap string HeaderValue)
}.

Inductive ChannelCall :=
| Publish (exchange routing : string) (body : Buffer) (opts : PublishOptions)
| Ack (msg : Message)
| Nack (msg : Message) (allUpTo requeue : bool)
| AssertExchange (exchange type : string) (durable : bool) (delayedType : option string)
| AssertQueue (queue : string) (durable : bool)
| BindQueue (queue source pattern : string).

(** The state of the world around a handler:
    - [calls]: the calls made on the channel so far, oldest first;
    - [faults]: the broker's behaviour, [faults k = Some e] when the call
      number [k] (counted from 0) throws [e];
    - [logs]: the logger calls (level and message);
    - [clock], [ticks]: [clock k] is what the [k]-th evaluation of
      [new Date().toISOString()] returns, [ticks] counts the evaluations. *)
Record World := mkWorld {
  calls : list ChannelCall;
  faults : nat -> option Error;
  logs : list (LogLevel * string);
  clock : nat -> string;
  ticks : nat
}.

Definition addCall (c : ChannelCall) (w : World) : World :=
  {| calls := calls w ++ [c]; faults := faults w; logs := logs w;
     clock := clock w; ticks := ticks w |}.

Definition addLog (lvl : LogLevel) (msg : string) (w : World) : World :=
  {| calls := calls w; faults := faults w; logs := logs w ++ [(lvl, msg)];
     clock := clock w; ticks := ticks w |}.

Definition tick (w : World) : World :=
  {| calls := calls w; faults := faults w; logs := logs w;
     clock := clock w; ticks := S (ticks w) |}.

(** A call on the channel ([publish], [ack], [nack], [assertExchange], ...):
    the call is recorded, then the broker's answer decides whether it
    returns or throws. *)
Definition channelCall (c : ChannelCall) : M World unit :=
  fun w =>
    match faults w (length (calls w)) with
    | Some e => (Thrown e, addCall c w)
    | None => (Returned tt, addCall c w)
    end.

Definition log (lvl : LogLevel) (msg : string) : M World unit :=
  modify (addLog lvl msg).

(** [new Date().toISOString()] *)
Definition nowISO : M World string :=
  fun w => (Returned (clock w (ticks w)), tick w).

(** *** Constants and construction *)

Definition DEFAULT_MAX_RETRIES : Z := 20.
Definition MAX_DELAY_MS : Z := 16 * 60 * 60 * 1000.
Definition NOTIFICATIONS_EXCHANGE : string := "notifications".

Record DlqHandlerOptions := mkDlqOptions {
  optExchange : string;
  optQueue : string;
  optServiceName : string;
  optMaxRetries : option Z
}.

Record DlqHandler := mkDlqHandler {
  exchange : string;
  queue : string;
  serviceName : string;
  maxRetries : Z
}.

Definition newDlqHandler (options : DlqHandlerOptions) : DlqHandler :=
  {| exchange := optExchange options;
     queue := optQueue options;
     serviceName := optServiceName options;
     maxRetries := default DEFAULT_MAX_RETRIES (optMaxRetries options) |}.

(** *** [calculateDelay]

    On a retry count [r >= 1] the source computes [1000 * 2 ** (r - 1)] and
    cuts it at [MAX_DELAY_MS]; this is the integer computation below.  (On a
    negative count the source would compute a fraction, 250 at [-1]: the
    definition is the source's for integers [r >= 0] only, and the
    properties of the delay and of the messages that carry it are stated
    for such counts.) *)

Definition calculateDelay (retryCount : Z) : Z :=
  if retryCount =? 0 then 0
  else
    let delay := 1000 * 2 ^ (retryCount - 1) in
    Z.min delay MAX_DELAY_MS.

(** *** The handler's methods

    [JSON.parse], [JSON.stringify], [Buffer.prototype.toString] and
    [Buffer.from] are built-ins of the runtime: the methods are defined for
    any such functions.  [JSON_parse s = inl e] stands for the [SyntaxError]
    [e] it throws; [JSON.stringify] does not throw on a string or on a value
    that [JSON.parse] returned. *)

Section Methods.

Variable JSON_parse : string -> Error + Json.
Variable JSON_stringify : Json -> string.
Variable Buffer_toString : Buffer -> string.
Variable Buffer_from : string -> Buffer.

Variable this : DlqHandler.

Definition setup : M World unit :=
  channelCall (AssertExchange (exchange this +:+ ".delay") "x-delayed-message"
                 true (Some "topic")) >>
  channelCall (AssertExchange (exchange this +:+ ".dlq") "topic" true None) >>
  channelCall (AssertQueue (queue this +:+ ".dlq") true) >>
  channelCall (BindQueue (queue this +:+ ".dlq") (exchange this +:+ ".dlq")
                 (queue this)) >>
  channelCall (AssertExchange NOTIFICATIONS_EXCHANGE "topic" true None) >>
  log Info "DLQ infrastructure asserted".

(** [message.properties.headers ?? {}] *)
Definition headersOf (message : Message) : gmap string HeaderValue :=
  default ∅ (headers message).

(** [v ?? d]: the default replaces [undefined] (also a missing key) and
    [null]. *)
Definition nullish (v : option HeaderValue) : bool :=
  match v with
  | None | Some HUndefined | Some HNull => true
  | Some _ => false
  end.

(** The source reads [x-retry-count] under the cast
    [as number | undefined]: [retryCountTyped] says that the header
    respects it (absent, nullish or a number). *)
Definition retryCountTyped (hs : gmap string HeaderValue) : bool :=
  match hs !! "x-retry-count" with
  | Some (HStr _) | Some (HOther _) => false
  | _ => true
  end.

(** [(headers["x-retry-count"] as number | undefined) ?? 0].  The cast is
    not checked at run time: on a header that holds a string or another
    value the source goes on with that value, under JavaScript's coercions,
    while the definition gives 0.  The definition is the source's on the
    headers that respect the cast ([retryCountTyped]) with an integer as
    number, and the properties that depend on the count are stated for
    these. *)
Definition retryCountOf (hs : gmap string HeaderValue) : Z :=
  match hs !! "x-retry-count" with
  | Some (HNum n) => n
  | _ => 0
  end.

(** [(headers["x-first-failure-timestamp"] as string | undefined)
     ?? new Date().toISOString()]: the clock is read only when the left
    operand is nullish; a value found in the header is passed on as it
    is. *)
Definition firstFailureOf (hs : gmap string HeaderValue) : M World HeaderValue :=
  match hs !! "x-first-failure-timestamp" with
  | Some v => if nullish (Some v)
              then (let! now := nowISO in ret (HStr now))
              else ret v
  | None => let! now := nowISO in ret (HStr now)
  end.

(** The message [routeToDlq] publishes. *)
Definition dlqMessage (message : Message) (error : Error)
    (retryCount : Z) (firstFailure : HeaderValue) : ChannelCall :=
  let hs := headersOf message in
  Publish (exchange this +:+ ".dlq") (queue this) (content message)
    {| persistent := true;
       contentType := "application/json";
       optHeaders := Some
         (<["x-last-error" := HStr (Js.message error)]>
          (<["x-first-failure-timestamp" := firstFailure]>
           (<["x-retry-count" := HNum retryCount]> hs))) |}.

Definition routeToDlq (message : Message) (error : Error)
    (retryCount : Z) (firstFailure : HeaderValue) : M World unit :=
  channelCall (dlqMessage message error retryCount firstFailure) >>
  log Info "Message routed to DLQ".

(** The alert object of [publishAlert], as the value handed to
    [JSON.stringify]. *)
Record Alert := mkAlert {
  service : string;
  alertQueue : string;
  alertError : string;
  alertRetryCount : Z;
  originalMessage : Json;
  timestamp : string
}.

Definition alertJson (a : Alert) : Json :=
  JObj [("service", JStr (service a));
        ("queue", JStr (alertQueue a));
        ("error", JStr (alertError a));
        ("retryCount", JNum (alertRetryCount a));
        ("originalMessage", originalMessage a);
        ("timestamp", JStr (timestamp a))].

(** [try { JSON.parse(text) } catch { text }] *)
Definition decodeOriginal (body : Buffer) : Json :=
  match JSON_parse (Buffer_toString body) with
  | inr v => v
  | inl _ => JStr (Buffer_toString body)
  end.

(** The message [publishAlert] publishes, [now] being the reading of the
    clock. *)
Definition alertOf (error : Error) (retryCount : Z) (message : Message)
    (now : string) : Alert :=
  {| service := serviceName this;
     alertQueue := queue this;
     alertError := Js.message error;
     alertRetryCount := retryCount;
     originalMessage := decodeOriginal (content message);
     timestamp := now |}.

Definition alertMessage (alert : Alert) : ChannelCall :=
  let routingKey := "notifications.dlq." +:+ serviceName this in
  let buffer := Buffer_from (JSON_stringify (alertJson alert)) in
  Publish NOTIFICATIONS_EXCHANGE routingKey buffer
    {| persistent := true; contentType := "application/json";
       optHeaders := None |}.

Definition publishAlert (error : Error) (retryCount : Z)
    (message : Message) : M World unit :=
  let! now := nowISO in
  channelCall (alertMessage (alertOf error retryCount message now)) >>
  log Info "DLQ alert published".

(** The message the retry branch of [handleRetryableError] publishes.  The
    source's [retryCount + 1] is an addition of doubles: it is the integer
    successor written here for a safe integer [retryCount]. *)
Definition retryMessage (message : Message) (error : Error)
    (retryCount : Z) (firstFailure : HeaderValue) (delay : Z) : ChannelCall :=
  let hs := headersOf message in
  Publish (exchange this +:+ ".delay") (routingKey message) (content message)
    {| persistent := true;
       contentType := "application/json";
       optHeaders := Some
         (<["x-last-error" := HStr (Js.message error)]>
          (<["x-first-failure-timestamp" := firstFailure]>
           (<["x-retry-count" := HNum (retryCount + 1)]>
            (<["x-delay" := HNum delay]> hs)))) |}.

Definition handleRetryableError (message : Message) (error : Error)
    : M World unit :=
  let hs := headersOf message in
  let retryCount := retryCountOf hs in
  let! firstFailure := firstFailureOf hs in
  if maxRetries this <=? retryCount then
    log Warn "Max retries exhausted, routing to DLQ" >>
    routeToDlq message error retryCount firstFailure >>
    publishAlert error retryCount message >>
    channelCall (Ack message)
  else
    let delay := calculateDelay retryCount in
    channelCall (retryMessage message error retryCount firstFailure delay) >>
    log Info "Message scheduled for retry" >>
    channelCall (Ack message).

Definition handleNonRetryableError (message : Message) (error : Error)
    : M World unit :=
  let hs := headersOf message in
  let retryCount := retryCountOf hs in
  let! firstFailure := firstFailureOf hs in
  log Warn "Non-retryable error, routing directly to DLQ" >>
  routeToDlq message error retryCount firstFailure >>
  publishAlert error retryCount message >>
  channelCall (Ack message).

End Methods.

(** *** Observing a run *)

(** What [firstFailureOf] returns in the world [w], and the world it
    leaves. *)
Definition firstFailureValue (hs : gmap string HeaderValue) (w : World)
    : HeaderValue :=
  match hs !! "x-first-failure-timestamp" with
  | Some v => if nullish (Some v) then HStr (clock w (ticks w)) else v
  | None => HStr (clock w (ticks w))
  end.

Definition afterFirstFailure (hs : gmap string HeaderValue) (w : World)
    : World :=
  if nullish (hs !! "x-first-failure-timestamp") then tick w else w.

(** A computation that only adds to the record of channel calls. *)
Definition grows (w w' : World) : Prop :=
  exists l, calls w' = calls w ++ l.

Definition monotone {A} (m : M World A) : Prop :=
  forall w, grows w (snd (m w)).

(** The channel calls made between the world [w] and the later world [w']. *)
Definition callsMade (w w' : World) : list ChannelCall :=
  drop (length (calls w)) (calls w').

Definition firstCall (w w' : World) : option ChannelCall :=
  head (callsMade w w').

(** A channel on which no call throws. *)
Definition healthy (w : World) : Prop := forall k, faults w k = None.

(** The header [key] of a published message. *)
Definition publishedHeader (key : string) (c : ChannelCall) : option HeaderValue :=
  match c with
  | Publish _ _ _ opts =>
      match optHeaders opts with
      | Some hs => hs !! key
      | None => None
      end
  | _ => None
  end.

Definition publishedBody (c : ChannelCall) : option Buffer :=
  match c with
  | Publish _ _ body _ => Some body
  | _ => None
  end.

Definition publishedExchange (c : ChannelCall) : option string :=
  match c with
  | Publish x _ _ _ => Some x
  | _ => None
  end.

(** The header [key] and the payload of the outbound message: the first
    call made between [w] and [w']. *)
Definition outboundHeader (key : string) (w w' : World) : option HeaderValue :=
  match firstCall w w' with
  | Some c => publishedHeader key c
  | None => None
  end.

Definition outboundBody (w w' : World) : option Buffer :=
  match firstCall w w' with
  | Some c => publishedBody c
  | None => None
  end.

(** The headers the handler itself writes. *)
Definition retryHeaderKeys : list string :=
  ["x-delay"; "x-retry-count"; "x-first-failure-timestamp"; "x-last-error"].

(** *** The retry counts on which the model is the source

    [retryCountExact]: the header respects the cast and the count is a safe
    integer, so that the comparison with [maxRetries] and [retryCount + 1]
    are those of the source.  [retryCountValid]: moreover the count is not
    negative, so that [calculateDelay] is the source's too. *)
Definition retryCountExact (hs : gmap string HeaderValue) : bool :=
  retryCountTyped hs && isSafeInteger (retryCountOf hs).

Definition retryCountValid (hs : gmap string HeaderValue) : bool :=
  retryCountTyped hs && (0 <=? retryCountOf hs)
  && (retryCountOf hs <=? MAX_SAFE_INTEGER).

End DlqService.

(** ** The consumer loop, [src/consumers/base.consumer.ts] *)

Module BaseConsumer.

(** [IDlqHandler]: the consumer only knows this interface. *)
Record IDlqHandler := mkIDlqHandler {
  setup : M DlqService.World unit;
  handleRetryableError :
    DlqService.Message -> Error -> M DlqService.World unit;
  handleNonRetryableError :
    DlqService.Message -> Error -> M DlqService.World unit
}.

Section Consumer.

Variable JSON_parse : string -> Error + Json.
Variable Buffer_toString : DlqService.Buffer -> string.

(** The injected handler and the abstract hook [processMessage]. *)
Variable dlqHandler : IDlqHandler.
Variable processMessage : Json -> DlqService.Message -> M DlqService.World unit.

(** [error instanceof NonRetryableError] *)
Definition isNonRetryable (error : Error) : bool :=
  match name error with
  | NonRetryableError => true
  | _ => false
  end.

Definition handleError (msg : DlqService.Message) (error : Error)
    : M DlqService.World unit :=
  DlqService.log LError "Message processing failed" >>
  tryCatch
    (if isNonRetryable error
     then handleNonRetryableError dlqHandler msg error
     else handleRetryableError dlqHandler msg error)
    (fun dlqError =>
       DlqService.log LError "DLQ handler failed, nacking message" >>
       DlqService.channelCall (DlqService.Nack msg false false)).

(** [JSON.parse(msg.content.toString())] *)
Definition parseContent (msg : DlqService.Message) : M DlqService.World Json :=
  match JSON_parse (Buffer_toString (DlqService.content msg)) with
  | inr v => ret v
  | inl e => throw e
  end.

Definition handleMessage (msg : option DlqService.Message)
    : M DlqService.World unit :=
  match msg with
  | None => DlqService.log Warn "Received null message"
  | Some msg =>
      tryCatch
        (let! content := parseContent msg in
         processMessage content msg >>
         DlqService.channelCall (DlqService.Ack msg))
        (fun error => handleError msg error)
  end.

End Consumer.

(** [DlqHandler implements IDlqHandler] *)
Definition dlqHandlerOf (JSON_parse : string -> Error + Json)
    (JSON_stringify : Json -> string)
    (Buffer_toString : DlqService.Buffer -> string)
    (Buffer_from : string -> DlqService.Buffer)
    (h : DlqService.DlqHandler) : IDlqHandler :=
  {| setup := DlqService.setup h;
     handleRetryableError :=
       DlqService.handleRetryableError JSON_parse JSON_stringify
         Buffer_toString Buffer_from h;
     handleNonRetryableError :=
       DlqService.handleNonRetryableError JSON_parse JSON_stringify
         Buffer_toString Buffer_from h |}.

End BaseConsumer.

(** ** The connection manager, [src/config/rabbitmq.ts] *)

Module ConnectionManager.

Inductive ConnectionState := disconnected | connecting | connected.

(** Connections ([ChannelModel]) and channels are named by numbers, the
    callbacks registered through [on] as well. *)
Definition Conn := nat.
Definition Chan := nat.
Definition Callback := nat.

(** What the manager does to the outside world, in the order it does it. *)
Inductive NetEvent :=
| EvConnect (url : string)
| EvCreateChannel (c : Conn)
| EvSleep (ms : Z)
| EvChannelClose (ch : Chan)
| EvConnectionClose (c : Conn)
| EvListen (c : Conn)
| EvCallback (h : Callback) (event : string) (arg : option Error)
| EvLog (lvl : LogLevel) (msg : string).

(** The outside world:
    - [trace]: the events so far, oldest first;
    - [dial k]: what the call number [k] of [amqplib.connect] (counted from
      0) resolves or rejects with; [dialed] counts the calls made;
    - [openChannel c]: the result of [createChannel] on connection [c];
    - [channelCloses ch], [connectionCloses c]: [Some e] when closing
      rejects with [e]. *)
Record Net := mkNet {
  trace : list NetEvent;
  dial : nat -> Error + Conn;
  dialed : nat;
  openChannel : Conn -> Error + Chan;
  channelCloses : Chan -> option Error;
  connectionCloses : Conn -> option Error
}.

(** The mutable fields of a [ConnectionManager]. *)
Record Manager := mkManager {
  connection : option Conn;
  channel : option Chan;
  currentState : ConnectionState;
  eventHandlers : gmap string (list Callback)
}.

(** The read-only fields, fixed by the constructor. *)
Record ConnectionManagerOptions := mkCMOptions {
  optUrl : string;
  optReconnectAttempts : option Z;
  optReconnectDelayMs : option Z
}.

Record Config := mkConfig {
  url : string;
  reconnectAttempts : Z;
  reconnectDelayMs : Z
}.

Definition DEFAULT_RECONNECT_ATTEMPTS : Z := 5.
Definition DEFAULT_RECONNECT_DELAY_MS : Z := 1000.

Definition newConfig (options : ConnectionManagerOptions) : Config :=
  {| url := optUrl options;
     reconnectAttempts :=
       default DEFAULT_RECONNECT_ATTEMPTS (optReconnectAttempts options);
     reconnectDelayMs :=
       default DEFAULT_RECONNECT_DELAY_MS (optReconnectDelayMs options) |}.

(** The fields of a fresh manager. *)
Definition newManager : Manager :=
  {| connection := None; channel := None; currentState := disconnected;
     eventHandlers := ∅ |}.

Definition Sys : Type := Manager * Net.

(** *** Field updates and calls on the outside world *)

Definition setConnection (c : option Conn) : M Sys unit :=
  modify (fun '(m, n) =>
    ({| connection := c; channel := channel m;
        currentState := currentState m; eventHandlers := eventHandlers m |}, n)).

Definition setChannel (ch : option Chan) : M Sys unit :=
  modify (fun '(m, n) =>
    ({| connection := connection m; channel := ch;
        currentState := currentState m; eventHandlers := eventHandlers m |}, n)).

Definition setState (st : ConnectionState) : M Sys unit :=
  modify (fun '(m, n) =>
    ({| connection := connection m; channel := channel m;
        currentState := st; eventHandlers := eventHandlers m |}, n)).

Definition setEventHandlers (hs : gmap string (list Callback)) : M Sys unit :=
  modify (fun '(m, n) =>
    ({| connection := connection m; channel := channel m;
        currentState := currentState m; eventHandlers := hs |}, n)).

Definition record (ev : NetEvent) (n : Net) : Net :=
  {| trace := trace n ++ [ev]; dial := dial n; dialed := dialed n;
     openChannel := openChannel n; channelCloses := channelCloses n;
     connectionCloses := connectionCloses n |}.

Definition event (ev : NetEvent) : M Sys unit :=
  modify (fun '(m, n) => (m, record ev n)).

Definition log (lvl : LogLevel) (msg : string) : M Sys unit :=
  event (EvLog lvl msg).

(** [amqplib.connect(url)] *)
Definition amqplib_connect (u : string) : M Sys Conn :=
  fun '(m, n) =>
    let n' := {| trace := trace n ++ [EvConnect u]; dial := dial n;
                 dialed := S (dialed n); openChannel := openChannel n;
                 channelCloses := channelCloses n;
                 connectionCloses := connectionCloses n |} in
    match dial n (dialed n) with
    | inr c => (Returned c, (m, n'))
    | inl e => (Thrown e, (m, n'))
    end.

(** [connection.createChannel()] *)
Definition createChannel (c : Conn) : M Sys Chan :=
  fun '(m, n) =>
    match openChannel n c with
    | inr ch => (Returned ch, (m, record (EvCreateChannel c) n))
    | inl e => (Thrown e, (m, record (EvCreateChannel c) n))
    end.

(** [channel.close()] *)
Definition channel_close (ch : Chan) : M Sys unit :=
  fun '(m, n) =>
    match channelCloses n ch with
    | None => (Returned tt, (m, record (EvChannelClose ch) n))
    | Some e => (Thrown e, (m, record (EvChannelClose ch) n))
    end.

(** [connection.close()] *)
Definition connection_close (c : Conn) : M Sys unit :=
  fun '(m, n) =>
    match connectionCloses n c with
    | None => (Returned tt, (m, record (EvConnectionClose c) n))
    | Some e => (Thrown e, (m, record (EvConnectionClose c) n))
    end.

(** [sleep(ms)] *)
Definition sleep (ms : Z) : M Sys unit := event (EvSleep ms).

Section Methods.

Variable this : Config.

(** [on(event, handler)] *)
Definition on (ev : string) (handler : Callback) : M Sys unit :=
  let! registered := gets (fun '(m, _) => eventHandlers m) in
  let handlers := default [] (registered !! ev) in
  setEventHandlers (<[ev := handlers ++ [handler]]> registered).

(** [emit(event, ...args)]: the callbacks registered for the event, in
    registration order. *)
Definition emit (ev : string) (arg : option Error) : M Sys unit :=
  let! registered := gets (fun '(m, _) => eventHandlers m) in
  let handlers := default [] (registered !! ev) in
  modify (fun '(m, n) =>
    (m, fold_left (fun n' h => record (EvCallback h ev arg) n') handlers n)).

(** [setupConnectionHandlers]: the listeners for ["error"] and ["close"] are
    attached to the current connection. *)
Definition setupConnectionHandlers : M Sys unit :=
  let! conn := gets (fun '(m, _) => connection m) in
  match conn with
  | None => ret tt
  | Some c => event (EvListen c)
  end.

(** [this.reconnectDelayMs * 2 ** attempt], a product of doubles: it is the
    integer product written here as long as the delay is a safe integer and
    the product stays a finite double ([backoffExact] below gives a range
    where it does); beyond, the source overflows to [Infinity]. *)
Definition calculateBackoff (attempt : Z) : Z :=
  reconnectDelayMs this * 2 ^ attempt.

Definition connectionError (lastError : Error) : Error :=
  {| name := ConnectionError;
     message := "Failed to connect after "
                +:+ pretty (reconnectAttempts this + 1) +:+ " attempts";
     code := Some "ECONNFAILED";
     context := Some [("lastError", message lastError)] |}.

(** One turn of the loop of [connect]: [true] when the method returns,
    [false] when the loop goes on. *)
Definition connectAttempt (attempt : Z) : M Sys bool :=
  tryCatch
    (let! conn := amqplib_connect (url this) in
     setConnection (Some conn) >>
     let! ch := createChannel conn in
     setChannel (Some ch) >>
     setState connected >>
     setupConnectionHandlers >>
     log Info "Connected to RabbitMQ" >>
     ret true)
    (fun error =>
       let isLastAttempt := attempt =? reconnectAttempts this in
       if isLastAttempt then
         setState disconnected >>
         throw (connectionError error)
       else
         let delay := calculateBackoff attempt in
         log Warn "Connection attempt failed, retrying" >>
         sleep delay >>
         ret false).

(** [for (let attempt = ...; attempt <= this.reconnectAttempts; attempt++)],
    by recursion on the number of turns left. *)
Fixpoint connectLoop (turns : nat) (attempt : Z) : M Sys unit :=
  match turns with
  | O => ret tt
  | S turns' =>
      let! done := connectAttempt attempt in
      if done : bool then ret tt else connectLoop turns' (attempt + 1)
  end.

(** The part of [connect] before its first [await]. *)
Definition connectBegin : M Sys unit :=
  setState connecting >>
  log Info "Connecting to RabbitMQ".

Definition connect : M Sys unit :=
  connectBegin >>
  connectLoop (Z.to_nat (reconnectAttempts this + 1)) 0.

Definition noChannelError : Error :=
  {| name := ConnectionError;
     message := "Channel not available — call connect() first";
     code := Some "ENOCHANNEL";
     context := None |}.

Definition getChannel : M Sys Chan :=
  let! ch := gets (fun '(m, _) => channel m) in
  match ch with
  | None => throw noChannelError
  | Some c => ret c
  end.

Definition close : M Sys unit :=
  log Info "Closing RabbitMQ connection" >>
  tryFinally
    (let! ch := gets (fun '(m, _) => channel m) in
     match ch with
     | Some c => channel_close c >> setChannel None
     | None => ret tt
     end >>
     let! conn := gets (fun '(m, _) => connection m) in
     match conn with
     | Some c => connection_close c >> setConnection None
     | None => ret tt
     end)
    (setState disconnected) >>
  log Info "RabbitMQ connection closed".

Definition reconnect : M Sys unit :=
  log Info "Attempting to reconnect" >>
  tryCatch
    (connect >> emit "reconnected" None)
    (fun error =>
       log LError "Reconnection failed" >>
       emit "error" (Some error)).

(** The listener for the connection's ["error"] event. *)
Definition onConnectionError (error : Error) : M Sys unit :=
  log LError "RabbitMQ connection error" >>
  emit "error" (Some error).

(** The listener for the connection's ["close"] event. *)
Definition onConnectionClose : M Sys unit :=
  let! st := gets (fun '(m, _) => currentState m) in
  match st with
  | disconnected => ret tt
  | _ =>
      log Warn "RabbitMQ connection closed unexpectedly" >>
      setChannel None >>
      setConnection None >>
      setState disconnected >>
      reconnect
  end.

(** The connection [c] emits ["close"]: the listener runs when
    [setupConnectionHandlers] attached one to [c]. *)
Definition hasListener (c : Conn) (n : Net) : bool :=
  existsb (fun ev => match ev with
                     | EvListen c' => Nat.eqb c c'
                     | _ => false
                     end) (trace n).

Definition connectionEmitsClose (c : Conn) : M Sys unit :=
  let! listening := gets (fun '(_, n) => hasListener c n) in
  if listening : bool then onConnectionClose else ret tt.

(** *** The methods cut at their [await]s

    An [async] method runs up to an [await], is suspended, and resumes when
    the awaited promise has settled; listeners may run in between.  The
    definitions below cut [reconnect], the ["close"] listener and [close]
    at one such point each; [reconnect_cut], [onConnectionClose_cut] and
    [close_cut] below show that the pieces, run back to back, are the
    methods. *)

(** [reconnect] up to the [await amqplib.connect(...)] of the first turn. *)
Definition reconnectBegin : M Sys unit :=
  log Info "Attempting to reconnect" >>
  connectBegin.

(** [reconnect] from there on. *)
Definition reconnectResume : M Sys unit :=
  tryCatch
    (connectLoop (Z.to_nat (reconnectAttempts this + 1)) 0 >>
     emit "reconnected" None)
    (fun error =>
       log LError "Reconnection failed" >>
       emit "error" (Some error)).

(** What the ["close"] listener does before it returns: [void
    this.reconnect()] starts the reconnection and leaves it suspended.  The
    result tells whether a reconnection was started. *)
Definition onConnectionCloseBegin : M Sys bool :=
  let! st := gets (fun '(m, _) => currentState m) in
  match st with
  | disconnected => ret false
  | _ =>
      log Warn "RabbitMQ connection closed unexpectedly" >>
      setChannel None >>
      setConnection None >>
      setState disconnected >>
      reconnectBegin >>
      ret true
  end.

Definition connectionEmitsCloseBegin (c : Conn) : M Sys bool :=
  let! listening := gets (fun '(_, n) => hasListener c n) in
  if listening : bool then onConnectionCloseBegin else ret false.

(** [close] up to the moment its last [await] settles; the result is
    what that [await] resumes with. *)
Definition closeBegin : M Sys (Outcome unit) :=
  log Info "Closing RabbitMQ connection" >>
  settle
    (let! ch := gets (fun '(m, _) => channel m) in
     match ch with
     | Some c => channel_close c >> setChannel None
     | None => ret tt
     end >>
     let! conn := gets (fun '(m, _) => connection m) in
     match conn with
     | Some c => connection_close c
     | None => ret tt
     end).

(** [close] from there on: [this.connection = null], the [finally] block
    and the last log call. *)
Definition closeResume (awaited : Outcome unit) : M Sys unit :=
  tryFinally
    (match awaited with
     | Returned _ => setConnection None
     | Thrown e => throw e
     end)
    (setState disconnected) >>
  log Info "RabbitMQ connection closed".

(** A run in which the ["close"] event of connection [c] is delivered
    while [close] is suspended at its last [await] (the connection emits the
    event when its closing handshake is over, and the continuation of
    [close] runs after the listeners): [close] up to the [await], the
    listener, the rest of [close], then the rest of the reconnection the
    listener may have started.  The result tells whether it started one. *)
Definition closeWithNotification (c : Conn) : M Sys bool :=
  let! awaited := closeBegin in
  let! started := connectionEmitsCloseBegin c in
  closeResume awaited >>
  (if started : bool then reconnectResume else ret tt) >>
  ret started.

End Methods.

(** *** Observing a run *)

(** The outcome of the connection attempt number [k]: [amqplib.connect]
    followed by [createChannel]. *)
Definition attemptResult (n : Net) (k : nat) : Error + (Conn * Chan) :=
  match dial n k with
  | inl e => inl e
  | inr c =>
      match openChannel n c with
      | inl e => inl e
      | inr ch => inr (c, ch)
      end
  end.

(** The connection attempts and the sleeps among the events. *)
Definition isTiming (ev : NetEvent) : bool :=
  match ev with
  | EvConnect _ | EvSleep _ => true
  | _ => false
  end.

Definition timing (evs : list NetEvent) : list NetEvent :=
  List.filter isTiming evs.

(** [failed] attempts starting at index [attempt], each followed by a sleep
    of [delayMs * 2 ^ index], then one more attempt. *)
Fixpoint schedule (u : string) (delayMs : Z) (attempt : Z) (failed : nat)
    : list NetEvent :=
  match failed with
  | O => [EvConnect u]
  | S failed' =>
      EvConnect u :: EvSleep (delayMs * 2 ^ attempt)
      :: schedule u delayMs (attempt + 1) failed'
  end.

(** A range of configurations on which [calculateBackoff] is the source's
    at every attempt of [connect]: the delay is a safe integer, and with at
    most 970 retries every product [delay * 2 ** attempt] is below
    [2 ^ 53 * 2 ^ 970 = 2 ^ 1023], a finite double that holds it exactly. *)
Definition MAX_EXACT_ATTEMPTS : Z := 970.

Definition backoffExact (c : Config) : bool :=
  isSafeInteger (reconnectDelayMs c) && (reconnectAttempts c <=? MAX_EXACT_ATTEMPTS).

(** The manager after the ["close"] listener has cleared the references. *)
Definition cleared (m : Manager) : Manager :=
  {| connection := None; channel := None; currentState := disconnected;
     eventHandlers := eventHandlers m |}.

(** The callbacks invoked for an event since the trace had length [from]. *)
Definition emitted (ev : string) (from : nat) (n : Net) : list Callback :=
  omap (fun e => match e with
                 | EvCallback h ev' _ => if String.eqb ev ev' then Some h else None
                 | _ => None
                 end) (drop from (trace n)).

End ConnectionManager.

(** ** Sample values

    Concrete built-ins, handlers and worlds on which the theorems below are
    instantiated. *)

Module Sample.

(** A [JSON.parse] that knows two documents and throws on anything else. *)
Definition JSON_parse (s : string) : Error + Json :=
  if String.eqb s "null" then inr JNull
  else if String.eqb s "{}" then inr (JObj [])
  else inl {| name := SyntaxError; message := "Unexpected token";
              code := None; context := None |}.

(** A [JSON.stringify] for flat records of strings and numbers. *)
Definition stringifyAtom (j : Json) : string :=
  match j with
  | JNull => "null"
  | JBool true => "true"
  | JBool false => "false"
  | JNum n => pretty n
  | JStr s => "'" +:+ s +:+ "'"
  | JArr _ => "[]"
  | JObj _ => "{}"
  end.

Definition JSON_stringify (j : Json) : string :=
  match j with
  | JObj fields =>
      "{" +:+ String.concat ","
                (map (fun '(k, v) => k +:+ ":" +:+ stringifyAtom v) fields)
          +:+ "}"
  | _ => stringifyAtom j
  end.

Definition Buffer_toString (b : DlqService.Buffer) : string := b.
Definition Buffer_from (s : string) : DlqService.Buffer := s.

Definition handler : DlqService.DlqHandler :=
  DlqService.newDlqHandler
    {| DlqService.optExchange := "orders";
       DlqService.optQueue := "orders.created";
       DlqService.optServiceName := "orders";
       DlqService.optMaxRetries := None |}.

Definition dbTimeout : Error := plainError "db timeout".

(** A message on its fourth failure, and one that has used up its retries. *)
Definition retriedMessage (retryCount : Z) : DlqService.Message :=
  {| DlqService.content := "not json";
     DlqService.routingKey := "orders.created";
     DlqService.deliveryTag := 1;
     DlqService.headers := Some
       (<["x-retry-count" := DlqService.HNum retryCount]>
        (<["x-first-failure-timestamp" := DlqService.HStr "2024-01-01T00:00:00.000Z"]>
         (<["x-trace-id" := DlqService.HStr "abc-123"]> ∅))) |}.

(** A first failure: no retry headers yet. *)
Definition freshMessage : DlqService.Message :=
  {| DlqService.content := "{}";
     DlqService.routingKey := "orders.created";
     DlqService.deliveryTag := 2;
     DlqService.headers := None |}.

(** A broker that accepts every call. *)
Definition world : DlqService.World :=
  {| DlqService.calls := [];
     DlqService.faults := fun _ => None;
     DlqService.logs := [];
     DlqService.clock := fun _ => "2024-06-01T12:00:00.000Z";
     DlqService.ticks := 0 |}.

(** A broker whose channel is closed: every publish and acknowledgement
    throws, except that the call number [accepted] goes through. *)
Definition brokenWorld (accepted : nat) : DlqService.World :=
  {| DlqService.calls := [];
     DlqService.faults := fun k =>
       if Nat.eqb k accepted then None else Some (plainError "Channel closed");
     DlqService.logs := [];
     DlqService.clock := fun _ => "2024-06-01T12:00:00.000Z";
     DlqService.ticks := 0 |}.

Definition dlqHandler : BaseConsumer.IDlqHandler :=
  BaseConsumer.dlqHandlerOf JSON_parse JSON_stringify Buffer_toString
    Buffer_from handler.

(** A [processMessage] that always fails with a retryable error. *)
Definition processMessage (content : Json) (msg : DlqService.Message)
    : M DlqService.World unit :=
  throw {| name := RetryableError; message := "timeout";
           code := Some "ETIMEOUT"; context := None |}.

(** A manager configured as in the test suite, and a network in which the
    first [refused] connection attempts are refused and the later ones give
    connection and channel number [k] at attempt [k]. *)
Definition config (attempts : Z) : ConnectionManager.Config :=
  ConnectionManager.newConfig
    {| ConnectionManager.optUrl := "amqp://localhost";
       ConnectionManager.optReconnectAttempts := Some attempts;
       ConnectionManager.optReconnectDelayMs := Some 100 |}.

Definition net (refused : nat) (channelCloseFails : bool)
    : ConnectionManager.Net :=
  {| ConnectionManager.trace := [];
     ConnectionManager.dial := fun k =>
       if Nat.ltb k refused then inl (plainError "refused") else inr (S k);
     ConnectionManager.dialed := 0;
     ConnectionManager.openChannel := fun c => inr c;
     ConnectionManager.channelCloses := fun _ =>
       if channelCloseFails then Some (plainError "close failed") else None;
     ConnectionManager.connectionCloses := fun _ => None |}.

(** A fresh manager on that network, with callback 7 registered for
    ["reconnected"] and callback 8 for ["error"]. *)
Definition fresh (refused : nat) (channelCloseFails : bool)
    : ConnectionManager.Sys :=
  snd ((ConnectionManager.on "reconnected" 7%nat >>
        ConnectionManager.on "error" 8%nat)
         (ConnectionManager.newManager, net refused channelCloseFails)).

End Sample.

(** * Further components and observations *)

(** ** The publisher, [src/publishers/base.publisher.ts] *)

Module BasePublisher.

(** The mutable field [exchangeAsserted] and the world of the channel. *)
Definition Sys : Type := bool * DlqService.World.

(** A call on the channel or the logger: the flag is not touched. *)
Definition onChannel {A} (m : M DlqService.World A) : M Sys A :=
  fun '(asserted, w) =>
    match m w with
    | (o, w') => (o, (asserted, w'))
    end.

Definition setExchangeAsserted (b : bool) : M Sys unit :=
  modify (fun '(_, w) => (b, w)).

Section Methods.

Variable JSON_stringify : Json -> string.
Variable Buffer_from : string -> DlqService.Buffer.

(** [this.exchange] *)
Variable exchange : string.

Definition assertExchangeOnce : M Sys unit :=
  let! asserted := gets (fun '(a, _) => a) in
  if asserted : bool then ret tt
  else
    onChannel (DlqService.channelCall
                 (DlqService.AssertExchange exchange "topic" true None)) >>
    setExchangeAsserted true >>
    onChannel (DlqService.log Debug "Exchange asserted").

(** The call [publish] makes on the channel for one message. *)
Definition publishedMessage (routingKey : string) (content : Json)
    : DlqService.ChannelCall :=
  let buffer := Buffer_from (JSON_stringify content) in
  DlqService.Publish exchange routingKey buffer
    {| DlqService.persistent := true;
       DlqService.contentType := "application/json";
       DlqService.optHeaders := None |}.

Definition publish (routingKey : string) (content : Json) : M Sys unit :=
  assertExchangeOnce >>
  onChannel (DlqService.channelCall (publishedMessage routingKey content)) >>
  onChannel (DlqService.log Debug "Message published").

(** [await publisher.publish(...)] for each item in turn. *)
Fixpoint publishAll (items : list (string * Json)) : M Sys unit :=
  match items with
  | [] => ret tt
  | (routingKey, content) :: rest =>
      publish routingKey content >> publishAll rest
  end.

End Methods.

End BasePublisher.

(** ** The logger factory, [src/config/logger.ts] *)

Module Logger.

Record LokiConfig := mkLokiConfig {
  host : string;
  labels : option (gmap string string)
}.

Record LoggerOptions := mkLoggerOptions {
  level : option LogLevel;
  pretty : option bool;
  loki : option LokiConfig;
  job : string;
  environment : string
}.

(** The [options] record of a transport target, one shape per target. *)
Inductive TargetOptions :=
| LokiOptions (host : string) (labels : gmap string string)
    (batching : bool) (interval : Z)
| PrettyOptions (colorize : bool)
| FileOptions (destination : Z).

Record TransportTarget := mkTarget {
  target : string;
  options : TargetOptions
}.

(** [{ job: options.job, environment: options.environment,
       ...options.loki.labels }]: a later key replaces an earlier one. *)
Definition lokiLabels (opts : LoggerOptions) (l : LokiConfig)
    : gmap string string :=
  default ∅ (labels l)
  ∪ <["environment" := environment opts]> (<["job" := job opts]> ∅).

Definition buildTransportTargets (opts : LoggerOptions) : list TransportTarget :=
  let targets := [] in
  let targets :=
    match loki opts with
    | Some l =>
        targets ++ [{| target := "pino-loki";
                       options := LokiOptions (host l) (lokiLabels opts l)
                                    true 5 |}]
    | None => targets
    end in
  let targets :=
    match pretty opts with
    | Some true =>
        targets ++ [{| target := "pino-pretty";
                       options := PrettyOptions true |}]
    | _ =>
        targets ++ [{| target := "pino/file"; options := FileOptions 1 |}]
    end in
  targets.

(** What [createLogger] hands to [pino]: the level and the transport. *)
Record PinoSetup := mkPinoSetup {
  pinoLevel : LogLevel;
  transport : option (list TransportTarget)
}.

Definition createLogger (opts : LoggerOptions) : PinoSetup :=
  let targets := buildTransportTargets opts in
  let transport :=
    if (0 <? length targets)%nat then Some targets else None in
  {| pinoLevel := default Info (level opts); transport := transport |}.

End Logger.

(** ** Starting and stopping a consumer, [src/consumers/base.consumer.ts] *)

Module ConsumerLifecycle.

(** The calls of [start] and [stop] on the channel: those of the DLQ
    handler's channel, and [prefetch], [consume], [cancel]. *)
Inductive Call :=
| OnChannel (c : DlqService.ChannelCall)
| Prefetch (count : Z)
| Consume (queue : string) (noAck : bool)
| Cancel (consumerTag : string).

(** The world: the calls so far, the broker's answers ([faults k = Some e]
    when the call number [k] throws [e]; [tags k] is the consumer tag that
    the call number [k] returns when it is an accepted [consume]). *)
Record World := mkWorld {
  calls : list Call;
  faults : nat -> option Error;
  tags : nat -> string;
  logs : list (LogLevel * string)
}.

(** The mutable field [consumerTag] and the world. *)
Definition Sys : Type := option string * World.

Definition addCall (c : Call) (w : World) : World :=
  {| calls := calls w ++ [c]; faults := faults w; tags := tags w;
     logs := logs w |}.

Definition call (c : Call) : M Sys unit :=
  fun '(tag, w) =>
    match faults w (length (calls w)) with
    | Some e => (Thrown e, (tag, addCall c w))
    | None => (Returned tt, (tag, addCall c w))
    end.

(** [channel.consume(queue, handler, { noAck })]: the reply carries the
    consumer tag. *)
Definition consume (queue : string) (noAck : bool) : M Sys string :=
  fun '(tag, w) =>
    match faults w (length (calls w)) with
    | Some e => (Thrown e, (tag, addCall (Consume queue noAck) w))
    | None => (Returned (tags w (length (calls w))),
               (tag, addCall (Consume queue noAck) w))
    end.

Definition log (lvl : LogLevel) (msg : string) : M Sys unit :=
  modify (fun '(tag, w) =>
    (tag, {| calls := calls w; faults := faults w; tags := tags w;
             logs := logs w ++ [(lvl, msg)] |})).

Definition setConsumerTag (t : option string) : M Sys unit :=
  modify (fun '(_, w) => (t, w)).

(** A collaborator that works on the world and cannot reach the consumer's
    private field. *)
Definition onWorld {A} (m : M World A) : M Sys A :=
  fun '(tag, w) =>
    match m w with
    | (o, w') => (o, (tag, w'))
    end.

Definition DEFAULT_PREFETCH_COUNT : Z := 10.

Record BaseConsumerOptions := mkConsumerOptions {
  optExchange : string;
  optQueue : string;
  optRoutingKey : string;
  optPrefetchCount : option Z
}.

Record Consumer := mkConsumer {
  exchange : string;
  queue : string;
  routingKey : string;
  prefetchCount : Z
}.

Definition newConsumer (options : BaseConsumerOptions) : Consumer :=
  {| exchange := optExchange options;
     queue := optQueue options;
     routingKey := optRoutingKey options;
     prefetchCount := default DEFAULT_PREFETCH_COUNT (optPrefetchCount options) |}.

(** [if (s)] on a string: the empty string is falsy. *)
Definition truthy (s : string) : bool :=
  match s with
  | EmptyString => false
  | _ => true
  end.

Section Methods.

Variable this : Consumer.

(** [this.dlqHandler.setup()], any implementation of the interface. *)
Variable dlqSetup : M World unit.

Definition start : M Sys unit :=
  call (Prefetch (prefetchCount this)) >>
  call (OnChannel (DlqService.AssertExchange (exchange this) "topic" true None)) >>
  call (OnChannel (DlqService.AssertQueue (queue this) true)) >>
  call (OnChannel (DlqService.BindQueue (queue this) (exchange this)
                     (routingKey this))) >>
  onWorld dlqSetup >>
  let! consumerTag := consume (queue this) false in
  setConsumerTag (Some consumerTag) >>
  log Info "Consumer started".

Definition stop : M Sys unit :=
  let! consumerTag := gets (fun '(tag, _) => tag) in
  match consumerTag with
  | Some t =>
      if truthy t then call (Cancel t) >> setConsumerTag None else ret tt
  | None => ret tt
  end >>
  log Info "Consumer stopped".

End Methods.

(** The calls that [start] makes before it hands over to the DLQ handler. *)
Definition topology (c : Consumer) : list Call :=
  [Prefetch (prefetchCount c);
   OnChannel (DlqService.AssertExchange (exchange c) "topic" true None);
   OnChannel (DlqService.AssertQueue (queue c) true);
   OnChannel (DlqService.BindQueue (queue c) (exchange c) (routingKey c))].

Definition isConsume (c : Call) : bool :=
  match c with
  | Consume _ _ => true
  | _ => false
  end.

Definition isCancel (c : Call) : bool :=
  match c with
  | Cancel _ => true
  | _ => false
  end.

Definition healthy (w : World) : Prop := forall k, faults w k = None.

(** The calls made between two worlds. *)
Definition callsSince (w w' : World) : list Call :=
  drop (length (calls w)) (calls w').

(** The world after a series of calls. *)
Definition afterCalls (cs : list Call) (w : World) : World :=
  fold_left (fun w c => addCall c w) cs w.

(** The next [k] calls are accepted. *)
Definition accepts (k : nat) (w : World) : Prop :=
  forall i, (i < k)%nat -> faults w (length (calls w) + i) = None.

End ConsumerLifecycle.

(** ** Observing the DLQ handler over several calls and deliveries *)

Module DlqPlans.

(** The calls of a plan that are made when the broker answers by [f], the
    first of them being the call number [k]: up to and including the first
    call that throws. *)
Fixpoint attempted (f : nat -> option Error) (k : nat)
    (plan : list DlqService.ChannelCall) : list DlqService.ChannelCall :=
  match plan with
  | [] => []
  | c :: rest =>
      match f k with
      | Some _ => [c]
      | None => c :: attempted f (S k) rest
      end
  end.

(** The outcome of such a run: the first exception, if any. *)
Fixpoint planOutcome (f : nat -> option Error) (k : nat)
    (plan : list DlqService.ChannelCall) : Outcome unit :=
  match plan with
  | [] => Returned tt
  | _ :: rest =>
      match f k with
      | Some e => Thrown e
      | None => planOutcome f (S k) rest
      end
  end.

(** The five assertions of [setup]. *)
Definition setupPlan (h : DlqService.DlqHandler) : list DlqService.ChannelCall :=
  [DlqService.AssertExchange (DlqService.exchange h +:+ ".delay")
     "x-delayed-message" true (Some "topic");
   DlqService.AssertExchange (DlqService.exchange h +:+ ".dlq") "topic" true None;
   DlqService.AssertQueue (DlqService.queue h +:+ ".dlq") true;
   DlqService.BindQueue (DlqService.queue h +:+ ".dlq")
     (DlqService.exchange h +:+ ".dlq") (DlqService.queue h);
   DlqService.AssertExchange DlqService.NOTIFICATIONS_EXCHANGE "topic" true None].

(** Acknowledgements, positive or negative. *)
Definition isSettle (c : DlqService.ChannelCall) : bool :=
  match c with
  | DlqService.Ack _ | DlqService.Nack _ _ _ => true
  | _ => false
  end.

Definition isNack (c : DlqService.ChannelCall) : bool :=
  match c with
  | DlqService.Nack _ _ _ => true
  | _ => false
  end.

Definition isPublish (c : DlqService.ChannelCall) : bool :=
  match c with
  | DlqService.Publish _ _ _ _ => true
  | _ => false
  end.

(** A hook that leaves the channel alone: it makes no call on it. *)
Definition quiet (processMessage :
    Json -> DlqService.Message -> M DlqService.World unit) : Prop :=
  forall content msg w,
    DlqService.calls (snd (processMessage content msg w)) = DlqService.calls w /\
    DlqService.faults (snd (processMessage content msg w)) = DlqService.faults w.

(** A message that a consumer receives when the broker delivers a published
    message: payload and routing key are those of the publish, and so are
    the headers other than [x-delay], which belongs to the delayed-message
    exchange (it may hand it on, rewrite it or drop it); the delivery tag is
    the broker's. *)
Definition deliveredAs (c : DlqService.ChannelCall) (msg' : DlqService.Message)
    : Prop :=
  match c with
  | DlqService.Publish _ routing body opts =>
      DlqService.content msg' = body /\
      DlqService.routingKey msg' = routing /\
      forall key, key <> "x-delay" ->
        DlqService.headersOf msg' !! key
        = default ∅ (DlqService.optHeaders opts) !! key
  | _ => False
  end.

Section Chains.

Variable JSON_parse : string -> Error + Json.
Variable JSON_stringify : Json -> string.
Variable Buffer_toString : DlqService.Buffer -> string.
Variable Buffer_from : string -> DlqService.Buffer.
Variable this : DlqService.DlqHandler.

(** The channel calls a handler intends to make for a message that fails
    in the world [w], in order: the retry republish and the acknowledgement
    (retryable error, retries left), or the dead-letter publish, the alert
    and the acknowledgement. *)
Definition handlerPlan (retryable : bool) (msg : DlqService.Message)
    (error : Error) (w : DlqService.World) : list DlqService.ChannelCall :=
  let hs := DlqService.headersOf msg in
  let rc := DlqService.retryCountOf hs in
  let ff := DlqService.firstFailureValue hs w in
  let w1 := DlqService.afterFirstFailure hs w in
  if retryable && (rc <? DlqService.maxRetries this) then
    [DlqService.retryMessage this msg error rc ff (DlqService.calculateDelay rc);
     DlqService.Ack msg]
  else
    [DlqService.dlqMessage this msg error rc ff;
     DlqService.alertMessage JSON_stringify Buffer_from this
       (DlqService.alertOf JSON_parse Buffer_toString this error rc msg
          (DlqService.clock w1 (DlqService.ticks w1)));
     DlqService.Ack msg].

(** One round of a retry chain: the message fails, [handleRetryableError]
    republishes it to the delay exchange, and the broker delivers the
    republished message ([deliveredAs]: unchanged but for [x-delay]). *)
Definition retryRound (msg msg' : DlqService.Message) : Prop :=
  exists error w routing body opts,
    DlqService.firstCall w
      (snd (DlqService.handleRetryableError JSON_parse JSON_stringify
              Buffer_toString Buffer_from this msg error w))
    = Some (DlqService.Publish (DlqService.exchange this +:+ ".delay")
              routing body opts) /\
    deliveredAs (DlqService.Publish (DlqService.exchange this +:+ ".delay")
                   routing body opts) msg'.

(** [retryChain k msg msg']: [msg'] is [msg] after [k] rounds. *)
Inductive retryChain : nat -> DlqService.Message -> DlqService.Message -> Prop :=
| chain_start msg : retryChain 0 msg msg
| chain_round k msg mid msg' :
    retryChain k msg mid ->
    retryRound mid msg' ->
    retryChain (S k) msg msg'.

End Chains.

End DlqPlans.

(** ** Observing the connection manager *)

Module ConnectionObserve.

(** The delays requested: the sum of the arguments of the [sleep] calls
    among the events. *)
Fixpoint sleepTotal (evs : list ConnectionManager.NetEvent) : Z :=
  match evs with
  | [] => 0
  | ConnectionManager.EvSleep ms :: rest => ms + sleepTotal rest
  | _ :: rest => sleepTotal rest
  end.

(** A series of [on] calls. *)
Fixpoint registerAll (regs : list (string * ConnectionManager.Callback))
    : M ConnectionManager.Sys unit :=
  match regs with
  | [] => ret tt
  | (ev, h) :: rest => ConnectionManager.on ev h >> registerAll rest
  end.

(** The callbacks that a series of [on] calls registers for one event, in
    the order of the calls. *)
Definition registeredFor (ev : string)
    (regs : list (string * ConnectionManager.Callback))
    : list ConnectionManager.Callback :=
  omap (fun '(ev', h) => if String.eqb ev ev' then Some h else None) regs.

(** The callbacks invoked among the events: which one, for which event,
    with which argument. *)
Definition callbacksIn (evs : list ConnectionManager.NetEvent)
    : list (ConnectionManager.Callback * string * option Error) :=
  omap (fun e => match e with
                 | ConnectionManager.EvCallback h ev arg => Some (h, ev, arg)
                 | _ => None
                 end) evs.

(** The callbacks registered for an event. *)
Definition handlersFor (ev : string) (m : ConnectionManager.Manager)
    : list ConnectionManager.Callback :=
  default [] (ConnectionManager.eventHandlers m !! ev).

(** Events that reach the network: everything but log calls and callbacks. *)
Definition isNetworkCall (ev : ConnectionManager.NetEvent) : bool :=
  match ev with
  | ConnectionManager.EvLog _ _ | ConnectionManager.EvCallback _ _ _ => false
  | _ => true
  end.

(** The events added to the trace between two worlds. *)
Definition eventsSince (n n' : ConnectionManager.Net)
    : list ConnectionManager.NetEvent :=
  drop (length (ConnectionManager.trace n)) (ConnectionManager.trace n').

End ConnectionObserve.

(** ** More sample values *)

Module Sample2.

(** A broker for [start] and [stop] that accepts every call, or rejects the
    call number [rejected]. *)
Definition lifecycleWorld (rejected : option nat) : ConsumerLifecycle.World :=
  {| ConsumerLifecycle.calls := [];
     ConsumerLifecycle.faults := fun k =>
       match rejected with
       | Some r => if Nat.eqb k r then Some (plainError "Channel closed") else None
       | None => None
       end;
     ConsumerLifecycle.tags := fun _ => "amq.ctag-1";
     ConsumerLifecycle.logs := [] |}.

Definition consumer : ConsumerLifecycle.Consumer :=
  ConsumerLifecycle.newConsumer
    {| ConsumerLifecycle.optExchange := "orders";
       ConsumerLifecycle.optQueue := "orders.created";
       ConsumerLifecycle.optRoutingKey := "created";
       ConsumerLifecycle.optPrefetchCount := None |}.

(** A DLQ handler whose [setup] does nothing. *)
Definition noSetup : M ConsumerLifecycle.World unit := ret tt.

(** A [processMessage] that succeeds without touching the channel. *)
Definition processOk (content : Json) (msg : DlqService.Message)
    : M DlqService.World unit := ret tt.

(** [Sample.retriedMessage 3] as it comes back after one more retry: the
    count is 4, the error is recorded, and the delayed-message exchange has
    handed the delay on negated. *)
Definition redelivered : DlqService.Message :=
  {| DlqService.content := "not json";
     DlqService.routingKey := "orders.created";
     DlqService.deliveryTag := 9;
     DlqService.headers := Some
       (<["x-delay" := DlqService.HNum (-4000)]>
        (<["x-last-error" := DlqService.HStr "db timeout"]>
         (<["x-retry-count" := DlqService.HNum 4]>
          (<["x-first-failure-timestamp" := DlqService.HStr "2024-01-01T00:00:00.000Z"]>
           (<["x-trace-id" := DlqService.HStr "abc-123"]> ∅))))) |}.

(** A [processMessage] that rejects the message for good. *)
Definition invalidOrder : Error :=
  {| name := NonRetryableError; message := "invalid order";
     code := Some "EINVALID"; context := None |}.

Definition processInvalid (content : Json) (msg : DlqService.Message)
    : M DlqService.World unit := throw invalidOrder.

Definition loggerOptions : Logger.LoggerOptions :=
  {| Logger.level := None;
     Logger.pretty := None;
     Logger.loki := Some
       {| Logger.host := "http://localhost:3101";
          Logger.labels := Some (<["job" := "custom"]> (<["extra" := "label"]> ∅)) |};
     Logger.job := "test-service";
     Logger.environment := "test" |}.

End Sample2.

(** * Properties *)

(** ** The retry delay *)

Section CalculateDelay.

Import DlqService.

Lemma calculateDelay_pos (r : Z) :
  1 <= r -> calculateDelay r = Z.min (1000 * 2 ^ (r - 1)) MAX_DELAY_MS.
Proof.
  intros Hr. unfold calculateDelay.
  destruct (Z.eqb_spec r 0) as [->|_]; [lia | reflexivity].
Qed.

Lemma calculateDelay_capped (r : Z) : 17 <= r -> calculateDelay r = MAX_DELAY_MS.
Proof.
  intros Hr. rewrite calculateDelay_pos by lia.
  apply Z.min_r.
  assert (2 ^ 16 <= 2 ^ (r - 1)) by (apply Z.pow_le_mono_r; lia).
  change MAX_DELAY_MS with 57600000. change (2 ^ 16) with 65536 in *. lia.
Qed.

Lemma calculateDelay_doubling (r : Z) :
  1 <= r <= 16 -> calculateDelay r = 1000 * 2 ^ (r - 1).
Proof.
  intros Hr. rewrite calculateDelay_pos by lia.
  apply Z.min_l.
  assert (2 ^ (r - 1) <= 2 ^ 15) by (apply Z.pow_le_mono_r; lia).
  change MAX_DELAY_MS with 57600000. change (2 ^ 15) with 32768 in *. lia.
Qed.

(** C1, the claim as stated fails: at retry index 15 the raw value
    [1000 * 2^14 = 16384000] is below the cap, so the delay is not yet
    57600000 there (nor at index 16). *)
Lemma calculateDelay_15_not_capped :
  calculateDelay 15 = 16384000 /\
  calculateDelay 16 = 32768000 /\
  ~ (forall r, 15 <= r -> calculateDelay r = 57600000).
Proof.
  split; [reflexivity | split; [reflexivity |]].
  intros H. specialize (H 15 ltac:(lia)). discriminate H.
Qed.

(** C1, amended: for every retry index [r >= 0] the delay of the retry
    republish is 0 when [r = 0] and [min (1000 * 2^(r-1)) 57600000]
    otherwise; it is [1000 * 2^(r-1)] up to index 16 and exactly 57600000
    from index 17 on; delay(1) = 1000, delay(2) = 2000, delay(3) = 4000,
    delay(5) = 16000, delay(10) = 512000. *)
Theorem calculateDelay_schedule :
  (forall r, 0 <= r ->
     calculateDelay r
     = if r =? 0 then 0 else Z.min (1000 * 2 ^ (r - 1)) 57600000) /\
  (forall r, 1 <= r <= 16 -> calculateDelay r = 1000 * 2 ^ (r - 1)) /\
  (forall r, 17 <= r -> calculateDelay r = 57600000) /\
  calculateDelay 0 = 0 /\
  calculateDelay 1 = 1000 /\
  calculateDelay 2 = 2000 /\
  calculateDelay 3 = 4000 /\
  calculateDelay 5 = 16000 /\
  calculateDelay 10 = 512000.
Proof.
  split; [| split; [| split]].
  - intros r Hr. destruct (Z.eqb_spec r 0) as [->|Hne]; [reflexivity |].
    apply calculateDelay_pos. lia.
  - apply calculateDelay_doubling.
  - apply calculateDelay_capped.
  - repeat split; reflexivity.
Qed.

Lemma calculateDelay_schedule_witness :
  0 <= 18 /\ calculateDelay 18 = 57600000 /\ calculateDelay 4 = 8000.
Proof.
  destruct calculateDelay_schedule as (Hall & Hlow & Hcap & _).
  split; [lia | split].
  - apply (Hcap 18). lia.
  - rewrite (Hlow 4) by lia. reflexivity.
Defined.

End CalculateDelay.


(** ** Runs of the monad *)

Section MonadRuns.

Context {S A B : Type}.

Lemma bind_returned (m : M S A) (k : A -> M S B) s a s' :
  m s = (Returned a, s') -> bind m k s = k a s'.
Proof. intros H. unfold bind. rewrite H. reflexivity. Qed.

Lemma bind_thrown (m : M S A) (k : A -> M S B) s e s' :
  m s = (Thrown e, s') -> bind m k s = (Thrown e, s').
Proof. intros H. unfold bind. rewrite H. reflexivity. Qed.

Lemma tryCatch_returned (m : M S A) (h : Error -> M S A) s a s' :
  m s = (Returned a, s') -> tryCatch m h s = (Returned a, s').
Proof. intros H. unfold tryCatch. rewrite H. reflexivity. Qed.

Lemma tryCatch_thrown (m : M S A) (h : Error -> M S A) s e s' :
  m s = (Thrown e, s') -> tryCatch m h s = h e s'.
Proof. intros H. unfold tryCatch. rewrite H. reflexivity. Qed.

End MonadRuns.

(** ** Runs of the DLQ handler *)

Section DlqRuns.

Import DlqService.

Lemma string_app_inv_head (p a b : string) : p +:+ a = p +:+ b -> a = b.
Proof.
  induction p as [|c p IH]; simpl; intros H; [exact H |].
  injection H as H. exact (IH H).
Qed.

Lemma grows_same w w' : calls w' = calls w -> grows w w'.
Proof. intros H. exists []. rewrite H. symmetry. apply app_nil_r. Qed.

Lemma grows_trans w1 w2 w3 : grows w1 w2 -> grows w2 w3 -> grows w1 w3.
Proof.
  intros [l1 H1] [l2 H2]. exists (l1 ++ l2).
  rewrite H2, H1. symmetry. apply app_assoc.
Qed.

Lemma monotone_ret {A} (a : A) : monotone (ret a).
Proof. intros w. apply grows_same. reflexivity. Qed.

Lemma monotone_log lvl msg : monotone (log lvl msg).
Proof. intros w. apply grows_same. reflexivity. Qed.

Lemma monotone_nowISO : monotone nowISO.
Proof. intros w. apply grows_same. reflexivity. Qed.

Lemma monotone_channelCall c : monotone (channelCall c).
Proof.
  intros w. exists [c]. unfold channelCall.
  destruct (faults w (length (calls w))); reflexivity.
Qed.

Lemma monotone_bind {A B} (m : M World A) (k : A -> M World B) :
  monotone m -> (forall a, monotone (k a)) -> monotone (bind m k).
Proof.
  intros Hm Hk w. unfold bind. specialize (Hm w).
  destruct (m w) as [[a|e] w1]; simpl in *; [| exact Hm].
  eapply grows_trans; [exact Hm | apply Hk].
Qed.

Create HintDb dlq.
#[local] Hint Resolve monotone_ret monotone_log monotone_nowISO monotone_channelCall : dlq.

Ltac monotonic :=
  repeat first
    [ apply monotone_bind; [| intros ?]
    | solve [auto with dlq] ].

Lemma firstCall_lookup w w' : firstCall w w' = calls w' !! length (calls w).
Proof.
  unfold firstCall, callsMade. rewrite head_lookup, lookup_drop.
  f_equal. lia.
Qed.

(** The first call stays the first call when the computation goes on. *)
Lemma firstCall_bind {A B} (m : M World A) (k : A -> M World B) w0 w c :
  firstCall w0 (snd (m w)) = Some c ->
  (forall a, monotone (k a)) ->
  firstCall w0 (snd (bind m k w)) = Some c.
Proof.
  intros Hm Hk. unfold bind.
  destruct (m w) as [[a|e] w1]; simpl in *; [| exact Hm].
  rewrite firstCall_lookup in *.
  destruct (Hk a w1) as [l Hl]. rewrite Hl.
  apply lookup_app_l_Some. exact Hm.
Qed.

Lemma firstCall_channelCall c w0 w :
  calls w = calls w0 -> firstCall w0 (snd (channelCall c w)) = Some c.
Proof.
  intros Hw. rewrite firstCall_lookup. unfold channelCall.
  destruct (faults w (length (calls w))); simpl;
    rewrite Hw; apply list_lookup_middle; reflexivity.
Qed.

Lemma channelCall_healthy c w :
  healthy w -> channelCall c w = (Returned tt, addCall c w).
Proof. intros H. unfold channelCall. rewrite H. reflexivity. Qed.

Lemma firstFailureOf_run hs w :
  firstFailureOf hs w = (Returned (firstFailureValue hs w), afterFirstFailure hs w).
Proof.
  unfold firstFailureOf, firstFailureValue, afterFirstFailure.
  destruct (hs !! "x-first-failure-timestamp") as [[n|s| | |t]|]; reflexivity.
Qed.

Lemma afterFirstFailure_calls hs w : calls (afterFirstFailure hs w) = calls w.
Proof. unfold afterFirstFailure. destruct (nullish _); reflexivity. Qed.

Lemma afterFirstFailure_faults hs w : faults (afterFirstFailure hs w) = faults w.
Proof. unfold afterFirstFailure. destruct (nullish _); reflexivity. Qed.

Variable JSON_parse : string -> Error + Json.
Variable JSON_stringify : Json -> string.
Variable Buffer_toString : Buffer -> string.
Variable Buffer_from : string -> Buffer.
Variable this : DlqHandler.

Abbreviation handleRetryable :=
  (handleRetryableError JSON_parse JSON_stringify Buffer_toString Buffer_from this).
Abbreviation handleNonRetryable :=
  (handleNonRetryableError JSON_parse JSON_stringify Buffer_toString Buffer_from this).
Abbreviation alertFor :=
  (alertOf JSON_parse Buffer_toString this).
Abbreviation alertCall :=
  (alertMessage JSON_stringify Buffer_from this).

Lemma monotone_publishAlert err rc msg :
  monotone (publishAlert JSON_parse JSON_stringify Buffer_toString Buffer_from
              this err rc msg).
Proof. unfold publishAlert. monotonic. Qed.

(** The outbound publish of [handleRetryableError]: the first call it makes
    on the channel, on every world. *)
Lemma handleRetryableError_firstCall msg err w :
  let hs := headersOf msg in
  let rc := retryCountOf hs in
  let ff := firstFailureValue hs w in
  firstCall w (snd (handleRetryable msg err w))
  = Some (if maxRetries this <=? rc
          then dlqMessage this msg err rc ff
          else retryMessage this msg err rc ff (calculateDelay rc)).
Proof.
  intros hs rc ff. unfold handleRetryableError.
  rewrite (bind_returned _ _ _ _ _ (firstFailureOf_run _ _)).
  fold hs rc ff.
  destruct (maxRetries this <=? rc).
  - rewrite (bind_returned _ _ _ tt
               (addLog Warn "Max retries exhausted, routing to DLQ"
                  (afterFirstFailure hs w))) by reflexivity.
    apply firstCall_bind; [| intros _; monotonic; apply monotone_publishAlert].
    unfold routeToDlq. apply firstCall_bind; [| intros _; monotonic].
    apply firstCall_channelCall. simpl. apply afterFirstFailure_calls.
  - apply firstCall_bind; [| intros _; monotonic].
    apply firstCall_channelCall. apply afterFirstFailure_calls.
Qed.

Lemma handleNonRetryableError_firstCall msg err w :
  let hs := headersOf msg in
  firstCall w (snd (handleNonRetryable msg err w))
  = Some (dlqMessage this msg err (retryCountOf hs) (firstFailureValue hs w)).
Proof.
  intros hs. unfold handleNonRetryableError.
  rewrite (bind_returned _ _ _ _ _ (firstFailureOf_run _ _)).
  fold hs.
  rewrite (bind_returned _ _ _ tt
             (addLog Warn "Non-retryable error, routing directly to DLQ"
                (afterFirstFailure hs w))) by reflexivity.
  apply firstCall_bind; [| intros _; monotonic; apply monotone_publishAlert].
  unfold routeToDlq. apply firstCall_bind; [| intros _; monotonic].
  apply firstCall_channelCall. simpl. apply afterFirstFailure_calls.
Qed.

Lemma healthy_afterFirstFailure hs w : healthy w -> healthy (afterFirstFailure hs w).
Proof. intros H k. rewrite afterFirstFailure_faults. apply H. Qed.

(** Dead-lettering on a channel that accepts every call: the dead-letter
    publish, the alert, the acknowledgement. *)
Lemma deadLetter_healthy msg err rc ff w :
  healthy w ->
  exists w',
    (routeToDlq this msg err rc ff >>
     publishAlert JSON_parse JSON_stringify Buffer_toString Buffer_from
       this err rc msg >>
     channelCall (Ack msg)) w = (Returned tt, w') /\
    calls w' = calls w ++ [dlqMessage this msg err rc ff;
                           alertCall (alertFor err rc msg (clock w (ticks w)));
                           Ack msg].
Proof.
  intros H. eexists. split.
  - unfold routeToDlq, publishAlert, bind, channelCall, log, modify, nowISO.
    repeat (progress (simpl; rewrite ?H)). reflexivity.
  - simpl. rewrite <- !app_assoc. reflexivity.
Qed.

Lemma retryable_healthy_dead msg err w :
  healthy w ->
  maxRetries this <= retryCountOf (headersOf msg) ->
  let hs := headersOf msg in
  let w1 := afterFirstFailure hs w in
  fst (handleRetryable msg err w) = Returned tt /\
  callsMade w (snd (handleRetryable msg err w))
  = [dlqMessage this msg err (retryCountOf hs) (firstFailureValue hs w);
     alertCall (alertFor err (retryCountOf hs) msg (clock w1 (ticks w1)));
     Ack msg].
Proof.
  intros H Hmax hs w1. unfold handleRetryableError.
  rewrite (bind_returned _ _ _ _ _ (firstFailureOf_run _ _)).
  fold hs w1. apply Z.leb_le in Hmax. fold hs in Hmax. rewrite Hmax.
  rewrite (bind_returned _ _ _ tt
             (addLog Warn "Max retries exhausted, routing to DLQ" w1))
    by reflexivity.
  destruct (deadLetter_healthy msg err (retryCountOf hs)
              (firstFailureValue hs w)
              (addLog Warn "Max retries exhausted, routing to DLQ" w1))
    as (w' & Hrun & Hcalls).
  { apply (healthy_afterFirstFailure hs w H). }
  rewrite Hrun. split; [reflexivity |].
  unfold callsMade. simpl. rewrite Hcalls. simpl.
  unfold w1. rewrite afterFirstFailure_calls. apply drop_app_length.
Qed.

Lemma retryable_healthy_retry msg err w :
  healthy w ->
  retryCountOf (headersOf msg) < maxRetries this ->
  let hs := headersOf msg in
  fst (handleRetryable msg err w) = Returned tt /\
  callsMade w (snd (handleRetryable msg err w))
  = [retryMessage this msg err (retryCountOf hs) (firstFailureValue hs w)
       (calculateDelay (retryCountOf hs));
     Ack msg].
Proof.
  intros H Hmax hs. unfold handleRetryableError.
  rewrite (bind_returned _ _ _ _ _ (firstFailureOf_run _ _)).
  fold hs. apply Z.leb_gt in Hmax. fold hs in Hmax. rewrite Hmax.
  pose proof (healthy_afterFirstFailure hs w H) as H1.
  unfold bind, channelCall, log, modify.
  repeat (progress (simpl; rewrite ?H1)).
  split; [reflexivity |].
  unfold callsMade. simpl.
  rewrite afterFirstFailure_calls, <- app_assoc. apply drop_app_length.
Qed.

Lemma nonRetryable_healthy msg err w :
  healthy w ->
  let hs := headersOf msg in
  let w1 := afterFirstFailure hs w in
  fst (handleNonRetryable msg err w) = Returned tt /\
  callsMade w (snd (handleNonRetryable msg err w))
  = [dlqMessage this msg err (retryCountOf hs) (firstFailureValue hs w);
     alertCall (alertFor err (retryCountOf hs) msg (clock w1 (ticks w1)));
     Ack msg].
Proof.
  intros H hs w1. unfold handleNonRetryableError.
  rewrite (bind_returned _ _ _ _ _ (firstFailureOf_run _ _)).
  fold hs w1.
  rewrite (bind_returned _ _ _ tt
             (addLog Warn "Non-retryable error, routing directly to DLQ" w1))
    by reflexivity.
  destruct (deadLetter_healthy msg err (retryCountOf hs)
              (firstFailureValue hs w)
              (addLog Warn "Non-retryable error, routing directly to DLQ" w1))
    as (w' & Hrun & Hcalls).
  { apply (healthy_afterFirstFailure hs w H). }
  rewrite Hrun. split; [reflexivity |].
  unfold callsMade. simpl. rewrite Hcalls. simpl.
  unfold w1. rewrite afterFirstFailure_calls. apply drop_app_length.
Qed.

Lemma dlq_delay_exchanges_differ r1 b1 o1 r2 b2 o2 :
  Publish (exchange this +:+ ".dlq") r1 b1 o1
  <> Publish (exchange this +:+ ".delay") r2 b2 o2.
Proof.
  intros H. injection H as H _ _ _.
  apply string_app_inv_head in H. discriminate H.
Qed.

(** C2.  [handleRetryableError] dead-letters exactly when the incoming
    [x-retry-count] (0 when the header is absent) is at least [maxRetries]
    (20 by default).  On every world the outbound publish goes to the
    dead-letter exchange when the count has reached [maxRetries] and to the
    delay exchange otherwise; on a channel that accepts the calls the
    handler then publishes the alert and acknowledges (dead-letter), or
    acknowledges (retry).  A count equal to [maxRetries] is dead-lettered, a
    count equal to [maxRetries - 1] is republished. *)
Theorem handleRetryableError_exhaustion msg err w :
  let hs := headersOf msg in
  let rc := retryCountOf hs in
  let run := handleRetryable msg err w in
  retryCountTyped hs = true ->
  (maxRetries this <= rc <->
   exists r b o,
     firstCall w (snd run) = Some (Publish (exchange this +:+ ".dlq") r b o)) /\
  (rc < maxRetries this <->
   exists r b o,
     firstCall w (snd run) = Some (Publish (exchange this +:+ ".delay") r b o)) /\
  (healthy w ->
   fst run = Returned tt /\
   (maxRetries this <= rc ->
    exists o a,
      callsMade w (snd run)
      = [Publish (exchange this +:+ ".dlq") (queue this) (content msg) o;
         alertCall a;
         Ack msg]) /\
   (rc < maxRetries this ->
    exists o,
      callsMade w (snd run)
      = [Publish (exchange this +:+ ".delay") (routingKey msg) (content msg) o;
         Ack msg])) /\
  (hs !! "x-retry-count" = Some (HNum (maxRetries this)) ->
   exists r b o,
     firstCall w (snd run) = Some (Publish (exchange this +:+ ".dlq") r b o)) /\
  (hs !! "x-retry-count" = Some (HNum (maxRetries this - 1)) ->
   exists r b o,
     firstCall w (snd run) = Some (Publish (exchange this +:+ ".delay") r b o)) /\
  (hs !! "x-retry-count" = None -> rc = 0) /\
  (forall options,
     optMaxRetries options = None -> maxRetries (newDlqHandler options) = 20).
Proof.
  intros hs rc run _.
  pose proof (handleRetryableError_firstCall msg err w) as Hfirst.
  cbv zeta in Hfirst. fold hs rc run in Hfirst.
  assert (Hdead : maxRetries this <= rc ->
            exists r b o,
              firstCall w (snd run)
              = Some (Publish (exchange this +:+ ".dlq") r b o)).
  { intros Hmax. apply Z.leb_le in Hmax. rewrite Hmax in Hfirst.
    rewrite Hfirst. unfold dlqMessage. eauto. }
  assert (Hretry : rc < maxRetries this ->
            exists r b o,
              firstCall w (snd run)
              = Some (Publish (exchange this +:+ ".delay") r b o)).
  { intros Hmax. apply Z.leb_gt in Hmax. rewrite Hmax in Hfirst.
    rewrite Hfirst. unfold retryMessage. eauto. }
  repeat split.
  - exact Hdead.
  - intros (r & b & o & Hc).
    destruct (Z.le_gt_cases (maxRetries this) rc) as [Hle|Hlt]; [exact Hle |].
    destruct (Hretry Hlt) as (r' & b' & o' & Hc').
    rewrite Hc in Hc'. exfalso.
    apply (dlq_delay_exchanges_differ r b o r' b' o'). congruence.
  - exact Hretry.
  - intros (r & b & o & Hc).
    destruct (Z.le_gt_cases (maxRetries this) rc) as [Hle|Hlt]; [| exact Hlt].
    destruct (Hdead Hle) as (r' & b' & o' & Hc').
    rewrite Hc' in Hc. exfalso.
    apply (dlq_delay_exchanges_differ r' b' o' r b o). congruence.
  - destruct (Z.le_gt_cases (maxRetries this) rc) as [Hle|Hlt].
    + apply (retryable_healthy_dead msg err w); assumption.
    + apply (retryable_healthy_retry msg err w); assumption.
  - intros Hle. destruct (retryable_healthy_dead msg err w H Hle) as [_ Hc].
    unfold run. rewrite Hc. unfold dlqMessage. eauto.
  - intros Hlt. destruct (retryable_healthy_retry msg err w H Hlt) as [_ Hc].
    unfold run. rewrite Hc. unfold retryMessage. eauto.
  - intros Hh. apply Hdead. unfold rc, retryCountOf. rewrite Hh. lia.
  - intros Hh. apply Hretry. unfold rc, retryCountOf. rewrite Hh. lia.
  - intros Hh. unfold rc, retryCountOf. rewrite Hh. reflexivity.
  - intros options Hopt. unfold newDlqHandler. simpl. rewrite Hopt. reflexivity.
Qed.

Lemma lookup_retryMessage_count msg err rc ff d :
  publishedHeader "x-retry-count" (retryMessage this msg err rc ff d)
  = Some (HNum (rc + 1)).
Proof.
  simpl. rewrite !lookup_insert_ne by discriminate. apply lookup_insert_eq.
Qed.

Lemma lookup_dlqMessage_count msg err rc ff :
  publishedHeader "x-retry-count" (dlqMessage this msg err rc ff)
  = Some (HNum rc).
Proof.
  simpl. rewrite !lookup_insert_ne by discriminate. apply lookup_insert_eq.
Qed.



Lemma outboundHeader_retryable key msg err w :
  let hs := headersOf msg in
  let rc := retryCountOf hs in
  let ff := firstFailureValue hs w in
  outboundHeader key w (snd (handleRetryable msg err w))
  = publishedHeader key
      (if maxRetries this <=? rc
       then dlqMessage this msg err rc ff
       else retryMessage this msg err rc ff (calculateDelay rc)).
Proof.
  intros hs rc ff. unfold outboundHeader.
  rewrite handleRetryableError_firstCall. reflexivity.
Qed.

Lemma outboundHeader_nonRetryable key msg err w :
  let hs := headersOf msg in
  outboundHeader key w (snd (handleNonRetryable msg err w))
  = publishedHeader key
      (dlqMessage this msg err (retryCountOf hs) (firstFailureValue hs w)).
Proof.
  intros hs. unfold outboundHeader.
  rewrite handleNonRetryableError_firstCall. reflexivity.
Qed.

(** C3, amended.  For a message whose [x-retry-count] is absent, nullish or
    a safe integer (the header respects the source's cast, and the count is
    an integer between [-(2^53 - 1)] and [2^53 - 1]): the [x-retry-count]
    written on the outbound publish is the incoming count (0 when absent or
    nullish) plus exactly 1 on every retry republish of
    [handleRetryableError], that is while the incoming count is below
    [maxRetries]; when [handleRetryableError] dead-letters (count at or above
    [maxRetries]) and on the non-retryable path the incoming count is
    written unchanged. *)
Theorem retry_count_written msg err w :
  let hs := headersOf msg in
  let rc := retryCountOf hs in
  retryCountTyped hs = true ->
  isSafeInteger rc = true ->
  (rc < maxRetries this ->
   outboundHeader "x-retry-count" w (snd (handleRetryable msg err w))
   = Some (HNum (rc + 1))) /\
  (maxRetries this <= rc ->
   outboundHeader "x-retry-count" w (snd (handleRetryable msg err w))
   = Some (HNum rc)) /\
  outboundHeader "x-retry-count" w (snd (handleNonRetryable msg err w))
  = Some (HNum rc) /\
  (nullish (hs !! "x-retry-count") = true -> rc = 0).
Proof.
  intros hs rc _ _. repeat split.
  - intros Hlt. rewrite outboundHeader_retryable. fold hs rc.
    apply Z.leb_gt in Hlt. rewrite Hlt. apply lookup_retryMessage_count.
  - intros Hle. rewrite outboundHeader_retryable. fold hs rc.
    apply Z.leb_le in Hle. rewrite Hle. apply lookup_dlqMessage_count.
  - rewrite outboundHeader_nonRetryable. apply lookup_dlqMessage_count.
  - intros Hh. unfold rc, retryCountOf.
    destruct (hs !! "x-retry-count") as [[]|]; try discriminate Hh;
      reflexivity.
Qed.


Lemma lookup_retryMessage_frame key msg err rc ff d :
  key ∉ retryHeaderKeys ->
  publishedHeader key (retryMessage this msg err rc ff d) = headersOf msg !! key.
Proof.
  intros Hkey. unfold retryHeaderKeys in Hkey. simpl.
  rewrite !lookup_insert_ne; [reflexivity | | | |];
    intros <-; apply Hkey; set_solver.
Qed.

Lemma lookup_dlqMessage_frame key msg err rc ff :
  key ∉ retryHeaderKeys ->
  publishedHeader key (dlqMessage this msg err rc ff) = headersOf msg !! key.
Proof.
  intros Hkey. unfold retryHeaderKeys in Hkey. simpl.
  rewrite !lookup_insert_ne; [reflexivity | | |];
    intros <-; apply Hkey; set_solver.
Qed.

(** C10.  On the retry republish and on the dead-letter publish (by
    [handleRetryableError] and by [handleNonRetryableError]) every header of
    the incoming message whose key is none of [x-delay], [x-retry-count],
    [x-first-failure-timestamp], [x-last-error] is published with the same
    key and value, and the published payload is the incoming content. *)
Theorem headers_and_payload_preserved msg err w :
  (forall key v,
     key ∉ retryHeaderKeys ->
     headersOf msg !! key = Some v ->
     outboundHeader key w (snd (handleRetryable msg err w)) = Some v /\
     outboundHeader key w (snd (handleNonRetryable msg err w)) = Some v /\
     (forall rc ff d,
        publishedHeader key (retryMessage this msg err rc ff d) = Some v /\
        publishedHeader key (dlqMessage this msg err rc ff) = Some v)) /\
  outboundBody w (snd (handleRetryable msg err w)) = Some (content msg) /\
  outboundBody w (snd (handleNonRetryable msg err w)) = Some (content msg) /\
  (forall rc ff d,
     publishedBody (retryMessage this msg err rc ff d) = Some (content msg) /\
     publishedBody (dlqMessage this msg err rc ff) = Some (content msg)).
Proof.
  split; [| split; [| split]].
  - intros key v Hkey Hv. split; [| split].
    + rewrite outboundHeader_retryable.
      destruct (maxRetries this <=? retryCountOf (headersOf msg)).
      * rewrite lookup_dlqMessage_frame by exact Hkey. exact Hv.
      * rewrite lookup_retryMessage_frame by exact Hkey. exact Hv.
    + rewrite outboundHeader_nonRetryable.
      rewrite lookup_dlqMessage_frame by exact Hkey. exact Hv.
    + intros rc ff d. split.
      * rewrite lookup_retryMessage_frame by exact Hkey. exact Hv.
      * rewrite lookup_dlqMessage_frame by exact Hkey. exact Hv.
  - unfold outboundBody. rewrite handleRetryableError_firstCall.
    destruct (maxRetries this <=? retryCountOf (headersOf msg)); reflexivity.
  - unfold outboundBody. rewrite handleNonRetryableError_firstCall. reflexivity.
  - intros rc ff d. split; reflexivity.
Qed.

(** C9.  For every message content [publishAlert] builds the alert and hands
    it to the channel: its only channel call is the publish, to the
    notifications exchange under [notifications.dlq.{serviceName}], of the
    serialised record [{service, queue, error, retryCount, originalMessage,
    timestamp}], in which [originalMessage] is the decoded payload when
    [JSON.parse] accepts the payload and the payload as text when it throws.
    The method throws only when the channel's [publish] does. *)
Theorem publishAlert_always_publishes err rc msg w :
  let run := publishAlert JSON_parse JSON_stringify Buffer_toString Buffer_from
               this err rc msg w in
  let text := Buffer_toString (content msg) in
  exists alert,
    callsMade w (snd run)
    = [Publish NOTIFICATIONS_EXCHANGE ("notifications.dlq." +:+ serviceName this)
         (Buffer_from (JSON_stringify (alertJson alert)))
         {| persistent := true; contentType := "application/json";
            optHeaders := None |}] /\
    alertJson alert
    = JObj [("service", JStr (serviceName this));
            ("queue", JStr (queue this));
            ("error", JStr (message err));
            ("retryCount", JNum rc);
            ("originalMessage", originalMessage alert);
            ("timestamp", JStr (clock w (ticks w)))] /\
    originalMessage alert
    = match JSON_parse text with
      | inr decoded => decoded
      | inl _ => JStr text
      end /\
    fst run
    = match faults w (length (calls w)) with
      | None => Returned tt
      | Some e => Thrown e
      end.
Proof.
  intros run text.
  exists (alertFor err rc msg (clock w (ticks w))).
  unfold run, publishAlert, bind, nowISO, channelCall, log, modify, callsMade.
  simpl.
  destruct (faults w (length (calls w))) as [e|]; simpl;
    rewrite drop_app_length; repeat split; reflexivity.
Qed.

End DlqRuns.

(** ** The consumer loop *)

Section ConsumerRuns.

Import DlqService.
Import BaseConsumer.

Variable JSON_parse : string -> Error + Json.
Variable Buffer_toString : Buffer -> string.
Variable dlqHandler : IDlqHandler.
Variable processMessage : Json -> Message -> M World unit.

(** The delegation of [handleError]: the branch on the class of the error. *)
Lemma handleError_delegation_failed msg error w e w1 :
  (if isNonRetryable error
   then handleNonRetryableError dlqHandler msg error
   else handleRetryableError dlqHandler msg error)
    (addLog LError "Message processing failed" w) = (Thrown e, w1) ->
  handleError dlqHandler msg error w
  = channelCall (Nack msg false false)
      (addLog LError "DLQ handler failed, nacking message" w1).
Proof.
  intros Hh. unfold handleError.
  rewrite (bind_returned _ _ _ tt (addLog LError "Message processing failed" w))
    by reflexivity.
  rewrite (tryCatch_thrown _ _ _ _ _ Hh). reflexivity.
Qed.

(** When the delegation to the DLQ handler throws - on the non-retryable
    path as on the retryable one - [handleError] calls
    [nack(msg, false, false)] (no requeue) as its next and last channel
    call, and the handler's exception is not rethrown.  The [nack] stands in
    the [catch] block without a guard of its own: [handleError], and with it
    [handleMessage], returns normally when the channel accepts the [nack],
    and throws the error of the [nack] when the channel rejects it. *)
Lemma handleError_after_dlq_failure msg error w e w1 :
  let w0 := addLog LError "Message processing failed" w in
  (isNonRetryable error = true ->
   handleNonRetryableError dlqHandler msg error w0 = (Thrown e, w1)) ->
  (isNonRetryable error = false ->
   handleRetryableError dlqHandler msg error w0 = (Thrown e, w1)) ->
  let run := handleError dlqHandler msg error w in
  calls (snd run) = calls w1 ++ [Nack msg false false] /\
  fst run = match faults w1 (length (calls w1)) with
            | None => Returned tt
            | Some nackError => Thrown nackError
            end /\
  (forall w2,
     (let! content := parseContent JSON_parse Buffer_toString msg in
      processMessage content msg >>
      channelCall (Ack msg)) w2 = (Thrown error, w) ->
     handleMessage JSON_parse Buffer_toString dlqHandler processMessage
       (Some msg) w2 = run).
Proof.
  intros w0 Hnon Hret run.
  assert (Hrun : run = channelCall (Nack msg false false)
                         (addLog LError "DLQ handler failed, nacking message" w1)).
  { apply (handleError_delegation_failed msg error w e w1). fold w0.
    destruct (isNonRetryable error); [apply Hnon | apply Hret]; reflexivity. }
  rewrite Hrun. unfold channelCall. simpl.
  split; [| split].
  - destruct (faults w1 (length (calls w1))); reflexivity.
  - destruct (faults w1 (length (calls w1))); reflexivity.
  - intros w2 Hbody. unfold handleMessage.
    rewrite (tryCatch_thrown _ _ _ _ _ Hbody). exact Hrun.
Qed.

End ConsumerRuns.

(** ** The DLQ handler and the consumer loop on the sample values *)

Section DlqSamples.

Import DlqService.

Abbreviation sampleRetryable :=
  (handleRetryableError Sample.JSON_parse Sample.JSON_stringify
     Sample.Buffer_toString Sample.Buffer_from Sample.handler).
Abbreviation sampleNonRetryable :=
  (handleNonRetryableError Sample.JSON_parse Sample.JSON_stringify
     Sample.Buffer_toString Sample.Buffer_from Sample.handler).

(** The scenario of the specification: retry count 3, error "db timeout". *)
Example scenario_fourth_retry :
  let w' := snd (sampleRetryable (Sample.retriedMessage 3) Sample.dbTimeout
                   Sample.world) in
  outboundHeader "x-delay" Sample.world w' = Some (HNum 4000) /\
  outboundHeader "x-retry-count" Sample.world w' = Some (HNum 4) /\
  outboundHeader "x-last-error" Sample.world w' = Some (HStr "db timeout").
Proof. vm_compute. repeat split; reflexivity. Qed.

Lemma handleRetryableError_exhaustion_witness :
  retryCountTyped (headersOf (Sample.retriedMessage 20)) = true /\
  (exists r b o,
     firstCall Sample.world
       (snd (sampleRetryable (Sample.retriedMessage 20) Sample.dbTimeout
               Sample.world))
     = Some (Publish (exchange Sample.handler +:+ ".dlq") r b o)) /\
  (exists r b o,
     firstCall Sample.world
       (snd (sampleRetryable (Sample.retriedMessage 19) Sample.dbTimeout
               Sample.world))
     = Some (Publish (exchange Sample.handler +:+ ".delay") r b o)).
Proof.
  split; [vm_compute; reflexivity | split].
  - destruct (handleRetryableError_exhaustion Sample.JSON_parse
                Sample.JSON_stringify Sample.Buffer_toString Sample.Buffer_from
                Sample.handler (Sample.retriedMessage 20) Sample.dbTimeout
                Sample.world) as (_ & _ & _ & Hmax & _).
    + vm_compute; reflexivity.
    + apply Hmax. vm_compute; reflexivity.
  - destruct (handleRetryableError_exhaustion Sample.JSON_parse
                Sample.JSON_stringify Sample.Buffer_toString Sample.Buffer_from
                Sample.handler (Sample.retriedMessage 19) Sample.dbTimeout
                Sample.world) as (_ & _ & _ & _ & Hlast & _).
    + vm_compute; reflexivity.
    + apply Hlast. vm_compute; reflexivity.
Defined.

(** C3, the claim as stated fails: a message arriving with
    [x-retry-count = 20] at a handler with the default [maxRetries] is
    handled by [handleRetryableError], and the outbound (dead-letter) publish
    carries [x-retry-count = 20], not 21. *)
Lemma retry_count_unchanged_at_exhaustion :
  let w' := snd (sampleRetryable (Sample.retriedMessage 20) Sample.dbTimeout
                   Sample.world) in
  retryCountOf (headersOf (Sample.retriedMessage 20)) = 20 /\
  outboundHeader "x-retry-count" Sample.world w' = Some (HNum 20) /\
  outboundHeader "x-retry-count" Sample.world w' <> Some (HNum (20 + 1)).
Proof.
  vm_compute.
  split; [reflexivity | split; [reflexivity | intros H; discriminate H]].
Qed.

Lemma retry_count_written_witness :
  retryCountTyped (headersOf (Sample.retriedMessage 3)) = true /\
  isSafeInteger (retryCountOf (headersOf (Sample.retriedMessage 3))) = true /\
  outboundHeader "x-retry-count" Sample.world
    (snd (sampleRetryable (Sample.retriedMessage 3) Sample.dbTimeout
            Sample.world))
  = Some (HNum (3 + 1)) /\
  outboundHeader "x-retry-count" Sample.world
    (snd (sampleNonRetryable (Sample.retriedMessage 3) Sample.dbTimeout
            Sample.world))
  = Some (HNum 3).
Proof.
  split; [vm_compute; reflexivity |].
  split; [vm_compute; reflexivity |].
  destruct (retry_count_written Sample.JSON_parse Sample.JSON_stringify
              Sample.Buffer_toString Sample.Buffer_from Sample.handler
              (Sample.retriedMessage 3) Sample.dbTimeout Sample.world)
    as (Hretry & _ & Hnon & _).
  - vm_compute; reflexivity.
  - vm_compute; reflexivity.
  - split; [apply Hretry; vm_compute; reflexivity | exact Hnon].
Defined.


Lemma headers_and_payload_preserved_witness :
  ("x-trace-id" ∉ retryHeaderKeys) /\
  headersOf (Sample.retriedMessage 3) !! "x-trace-id" = Some (HStr "abc-123") /\
  outboundHeader "x-trace-id" Sample.world
    (snd (sampleRetryable (Sample.retriedMessage 3) Sample.dbTimeout
            Sample.world))
  = Some (HStr "abc-123") /\
  outboundHeader "x-trace-id" Sample.world
    (snd (sampleNonRetryable (Sample.retriedMessage 3) Sample.dbTimeout
            Sample.world))
  = Some (HStr "abc-123").
Proof.
  assert (Hkey : "x-trace-id" ∉ retryHeaderKeys).
  { unfold retryHeaderKeys. intros Hin.
    repeat (apply elem_of_cons in Hin as [Hin|Hin]; [discriminate Hin |]).
    apply elem_of_nil in Hin. exact Hin. }
  assert (Hv : headersOf (Sample.retriedMessage 3) !! "x-trace-id"
               = Some (HStr "abc-123")) by (vm_compute; reflexivity).
  destruct (headers_and_payload_preserved Sample.JSON_parse
              Sample.JSON_stringify Sample.Buffer_toString Sample.Buffer_from
              Sample.handler (Sample.retriedMessage 3) Sample.dbTimeout
              Sample.world) as (Hframe & _).
  destruct (Hframe "x-trace-id" (HStr "abc-123") Hkey Hv) as (H1 & H2 & _).
  repeat split; assumption.
Defined.

(** A payload that is not JSON: the alert carries it as text. *)
Example alert_for_malformed_payload :
  callsMade Sample.world
    (snd (publishAlert Sample.JSON_parse Sample.JSON_stringify
            Sample.Buffer_toString Sample.Buffer_from Sample.handler
            Sample.dbTimeout 20 (Sample.retriedMessage 20) Sample.world))
  = [Publish "notifications" "notifications.dlq.orders"
       (Sample.Buffer_from (Sample.JSON_stringify
          (JObj [("service", JStr "orders");
                 ("queue", JStr "orders.created");
                 ("error", JStr "db timeout");
                 ("retryCount", JNum 20);
                 ("originalMessage", JStr "not json");
                 ("timestamp", JStr "2024-06-01T12:00:00.000Z")])))
       {| persistent := true; contentType := "application/json";
          optHeaders := None |}].
Proof. vm_compute. reflexivity. Qed.

(** C8, the failing run.  A message is delivered, [processMessage] fails
    and the channel is closed: every call on it throws.  The retry republish
    of the DLQ handler throws, [handleError] catches that and calls
    [nack(msg, false, false)], which throws as well - and this error leaves
    [handleError] and [handleMessage]: the processing loop propagates a
    failure, and no acknowledgement of either kind was accepted. *)
Theorem nack_failure_propagates :
  let msg := Sample.freshMessage in
  let w := Sample.brokenWorld 99 in
  let failure := {| name := RetryableError; message := "timeout";
                    code := Some "ETIMEOUT"; context := None |} in
  let run := BaseConsumer.handleMessage Sample.JSON_parse
               Sample.Buffer_toString Sample.dlqHandler Sample.processMessage
               (Some msg) w in
  Sample.JSON_parse (Sample.Buffer_toString (content msg)) = inr (JObj []) /\
  Sample.processMessage (JObj []) msg w = (Thrown failure, w) /\
  fst (BaseConsumer.handleRetryableError Sample.dlqHandler msg failure
         (addLog LError "Message processing failed" w))
  = Thrown (plainError "Channel closed") /\
  fst run = Thrown (plainError "Channel closed") /\
  fst run <> Returned tt /\
  calls (snd run)
  = [retryMessage Sample.handler msg failure 0
       (HStr "2024-06-01T12:00:00.000Z") 0;
     Nack msg false false] /\
  (forall k, (k < 2)%nat -> faults w k = Some (plainError "Channel closed")).
Proof.
  vm_compute.
  repeat (split; [reflexivity |]).
  split; [intros H; discriminate H |].
  split; [reflexivity |].
  intros k Hk. destruct k as [|[|k]]; [reflexivity | reflexivity |].
  exfalso. apply Nat.leb_le in Hk. discriminate Hk.
Qed.

Lemma handleError_after_dlq_failure_sample :
  let msg := Sample.retriedMessage 3 in
  let run := BaseConsumer.handleError Sample.dlqHandler msg Sample.dbTimeout
               (Sample.brokenWorld 1) in
  BaseConsumer.isNonRetryable Sample.dbTimeout = false /\
  fst (BaseConsumer.handleRetryableError Sample.dlqHandler msg Sample.dbTimeout
         (addLog LError "Message processing failed" (Sample.brokenWorld 1)))
  = Thrown (plainError "Channel closed") /\
  fst run = Returned tt /\
  last (calls (snd run)) = Some (Nack msg false false).
Proof.
  intros msg run.
  split; [reflexivity | split; [vm_compute; reflexivity |]].
  destruct (handleError_after_dlq_failure Sample.JSON_parse
              Sample.Buffer_toString Sample.dlqHandler Sample.processMessage
              msg Sample.dbTimeout (Sample.brokenWorld 1)
              (plainError "Channel closed")
              (snd (BaseConsumer.handleRetryableError Sample.dlqHandler msg
                      Sample.dbTimeout
                      (addLog LError "Message processing failed"
                         (Sample.brokenWorld 1)))))
    as (Hcalls & Hout & _).
  - intros H; discriminate H.
  - intros _. vm_compute; reflexivity.
  - fold run in Hcalls, Hout. split.
    + rewrite Hout. vm_compute; reflexivity.
    + rewrite Hcalls. apply last_snoc.
Defined.

End DlqSamples.

(** ** Runs of the connection manager *)

Section ConnectionRuns.

Import ConnectionManager.

Variable this : Config.

(** One turn of the loop: success, last failure, or failure followed by a
    sleep. *)
Lemma connectAttempt_run attempt m n :
  exists added m1 n1 o,
    connectAttempt this attempt (m, n) = (o, (m1, n1)) /\
    trace n1 = trace n ++ added /\
    dialed n1 = S (dialed n) /\
    dial n1 = dial n /\
    openChannel n1 = openChannel n /\
    eventHandlers m1 = eventHandlers m /\
    match attemptResult n (dialed n) with
    | inr (c, ch) =>
        o = Returned true /\
        timing added = [EvConnect (url this)] /\
        currentState m1 = connected /\
        connection m1 = Some c /\
        channel m1 = Some ch
    | inl e =>
        if attempt =? reconnectAttempts this then
          o = Thrown (connectionError this e) /\
          timing added = [EvConnect (url this)] /\
          currentState m1 = disconnected
        else
          o = Returned false /\
          timing added = [EvConnect (url this);
                          EvSleep (calculateBackoff this attempt)]
    end.
Proof.
  unfold connectAttempt, attemptResult, tryCatch, bind, amqplib_connect,
    createChannel, setConnection, setChannel, setState,
    setupConnectionHandlers, log, sleep, event, modify, gets, ret, throw.
  destruct (dial n (dialed n)) as [e|c] eqn:Hdial; simpl;
    [| destruct (openChannel n c) as [e|ch] eqn:Hopen; simpl];
    try (destruct (attempt =? reconnectAttempts this); simpl);
    do 4 eexists; (split; [reflexivity |]); unfold record; simpl;
    rewrite <- ?app_assoc; simpl; repeat split; reflexivity.
Qed.

Lemma attemptResult_ext n n' k :
  dial n' = dial n -> openChannel n' = openChannel n ->
  attemptResult n' k = attemptResult n k.
Proof. intros Hd Ho. unfold attemptResult. rewrite Hd, Ho. reflexivity. Qed.

Lemma timing_app l1 l2 : timing (l1 ++ l2) = timing l1 ++ timing l2.
Proof. apply List.filter_app. Qed.

Lemma connectLoop_S turns attempt s :
  connectLoop this (S turns) attempt s
  = (let! done := connectAttempt this attempt in
     if done : bool then ret tt else connectLoop this turns (attempt + 1)) s.
Proof. reflexivity. Qed.

(** The loop of [connect] with [S turns] turns left, the last of them being
    the turn [reconnectAttempts]. *)
Lemma connectLoop_run turns : forall attempt m n o m' n',
  reconnectAttempts this = attempt + Z.of_nat turns ->
  connectLoop this (S turns) attempt (m, n) = (o, (m', n')) ->
  exists failed added,
    (failed <= turns)%nat /\
    trace n' = trace n ++ added /\
    timing added = schedule (url this) (reconnectDelayMs this) attempt failed /\
    dialed n' = (dialed n + S failed)%nat /\
    dial n' = dial n /\
    openChannel n' = openChannel n /\
    eventHandlers m' = eventHandlers m /\
    (forall i, (i < failed)%nat ->
       exists e, attemptResult n (dialed n + i) = inl e) /\
    match o with
    | Returned _ =>
        exists c ch,
          attemptResult n (dialed n + failed) = inr (c, ch) /\
          currentState m' = connected /\
          connection m' = Some c /\
          channel m' = Some ch
    | Thrown e =>
        failed = turns /\
        currentState m' = disconnected /\
        exists lastError,
          attemptResult n (dialed n + failed) = inl lastError /\
          e = connectionError this lastError
    end.
Proof.
  induction turns as [|turns IH]; intros attempt m n o m' n' HR Hloop;
    rewrite connectLoop_S in Hloop; unfold bind in Hloop;
    destruct (connectAttempt_run attempt m n)
      as (added & m1 & n1 & o1 & Hrun & Htrace & Hdialed & Hdial & Hopen
          & Hhandlers & Hcase);
    rewrite Hrun in Hloop;
    destruct (attemptResult n (dialed n)) as [e0|[c ch]] eqn:Hres.
  - (* last turn, failure *)
    destruct (Z.eqb_spec attempt (reconnectAttempts this)) as [_|Hne]; [| lia].
    destruct Hcase as (-> & Htiming & Hstate).
    injection Hloop as <- <- <-.
    exists 0%nat, added. rewrite Nat.add_0_r.
    repeat split; try assumption; try lia.
    exists e0. split; [assumption | reflexivity].
  - (* last turn, success *)
    destruct Hcase as (-> & Htiming & Hstate & Hconn & Hchan).
    injection Hloop as <- <- <-.
    exists 0%nat, added. rewrite Nat.add_0_r.
    repeat split; try assumption; try lia.
    exists c, ch. repeat split; assumption.
  - (* failure, more turns left *)
    destruct (Z.eqb_spec attempt (reconnectAttempts this)) as [Heq|_]; [lia |].
    destruct Hcase as (-> & Htiming).
    destruct (IH (attempt + 1) m1 n1 o m' n' ltac:(lia) Hloop)
      as (failed & added' & Hle & Htrace' & Htiming' & Hdialed' & Hdial'
          & Hopen' & Hhandlers' & Hfailed & Hend).
    exists (S failed), (added ++ added').
    assert (Hsame : forall k, attemptResult n1 k = attemptResult n k)
      by (intros k; apply attemptResult_ext; assumption).
    assert (Hidx : forall k, (dialed n1 + k = dialed n + S k)%nat)
      by (intros k; lia).
    repeat split.
    + lia.
    + rewrite Htrace', Htrace. symmetry. apply app_assoc.
    + rewrite timing_app, Htiming, Htiming'. reflexivity.
    + lia.
    + congruence.
    + congruence.
    + congruence.
    + intros [|i] Hi.
      * exists e0. rewrite Nat.add_0_r. exact Hres.
      * destruct (Hfailed i ltac:(lia)) as [e He].
        exists e. rewrite <- Hidx, <- Hsame. exact He.
    + rewrite <- Hidx, <- Hsame.
      destruct o as [u|e]; [exact Hend |].
      destruct Hend as (-> & Hrest). split; [reflexivity | exact Hrest].
  - (* success *)
    destruct Hcase as (-> & Htiming & Hstate & Hconn & Hchan).
    injection Hloop as <- <- <-.
    exists 0%nat, added. rewrite Nat.add_0_r.
    repeat split; try assumption; try lia.
    exists c, ch. repeat split; assumption.
Qed.

Lemma connect_run m n o m' n' :
  0 <= reconnectAttempts this ->
  connect this (m, n) = (o, (m', n')) ->
  exists failed added,
    Z.of_nat failed <= reconnectAttempts this /\
    trace n' = trace n ++ added /\
    timing added = schedule (url this) (reconnectDelayMs this) 0 failed /\
    dialed n' = (dialed n + S failed)%nat /\
    eventHandlers m' = eventHandlers m /\
    (forall i, (i < failed)%nat ->
       exists e, attemptResult n (dialed n + i) = inl e) /\
    match o with
    | Returned _ =>
        exists c ch,
          attemptResult n (dialed n + failed) = inr (c, ch) /\
          currentState m' = connected /\
          connection m' = Some c /\
          channel m' = Some ch
    | Thrown e =>
        Z.of_nat failed = reconnectAttempts this /\
        currentState m' = disconnected /\
        exists lastError,
          attemptResult n (dialed n + failed) = inl lastError /\
          e = connectionError this lastError
    end.
Proof.
  intros HR Hrun. unfold connect, connectBegin in Hrun.
  replace (Z.to_nat (reconnectAttempts this + 1))
    with (S (Z.to_nat (reconnectAttempts this))) in Hrun by lia.
  unfold bind at 1 2 in Hrun. simpl in Hrun.
  apply connectLoop_run in Hrun; [| lia].
  destruct Hrun as (failed & added & Hle & Htrace & Htiming & Hdialed & Hdial
                    & Hopen & Hhandlers & Hfailed & Hend).
  simpl in *.
  exists failed, (EvLog Info "Connecting to RabbitMQ" :: added).
  repeat split; try assumption; try lia.
  - rewrite Htrace, <- app_assoc. reflexivity.
  - destruct o as [u|e]; [exact Hend |].
    destruct Hend as (-> & Hrest). split; [lia | exact Hrest].
Qed.

(** C5, amended.  With an integer [reconnectAttempts] from 0 to 970 and a
    safe integer [reconnectDelayMs] (the range [backoffExact], on which the
    source computes the delays exactly), [connect] makes between 1 and
    [reconnectAttempts + 1] connection attempts (6 with the default of 5
    retries); the attempts and the calls of [sleep] are, in this order,
    attempt 0, [sleep(reconnectDelayMs * 2^0)], attempt 1,
    [sleep(reconnectDelayMs * 2^1)], ... with no cap on the delay and no
    sleep after the last attempt made; when every attempt fails the state is
    [disconnected] and a [ConnectionError] with the message of the last
    underlying error as context is thrown; at the first successful attempt
    the state becomes [connected] and no further attempt is made. *)
Theorem connect_bounded_backoff m n :
  0 <= reconnectAttempts this ->
  backoffExact this = true ->
  let run := connect this (m, n) in
  let m' := fst (snd run) in
  let n' := snd (snd run) in
  exists failed added,
    dialed n' = (dialed n + S failed)%nat /\
    1 <= Z.of_nat (S failed) <= reconnectAttempts this + 1 /\
    trace n' = trace n ++ added /\
    timing added = schedule (url this) (reconnectDelayMs this) 0 failed /\
    ((forall i, Z.of_nat i <= reconnectAttempts this ->
        exists e, attemptResult n (dialed n + i) = inl e) ->
     exists lastError,
       attemptResult n (dialed n + Z.to_nat (reconnectAttempts this))
       = inl lastError /\
       fst run = Thrown (connectionError this lastError) /\
       name (connectionError this lastError) = ConnectionError /\
       context (connectionError this lastError)
       = Some [("lastError", message lastError)] /\
       currentState m' = disconnected /\
       Z.of_nat (S failed) = reconnectAttempts this + 1) /\
    (forall k c ch,
       Z.of_nat k <= reconnectAttempts this ->
       (forall i, (i < k)%nat ->
          exists e, attemptResult n (dialed n + i) = inl e) ->
       attemptResult n (dialed n + k) = inr (c, ch) ->
       fst run = Returned tt /\
       currentState m' = connected /\
       connection m' = Some c /\
       channel m' = Some ch /\
       failed = k) /\
    (forall options,
       optReconnectAttempts options = None ->
       reconnectAttempts (newConfig options) = 5).
Proof.
  intros HR _ run m' n'.
  destruct (connect this (m, n)) as [o [m1 n1]] eqn:Hrun.
  unfold run, m', n'. simpl. clear run m' n'.
  destruct (connect_run m n o m1 n1 HR Hrun)
    as (failed & added & Hle & Htrace & Htiming & Hdialed & _ & Hfailed & Hend).
  exists failed, added.
  split; [exact Hdialed |]. split; [lia |].
  split; [exact Htrace |]. split; [exact Htiming |].
  split; [| split].
  - intros Hall. destruct o as [u|e].
    + destruct Hend as (c & ch & Hres & _).
      destruct (Hall failed Hle) as [e He]. congruence.
    + destruct Hend as (Hlast & Hstate & lastError & Hres & ->).
      exists lastError.
      replace (Z.to_nat (reconnectAttempts this)) with failed by lia.
      repeat split; try assumption; try reflexivity. lia.
  - intros k c ch Hk Hbefore Hres.
    assert (Hfk : failed = k).
    { destruct (lt_eq_lt_dec failed k) as [[Hlt|Heq]|Hgt]; [| exact Heq |].
      - exfalso. destruct (Hbefore failed Hlt) as [e He].
        destruct o as [u|e'].
        + destruct Hend as (c' & ch' & Hres' & _). congruence.
        + destruct Hend as (Hlast & _). lia.
      - exfalso. destruct (Hfailed k Hgt) as [e He]. congruence. }
    subst k. destruct o as [[]|e].
    + destruct Hend as (c' & ch' & Hres' & Hstate & Hconn & Hchan).
      rewrite Hres in Hres'. injection Hres' as <- <-.
      repeat split; assumption.
    + exfalso. destruct Hend as (_ & _ & lastError & Hres' & _). congruence.
  - intros options Hopt. unfold newConfig. simpl. rewrite Hopt. reflexivity.
Qed.

(** *** [getChannel] and [close] *)

Lemma getChannel_run m n :
  getChannel (m, n)
  = match channel m with
    | Some ch => (Returned ch, (m, n))
    | None => (Thrown noChannelError, (m, n))
    end.
Proof. unfold getChannel, bind, gets. simpl. destruct (channel m); reflexivity. Qed.

(** [close] leaves the state [disconnected] on every exit path. *)
Lemma close_disconnected s : currentState (fst (snd (close s))) = disconnected.
Proof.
  destruct s as [m n].
  unfold close, tryFinally, bind, gets, log, event, modify, channel_close,
    connection_close, setChannel, setConnection, setState, ret. simpl.
  destruct (channel m) as [ch|]; simpl;
    [destruct (channelCloses n ch); simpl |];
    try (destruct (connection m) as [c|]; simpl;
         [destruct (connectionCloses n c); simpl |]);
    reflexivity.
Qed.

(** The channel reference is cleared unless [channel.close()] throws. *)
Lemma close_clears_channel m n :
  (forall ch, channel m = Some ch -> channelCloses n ch = None) ->
  channel (fst (snd (close (m, n)))) = None.
Proof.
  intros Hok.
  unfold close, tryFinally, bind, gets, log, event, modify, channel_close,
    connection_close, setChannel, setConnection, setState, ret. simpl.
  destruct (channel m) as [ch|] eqn:Hch; simpl.
  - rewrite (Hok ch eq_refl). simpl.
    destruct (connection m) as [c|]; simpl;
      [destruct (connectionCloses n c); simpl |]; reflexivity.
  - destruct (connection m) as [c|]; simpl;
      [destruct (connectionCloses n c); simpl |]; assumption.
Qed.

(** When [channel.close()] throws, [close] throws the same error and keeps
    both references. *)
Lemma close_channel_failure m n ch e :
  channel m = Some ch ->
  channelCloses n ch = Some e ->
  fst (close (m, n)) = Thrown e /\
  channel (fst (snd (close (m, n)))) = Some ch /\
  connection (fst (snd (close (m, n)))) = connection m.
Proof.
  intros Hch He.
  unfold close, tryFinally, bind, gets, log, event, modify, channel_close,
    connection_close, setChannel, setConnection, setState, ret. simpl.
  rewrite Hch. simpl. rewrite He. simpl. repeat split; assumption.
Qed.

(** C6, amended.  [getChannel] returns the stored channel when the
    channel reference is set and throws a [ConnectionError] (code
    [ENOCHANNEL]) exactly when it is null, leaving the manager as it was.
    The reference is null in a manager that never connected, after a
    [close] in which [channel.close()] did not throw (whether or not
    [connection.close()] threw), and after the ["close"] listener has handled
    an unexpected close; in all three cases the state is [disconnected] (or
    already [connecting] again) and [getChannel] throws. *)
Theorem getChannel_guards_on_channel m n :
  getChannel (m, n)
  = match channel m with
    | Some ch => (Returned ch, (m, n))
    | None => (Thrown noChannelError, (m, n))
    end /\
  name noChannelError = ConnectionError /\
  code noChannelError = Some "ENOCHANNEL" /\
  (fst (getChannel (m, n)) = Thrown noChannelError <-> channel m = None) /\
  fst (getChannel (newManager, n)) = Thrown noChannelError /\
  ((forall ch, channel m = Some ch -> channelCloses n ch = None) ->
   currentState (fst (snd (close (m, n)))) = disconnected /\
   fst (getChannel (snd (close (m, n)))) = Thrown noChannelError) /\
  (currentState m <> disconnected ->
   fst (getChannel (snd (onConnectionCloseBegin (m, n))))
   = Thrown noChannelError).
Proof.
  split; [apply getChannel_run |].
  split; [reflexivity |]. split; [reflexivity |].
  split; [| split; [reflexivity | split]].
  - rewrite getChannel_run. destruct (channel m) as [ch|]; simpl.
    + split; intros H; discriminate H.
    + split; reflexivity.
  - intros Hok. split; [apply close_disconnected |].
    pose proof (close_clears_channel m n Hok) as Hch.
    destruct (close (m, n)) as [o [m1 n1]]. simpl in *.
    rewrite getChannel_run, Hch. reflexivity.
  - intros Hst.
    unfold onConnectionCloseBegin, reconnectBegin, connectBegin, bind, gets,
      log, event, modify, setChannel, setConnection, setState, ret. simpl.
    destruct (currentState m); [contradiction | reflexivity | reflexivity].
Qed.

(** *** The ["close"] listener *)

Lemma onConnectionClose_disconnected m n :
  currentState m = disconnected ->
  onConnectionClose this (m, n) = (Returned tt, (m, n)).
Proof.
  intros Hst. unfold onConnectionClose, bind, gets. simpl. rewrite Hst.
  reflexivity.
Qed.

Lemma onConnectionClose_unexpected m n :
  currentState m <> disconnected ->
  onConnectionClose this (m, n)
  = reconnect this
      (cleared m, record (EvLog Warn "RabbitMQ connection closed unexpectedly") n).
Proof.
  intros Hst. unfold onConnectionClose, bind, gets. simpl.
  destruct (currentState m); [contradiction | reflexivity | reflexivity].
Qed.

(** A notification that arrives once [close] has returned or thrown does
    nothing at all. *)
Lemma notification_after_close c s :
  connectionEmitsClose this c (snd (close s)) = (Returned tt, snd (close s)).
Proof.
  pose proof (close_disconnected s) as Hst.
  destruct (close s) as [o [m n]]. simpl in *.
  unfold connectionEmitsClose, bind, gets. simpl.
  destruct (hasListener c n); [| reflexivity].
  apply onConnectionClose_disconnected. exact Hst.
Qed.


Lemma hasListener_record c ev n :
  hasListener c n = true -> hasListener c (record ev n) = true.
Proof.
  unfold hasListener, record. simpl. intros H.
  rewrite existsb_app, H. reflexivity.
Qed.

(** While [close] is suspended at its last [await] the state is what it was
    before the call: a ["close"] event delivered then, to a manager that was
    not [disconnected], starts a reconnection. *)
Lemma notification_during_close m n c :
  currentState m <> disconnected ->
  hasListener c n = true ->
  exists awaited s2 s3,
    closeBegin (m, n) = (Returned awaited, s2) /\
    connectionEmitsCloseBegin c s2 = (Returned true, s3) /\
    currentState (fst s3) = connecting /\
    connection (fst s3) = None /\
    channel (fst s3) = None.
Proof.
  intros Hst Hl.
  assert (Hbegin : exists awaited m2 n2,
            closeBegin (m, n) = (Returned awaited, (m2, n2)) /\
            currentState m2 = currentState m /\
            hasListener c n2 = true).
  { unfold closeBegin, settle, bind, gets, log, event, modify, channel_close,
      connection_close, setChannel, ret. simpl.
    destruct (channel m) as [ch|]; simpl;
      [destruct (channelCloses n ch); simpl |];
      try (destruct (connection m) as [c'|]; simpl;
           [destruct (connectionCloses n c'); simpl |]);
      do 3 eexists; (split; [reflexivity |]); simpl;
      (split; [reflexivity |]); repeat apply hasListener_record; exact Hl. }
  destruct Hbegin as (awaited & m2 & n2 & Hrun & Hst2 & Hl2).
  exists awaited, (m2, n2).
  unfold connectionEmitsCloseBegin, onConnectionCloseBegin, reconnectBegin,
    connectBegin, bind, gets, log, event, modify, setChannel, setConnection,
    setState, ret. simpl. rewrite Hl2.
  rewrite <- Hst2 in Hst.
  destruct (currentState m2); [contradiction | |];
    eexists; repeat split; try reflexivity; exact Hrun.
Qed.

(** *** The cuts are cuts of the methods *)

Lemma reconnect_cut s :
  reconnect this s = (reconnectBegin >> reconnectResume this) s.
Proof.
  destruct s as [m n].
  unfold reconnect, reconnectBegin, reconnectResume, connect, connectBegin,
    tryCatch, bind, log, event, modify, setState. simpl.
  destruct (connectLoop this _ 0 _) as [[u|e] [m1 n1]]; reflexivity.
Qed.

Lemma onConnectionClose_cut s :
  onConnectionClose this s
  = (let! started := onConnectionCloseBegin in
     if started : bool then reconnectResume this else ret tt) s.
Proof.
  destruct s as [m n].
  unfold onConnectionClose, onConnectionCloseBegin, bind, gets, log, event,
    modify, setChannel, setConnection, setState, ret. simpl.
  destruct (currentState m); simpl; [reflexivity | |];
    rewrite reconnect_cut; unfold bind, reconnectBegin, connectBegin, bind,
      log, event, modify, setState; simpl; reflexivity.
Qed.

Lemma close_cut s :
  close s = (let! awaited := closeBegin in closeResume awaited) s.
Proof.
  destruct s as [m n].
  unfold close, closeBegin, closeResume, tryFinally, settle, bind, gets, log,
    event, modify, channel_close, connection_close, setChannel,
    setConnection, setState, ret, throw. simpl.
  destruct (channel m) as [ch|]; simpl;
    [destruct (channelCloses n ch); simpl |];
    try (destruct (connection m) as [c|] eqn:Hconn; simpl;
         [destruct (connectionCloses n c); simpl |]);
    rewrite <- ?Hconn; reflexivity.
Qed.

End ConnectionRuns.

(** ** The connection manager on the sample values *)

Section ConnectionSamples.

Import ConnectionManager.

(** Two refused attempts, then success, with 3 retries allowed and a base
    delay of 100 ms. *)
Example connect_third_attempt :
  let run := connect (Sample.config 3) (Sample.fresh 2 false) in
  fst run = Returned tt /\
  currentState (fst (snd run)) = connected /\
  timing (trace (snd (snd run)))
  = [EvConnect "amqp://localhost"; EvSleep 100;
     EvConnect "amqp://localhost"; EvSleep 200;
     EvConnect "amqp://localhost"].
Proof. vm_compute. repeat split; reflexivity. Qed.

(** Every attempt refused, with 2 retries allowed. *)
Example connect_exhausted :
  let run := connect (Sample.config 2) (Sample.fresh 5 false) in
  fst run
  = Thrown {| name := ConnectionError;
              message := "Failed to connect after 3 attempts";
              code := Some "ECONNFAILED";
              context := Some [("lastError", "refused")] |} /\
  currentState (fst (snd run)) = disconnected /\
  dialed (snd (snd run)) = 3%nat.
Proof. vm_compute. repeat split; reflexivity. Qed.

(** C5, the claim as stated fails: with [reconnectAttempts = -1] the loop
    of [connect] has no turn.  On a network that refuses every connection
    no attempt is made, no [ConnectionError] is thrown and the state is not
    set to [disconnected]: [connect] returns, the state left at
    [connecting]. *)
Lemma connect_negative_attempts_returns :
  let run := connect (Sample.config (-1)) (Sample.fresh 5 false) in
  reconnectAttempts (Sample.config (-1)) = -1 /\
  dialed (snd (snd run)) = dialed (snd (Sample.fresh 5 false)) /\
  fst run = Returned tt /\
  ~ (exists e, fst run = Thrown e) /\
  currentState (fst (snd run)) = connecting /\
  currentState (fst (snd run)) <> disconnected.
Proof.
  vm_compute.
  split; [reflexivity |]. split; [reflexivity |]. split; [reflexivity |].
  split; [intros [e H]; discriminate H |].
  split; [reflexivity | intros H; discriminate H].
Qed.

Lemma connect_bounded_backoff_witness :
  0 <= reconnectAttempts (Sample.config 3) /\
  backoffExact (Sample.config 3) = true /\
  exists failed added,
    dialed (snd (snd (connect (Sample.config 3) (Sample.fresh 2 false))))
    = (dialed (snd (Sample.fresh 2 false)) + S failed)%nat /\
    1 <= Z.of_nat (S failed) <= reconnectAttempts (Sample.config 3) + 1 /\
    trace (snd (snd (connect (Sample.config 3) (Sample.fresh 2 false))))
    = trace (snd (Sample.fresh 2 false)) ++ added /\
    timing added
    = schedule (url (Sample.config 3)) (reconnectDelayMs (Sample.config 3))
        0 failed.
Proof.
  split; [vm_compute; intros H; discriminate H |].
  split; [vm_compute; reflexivity |].
  destruct (connect_bounded_backoff (Sample.config 3)
              (fst (Sample.fresh 2 false)) (snd (Sample.fresh 2 false)))
    as (failed & added & H1 & H2 & H3 & H4 & _).
  - vm_compute; intros H; discriminate H.
  - vm_compute; reflexivity.
  - exists failed, added. repeat split; try assumption; apply H2.
Defined.

(** C6, the claim as stated fails: when [channel.close()] throws inside
    [close], the state is [disconnected] on return and [getChannel] still
    returns the channel instead of throwing. *)
Lemma getChannel_after_failed_close :
  let connected := snd (connect (Sample.config 0) (Sample.fresh 0 true)) in
  let closing := close connected in
  channel (fst connected) = Some 1%nat /\
  fst closing = Thrown (plainError "close failed") /\
  currentState (fst (snd closing)) = disconnected /\
  fst (getChannel (snd closing)) = Returned 1%nat.
Proof. vm_compute. repeat split; reflexivity. Qed.

Lemma getChannel_guards_on_channel_witness :
  let connected := snd (connect (Sample.config 0) (Sample.fresh 0 false)) in
  (forall ch, channel (fst connected) = Some ch ->
              channelCloses (snd connected) ch = None) /\
  currentState (fst (snd (close connected))) = disconnected /\
  fst (getChannel (snd (close connected))) = Thrown noChannelError.
Proof.
  intros connected.
  assert (Hok : forall ch, channel (fst connected) = Some ch ->
                           channelCloses (snd connected) ch = None).
  { intros ch _. vm_compute. reflexivity. }
  split; [exact Hok |].
  destruct (getChannel_guards_on_channel (fst connected) (snd connected))
    as (_ & _ & _ & _ & _ & Hclose & _).
  destruct connected as [m n]. exact (Hclose Hok).
Defined.

(** C7, the defect.  A connected manager, [close()] is called, and the
    connection emits ["close"] when the closing handshake is over, that is
    while [close] is still suspended at [await this.connection.close()] and
    the state is still [connected]: the listener takes the close for an
    unexpected one, clears the references and starts a reconnection, which
    succeeds.  After the explicit [close()] the manager is connected again
    (connection 2, channel 2) and the ["reconnected"] callback has run. *)
Theorem explicit_close_triggers_reconnect :
  let cfg := Sample.config 0 in
  let connected := snd (connect cfg (Sample.fresh 0 false)) in
  let run := closeWithNotification cfg 1%nat connected in
  currentState (fst connected) = ConnectionManager.connected /\
  connection (fst connected) = Some 1%nat /\
  hasListener 1%nat (snd connected) = true /\
  fst run = Returned true /\
  currentState (fst (snd run)) = ConnectionManager.connected /\
  connection (fst (snd run)) = Some 2%nat /\
  channel (fst (snd run)) = Some 2%nat /\
  dialed (snd (snd run)) = 2%nat /\
  emitted "reconnected" 0 (snd (snd run)) = [7%nat] /\
  In (EvLog Warn "RabbitMQ connection closed unexpectedly")
     (trace (snd (snd run))).
Proof.
  vm_compute. repeat split; try reflexivity.
  do 8 right. left. reflexivity.
Qed.

End ConnectionSamples.

(** * Further properties *)

(** ** The retry delay is monotone and bounded *)

Section DelayBounds.

Import DlqService.

(** X1.  For retry indices [0 <= r <= r'] the delay is non-negative, never
    decreases with the index and never exceeds the cap of 16 hours; below
    the cap each retry doubles the delay of the one before. *)
Theorem calculateDelay_monotone_bounded (r r' : Z) :
  0 <= r <= r' ->
  0 <= calculateDelay r /\
  calculateDelay r <= calculateDelay r' /\
  calculateDelay r' <= MAX_DELAY_MS /\
  (1 <= r <= 15 -> calculateDelay (r + 1) = 2 * calculateDelay r).
Proof.
  intros [Hr Hrr'].
  assert (Hcap : forall x, calculateDelay x <= MAX_DELAY_MS).
  { intros x. unfold calculateDelay.
    destruct (x =? 0); [unfold MAX_DELAY_MS; lia | apply Z.le_min_r]. }
  assert (Hnonneg : forall x, 0 <= calculateDelay x).
  { intros x. unfold calculateDelay.
    destruct (x =? 0); [lia |].
    apply Z.min_glb; [| unfold MAX_DELAY_MS; lia].
    pose proof (Z.pow_nonneg 2 (x - 1)). lia. }
  repeat split.
  - apply Hnonneg.
  - destruct (Z.eq_dec r 0) as [->|Hr0]; [apply Hnonneg |].
    rewrite !calculateDelay_pos by lia.
    apply Z.min_le_compat_r.
    assert (2 ^ (r - 1) <= 2 ^ (r' - 1)) by (apply Z.pow_le_mono_r; lia).
    lia.
  - apply Hcap.
  - intros Hlow.
    rewrite !calculateDelay_doubling by lia.
    replace (r + 1 - 1) with (Z.succ (r - 1)) by lia.
    rewrite Z.pow_succ_r by lia. lia.
Qed.

Lemma calculateDelay_monotone_bounded_witness :
  0 <= 4 <= 18 /\
  calculateDelay 4 <= calculateDelay 18 /\
  calculateDelay (4 + 1) = 2 * calculateDelay 4.
Proof.
  split; [lia |].
  destruct (calculateDelay_monotone_bounded 4 18 ltac:(lia))
    as (_ & Hmono & _ & Hdouble).
  split; [exact Hmono | apply Hdouble; lia].
Defined.

End DelayBounds.

(** ** The DLQ handler on every broker *)

Section DlqPlansRuns.

Import DlqService.
Import DlqPlans.

Variable JSON_parse : string -> Error + Json.
Variable JSON_stringify : Json -> string.
Variable Buffer_toString : Buffer -> string.
Variable Buffer_from : string -> Buffer.
Variable this : DlqHandler.

Abbreviation handleRetryable' :=
  (handleRetryableError JSON_parse JSON_stringify Buffer_toString Buffer_from this).
Abbreviation handleNonRetryable' :=
  (handleNonRetryableError JSON_parse JSON_stringify Buffer_toString Buffer_from this).
Abbreviation planOf :=
  (handlerPlan JSON_parse JSON_stringify Buffer_toString Buffer_from this).

Lemma callsMade_app w w' l :
  calls w' = calls w ++ l -> callsMade w w' = l.
Proof. intros H. unfold callsMade. rewrite H. apply drop_app_length. Qed.

Ltac first_fault :=
  simpl; rewrite ?length_app; simpl; rewrite ?Nat.add_1_r;
  match goal with
  | |- context [faults ?w ?k] => destruct (faults w k) eqn:?
  end; simpl.

Ltac made := apply callsMade_app; simpl; rewrite <- ?app_assoc; reflexivity.

Lemma setup_follows_plan w :
  callsMade w (snd (setup this w))
  = attempted (faults w) (length (calls w)) (setupPlan this) /\
  fst (setup this w)
  = planOutcome (faults w) (length (calls w)) (setupPlan this) /\
  faults (snd (setup this w)) = faults w.
Proof.
  unfold setup, setupPlan, bind, channelCall, log, modify.
  do 5 (first_fault; [split; [made | split; reflexivity] |]).
  split; [made | split; reflexivity].
Qed.

Lemma attempted_healthy f k plan :
  (forall i, f i = None) ->
  attempted f k plan = plan /\ planOutcome f k plan = Returned tt.
Proof.
  intros Hf. revert k. induction plan as [|c plan IH]; intros k; simpl.
  - split; reflexivity.
  - rewrite Hf. destruct (IH (S k)) as [-> ->]. split; reflexivity.
Qed.

Lemma attempted_returned f k plan :
  planOutcome f k plan = Returned tt -> attempted f k plan = plan.
Proof.
  revert k. induction plan as [|c plan IH]; intros k; simpl; [reflexivity |].
  destruct (f k); [discriminate |]. intros H. f_equal. apply IH. exact H.
Qed.

Lemma attempted_sublist f k plan c :
  In c (attempted f k plan) -> In c plan.
Proof.
  revert k. induction plan as [|c' plan IH]; intros k; simpl; [tauto |].
  destruct (f k); simpl.
  - intros [H|[]]. left. exact H.
  - intros [H|H]; [left; exact H | right; exact (IH _ H)].
Qed.

(** A call that comes last in the plan, and only there, is made only when
    the whole plan is. *)
Lemma attempted_last f k pre c :
  ~ In c pre ->
  In c (attempted f k (pre ++ [c])) ->
  attempted f k (pre ++ [c]) = pre ++ [c].
Proof.
  revert k. induction pre as [|c' pre IH]; intros k Hpre; simpl.
  - destruct (f k); reflexivity.
  - destruct (f k); simpl.
    + intros [H|[]]. exfalso. apply Hpre. left. exact H.
    + intros [H|H].
      * exfalso. apply Hpre. left. exact H.
      * f_equal. apply IH; [| exact H]. intros Hin. apply Hpre. right. exact Hin.
Qed.

Lemma attempted_no_nack f k plan :
  existsb isNack plan = false -> existsb isNack (attempted f k plan) = false.
Proof.
  intros Hplan. apply not_true_is_false. intros Hex.
  apply existsb_exists in Hex as (c & Hin & Hc).
  apply attempted_sublist in Hin.
  assert (existsb isNack plan = true) by (apply existsb_exists; eauto).
  congruence.
Qed.

(** X2.  [setup] asserts the delay exchange, the dead-letter exchange, the
    dead-letter queue, its binding and the notifications exchange, in this
    order, and stops at the first assertion that the broker rejects, whose
    error it throws.  It keeps no state: on a broker that accepts the calls
    a second [setup] makes the same five assertions again and returns. *)
Theorem setup_assertions w :
  callsMade w (snd (setup this w))
  = attempted (faults w) (length (calls w)) (setupPlan this) /\
  fst (setup this w)
  = planOutcome (faults w) (length (calls w)) (setupPlan this) /\
  (healthy w ->
   let w1 := snd (setup this w) in
   fst (setup this w) = Returned tt /\
   callsMade w w1 = setupPlan this /\
   fst (setup this w1) = Returned tt /\
   callsMade w1 (snd (setup this w1)) = setupPlan this).
Proof.
  destruct (setup_follows_plan w) as (Hcalls & Hout & Hfaults).
  split; [exact Hcalls |]. split; [exact Hout |].
  intros H. cbv zeta.
  destruct (attempted_healthy (faults w) (length (calls w)) (setupPlan this) H)
    as [Ha Ho].
  destruct (setup_follows_plan (snd (setup this w))) as (Hcalls1 & Hout1 & _).
  assert (H1 : healthy (snd (setup this w)))
    by (intros k; rewrite Hfaults; apply H).
  destruct (attempted_healthy _ (length (calls (snd (setup this w))))
              (setupPlan this) H1) as [Ha1 Ho1].
  rewrite Hcalls, Hout, Hcalls1, Hout1, Ha, Ho, Ha1, Ho1.
  repeat split; reflexivity.
Qed.

Lemma handleNonRetryable_follows_plan msg err w :
  callsMade w (snd (handleNonRetryable' msg err w))
  = attempted (faults w) (length (calls w)) (planOf false msg err w) /\
  fst (handleNonRetryable' msg err w)
  = planOutcome (faults w) (length (calls w)) (planOf false msg err w).
Proof.
  unfold handleNonRetryableError, handlerPlan.
  rewrite (bind_returned _ _ _ _ _ (firstFailureOf_run _ _)).
  unfold afterFirstFailure.
  destruct (nullish (headersOf msg !! "x-first-failure-timestamp"));
    unfold routeToDlq, publishAlert, bind, channelCall, log, modify, nowISO;
    simpl andb; cbv iota;
    do 3 (first_fault; [split; [made | reflexivity] |]);
    (split; [made | reflexivity]).
Qed.

Lemma handleRetryable_follows_plan msg err w :
  callsMade w (snd (handleRetryable' msg err w))
  = attempted (faults w) (length (calls w)) (planOf true msg err w) /\
  fst (handleRetryable' msg err w)
  = planOutcome (faults w) (length (calls w)) (planOf true msg err w).
Proof.
  unfold handleRetryableError, handlerPlan.
  rewrite (bind_returned _ _ _ _ _ (firstFailureOf_run _ _)).
  rewrite Z.leb_antisym. simpl andb.
  unfold afterFirstFailure.
  destruct (retryCountOf (headersOf msg) <? maxRetries this); simpl negb; cbv iota;
  destruct (nullish (headersOf msg !! "x-first-failure-timestamp"));
    unfold routeToDlq, publishAlert, bind, channelCall, log, modify, nowISO.
  all: try (do 2 (first_fault; [split; [made | reflexivity] |]);
            (split; [made | reflexivity]); fail).
  all: do 3 (first_fault; [split; [made | reflexivity] |]);
       (split; [made | reflexivity]).
Qed.

Lemma planOf_ends_with_ack retryable msg err w :
  exists pre,
    planOf retryable msg err w = pre ++ [Ack msg] /\
    ~ In (Ack msg) pre /\
    existsb isNack (planOf retryable msg err w) = false.
Proof.
  unfold handlerPlan.
  destruct (retryable && (retryCountOf (headersOf msg) <? maxRetries this)).
  - eexists [_]. split; [reflexivity |]. split; [| reflexivity].
    intros [H|[]]. discriminate H.
  - eexists [_; _]. split; [reflexivity |]. split; [| reflexivity].
    intros [H|[H|[]]]; discriminate H.
Qed.

(** X3.  For a message with a valid retry count ([x-retry-count] absent,
    nullish or an integer from 0 to [2^53 - 1]): on every broker each
    handler makes its planned channel calls in order - the retry republish
    and the acknowledgement, or the dead-letter publish, the alert and the
    acknowledgement - and stops at the first call that the broker rejects,
    whose error it throws.  Hence the incoming message is acknowledged only
    after every publish was accepted, it is never negatively acknowledged by
    the handler, and a handler that returns has made all its calls. *)
Theorem handlers_stop_at_first_rejection msg err w :
  retryCountValid (headersOf msg) = true ->
  let k := length (calls w) in
  let runR := handleRetryable' msg err w in
  let runN := handleNonRetryable' msg err w in
  let planR := planOf true msg err w in
  let planN := planOf false msg err w in
  callsMade w (snd runR) = attempted (faults w) k planR /\
  fst runR = planOutcome (faults w) k planR /\
  callsMade w (snd runN) = attempted (faults w) k planN /\
  fst runN = planOutcome (faults w) k planN /\
  (In (Ack msg) (callsMade w (snd runR)) -> callsMade w (snd runR) = planR) /\
  (In (Ack msg) (callsMade w (snd runN)) -> callsMade w (snd runN) = planN) /\
  (fst runR = Returned tt -> callsMade w (snd runR) = planR) /\
  (fst runN = Returned tt -> callsMade w (snd runN) = planN) /\
  existsb isNack (callsMade w (snd runR)) = false /\
  existsb isNack (callsMade w (snd runN)) = false.
Proof.
  intros _ k runR runN planR planN.
  destruct (handleRetryable_follows_plan msg err w) as [HcR HoR].
  destruct (handleNonRetryable_follows_plan msg err w) as [HcN HoN].
  fold k runR planR in HcR, HoR. fold k runN planN in HcN, HoN.
  destruct (planOf_ends_with_ack true msg err w) as (preR & HpR & HinR & HnR).
  destruct (planOf_ends_with_ack false msg err w) as (preN & HpN & HinN & HnN).
  fold planR in HpR, HnR. fold planN in HpN, HnN.
  rewrite HcR, HcN, HoR, HoN.
  repeat split.
  - rewrite HpR. apply attempted_last. exact HinR.
  - rewrite HpN. apply attempted_last. exact HinN.
  - apply attempted_returned.
  - apply attempted_returned.
  - apply attempted_no_nack. exact HnR.
  - apply attempted_no_nack. exact HnN.
Qed.

Lemma delay_not_notifications (p : string) :
  p +:+ ".delay" <> NOTIFICATIONS_EXCHANGE.
Proof.
  unfold NOTIFICATIONS_EXCHANGE. intros H.
  do 14 (destruct p as [|? p]; simpl in H; [discriminate H |];
         try discriminate H; injection H as _ H).
Qed.

Lemma Forall_attempted (P : ChannelCall -> Prop) f k plan :
  Forall P plan -> Forall P (attempted f k plan).
Proof.
  intros HP. apply Forall_forall. intros c Hin.
  rewrite Forall_forall in HP. apply HP.
  apply list_elem_of_In. apply list_elem_of_In in Hin.
  exact (attempted_sublist f k plan c Hin).
Qed.

(** X4.  [handleNonRetryableError] never publishes to the delay exchange
    and adds no [x-delay] header: when the incoming message has none, no call
    it makes carries one.  When it returns, its publishes are exactly two;
    for a message whose [x-retry-count] is absent, nullish or an integer
    they are the dead-letter publish, with that count, and then the
    alert. *)
Theorem nonRetryable_never_delays msg err w :
  let run := handleNonRetryable' msg err w in
  Forall (fun c => publishedExchange c <> Some (exchange this +:+ ".delay"))
    (callsMade w (snd run)) /\
  (headersOf msg !! "x-delay" = None ->
   Forall (fun c => publishedHeader "x-delay" c = None) (callsMade w (snd run))) /\
  (fst run = Returned tt ->
   length (List.filter isPublish (callsMade w (snd run))) = 2%nat) /\
  (fst run = Returned tt ->
   retryCountTyped (headersOf msg) = true ->
   exists alert,
     List.filter isPublish (callsMade w (snd run))
     = [dlqMessage this msg err (retryCountOf (headersOf msg))
          (firstFailureValue (headersOf msg) w);
        alertMessage JSON_stringify Buffer_from this alert]).
Proof.
  intros run.
  destruct (handleNonRetryable_follows_plan msg err w) as [Hc Ho].
  fold run in Hc, Ho. rewrite Hc.
  split; [| split; [| split]].
  - apply Forall_attempted. unfold handlerPlan. simpl andb. cbv iota.
    repeat constructor; simpl.
    + intros H. injection H as H. apply string_app_inv_head in H. discriminate H.
    + intros H. injection H as H. symmetry in H.
      exact (delay_not_notifications _ H).
    + discriminate.
  - intros Hnone. apply Forall_attempted. unfold handlerPlan. simpl andb. cbv iota.
    repeat constructor; simpl; try reflexivity.
    rewrite !lookup_insert_ne by discriminate. exact Hnone.
  - intros Hret. rewrite Ho in Hret.
    rewrite (attempted_returned _ _ _ Hret).
    unfold handlerPlan. simpl. reflexivity.
  - intros Hret _. rewrite Ho in Hret.
    rewrite (attempted_returned _ _ _ Hret).
    unfold handlerPlan. simpl. eexists. reflexivity.
Qed.

(** *** Retry chains *)

Abbreviation round := (retryRound JSON_parse JSON_stringify Buffer_toString Buffer_from this).
Abbreviation chain := (retryChain JSON_parse JSON_stringify Buffer_toString Buffer_from this).

(** What one round does to a message. *)
Lemma retryRound_inv msg msg' :
  round msg msg' ->
  exists err w,
    retryCountOf (headersOf msg) < maxRetries this /\
    content msg' = content msg /\
    routingKey msg' = routingKey msg /\
    forall key, key <> "x-delay" ->
      headersOf msg' !! key
      = (<["x-last-error" := HStr (message err)]>
         (<["x-first-failure-timestamp" :=
              firstFailureValue (headersOf msg) w]>
          (<["x-retry-count" := HNum (retryCountOf (headersOf msg) + 1)]>
           (<["x-delay" :=
                HNum (calculateDelay (retryCountOf (headersOf msg)))]>
            (headersOf msg))))) !! key.
Proof.
  intros (err & w & routing & body & opts & Hfirst & Hdel).
  rewrite handleRetryableError_firstCall in Hfirst.
  destruct (maxRetries this <=? retryCountOf (headersOf msg)) eqn:Hmax.
  - exfalso. injection Hfirst as Hfirst _ _ _.
    apply string_app_inv_head in Hfirst. discriminate Hfirst.
  - apply Z.leb_gt in Hmax. exists err, w. split; [exact Hmax |].
    unfold retryMessage in Hfirst. injection Hfirst as <- <- <-.
    exact Hdel.
Qed.

Lemma firstFailureValue_not_nullish hs w :
  nullish (Some (firstFailureValue hs w)) = false.
Proof.
  unfold firstFailureValue.
  destruct (hs !! "x-first-failure-timestamp") as [v|]; [| reflexivity].
  destruct (nullish (Some v)) eqn:Hn; [reflexivity | exact Hn].
Qed.

Lemma retryRound_facts msg msg' :
  round msg msg' ->
  retryCountOf (headersOf msg) < maxRetries this /\
  retryCountOf (headersOf msg') = retryCountOf (headersOf msg) + 1 /\
  retryCountTyped (headersOf msg') = true /\
  content msg' = content msg /\
  routingKey msg' = routingKey msg /\
  (forall key, key ∉ retryHeaderKeys ->
     headersOf msg' !! key = headersOf msg !! key) /\
  (exists v, headersOf msg' !! "x-first-failure-timestamp" = Some v /\
             nullish (Some v) = false) /\
  (forall v, headersOf msg !! "x-first-failure-timestamp" = Some v ->
             nullish (Some v) = false ->
             headersOf msg' !! "x-first-failure-timestamp" = Some v).
Proof.
  intros Hround.
  destruct (retryRound_inv msg msg' Hround)
    as (err & w & Hlt & Hcontent & Hrouting & Hhs).
  split; [exact Hlt |].
  assert (Hcount : headersOf msg' !! "x-retry-count"
                   = Some (HNum (retryCountOf (headersOf msg) + 1))).
  { rewrite Hhs by discriminate. rewrite !lookup_insert_ne by discriminate.
    apply lookup_insert_eq. }
  assert (Hff : headersOf msg' !! "x-first-failure-timestamp"
                = Some (firstFailureValue (headersOf msg) w)).
  { rewrite Hhs by discriminate. rewrite !lookup_insert_ne by discriminate.
    apply lookup_insert_eq. }
  split; [unfold retryCountOf at 1; rewrite Hcount; reflexivity |].
  split; [unfold retryCountTyped; rewrite Hcount; reflexivity |].
  split; [exact Hcontent |]. split; [exact Hrouting |].
  split; [| split].
  - intros key Hkey. unfold retryHeaderKeys in Hkey.
    rewrite Hhs by (intros ->; apply Hkey; set_solver).
    rewrite !lookup_insert_ne; [reflexivity | | | |];
      intros <-; apply Hkey; set_solver.
  - eexists. split; [exact Hff | apply firstFailureValue_not_nullish].
  - intros v Hv Hn. rewrite Hff. unfold firstFailureValue.
    rewrite Hv, Hn. reflexivity.
Qed.

Lemma retryCountValid_spec hs :
  retryCountValid hs = true <->
  retryCountTyped hs = true /\ 0 <= retryCountOf hs <= MAX_SAFE_INTEGER.
Proof.
  unfold retryCountValid. rewrite !andb_true_iff, !Z.leb_le. tauto.
Qed.

(** X5.  With an integer [maxRetries] of at most [2^53 - 1], a message with
    a valid retry count ([x-retry-count] absent, nullish or an integer from
    0 to [2^53 - 1]) that goes through [k] retry rounds (failure, republish
    to the delay exchange, redelivery by a broker that hands payload,
    routing key and the headers other than [x-delay] on unchanged) arrives
    with a valid retry count again, raised by exactly [k], the same payload
    and routing key and the same headers outside the four retry headers; a
    round is possible only while the count is below [maxRetries], so a chain
    that starts at count [c] has at most [maxRetries - c] rounds; and from
    the first round on the first-failure timestamp never changes again. *)
Theorem retry_chain_bounded k msg msg' :
  retryCountValid (headersOf msg) = true ->
  maxRetries this <= MAX_SAFE_INTEGER ->
  chain k msg msg' ->
  retryCountValid (headersOf msg') = true /\
  retryCountOf (headersOf msg') = retryCountOf (headersOf msg) + Z.of_nat k /\
  ((1 <= k)%nat ->
   retryCountOf (headersOf msg) + Z.of_nat k <= maxRetries this) /\
  content msg' = content msg /\
  routingKey msg' = routingKey msg /\
  (forall key, key ∉ retryHeaderKeys ->
     headersOf msg' !! key = headersOf msg !! key) /\
  (forall v, headersOf msg !! "x-first-failure-timestamp" = Some v ->
             nullish (Some v) = false ->
             headersOf msg' !! "x-first-failure-timestamp" = Some v) /\
  (forall j msg'',
     (1 <= k)%nat -> chain j msg' msg'' ->
     headersOf msg'' !! "x-first-failure-timestamp"
     = headersOf msg' !! "x-first-failure-timestamp").
Proof.
  intros Hvalid Hmax Hchain.
  assert (Hkeep : forall j a b,
            chain j a b ->
            forall v, headersOf a !! "x-first-failure-timestamp" = Some v ->
                      nullish (Some v) = false ->
                      headersOf b !! "x-first-failure-timestamp" = Some v).
  { intros j a b Hab. induction Hab as [a|j a mid b Hab IH Hround];
      intros v Hv Hn; [exact Hv |].
    destruct (retryRound_facts mid b Hround) as (_ & _ & _ & _ & _ & _ & _ & Hk).
    apply Hk; [apply IH; assumption | exact Hn]. }
  revert Hvalid.
  induction Hchain as [msg|k msg mid msg' Hchain IH Hround]; intros Hvalid.
  - split; [exact Hvalid |]. repeat split; try reflexivity.
    + rewrite Z.add_0_r. reflexivity.
    + intros H. lia.
    + intros v Hv _. exact Hv.
    + intros j msg'' H. lia.
  - destruct (IH Hvalid)
      as (Hmid & Hcount & Hbound & Hcontent & Hkey & Hframe & Hff & _).
    destruct (retryRound_facts mid msg' Hround)
      as (Hlt & Hcount' & Htyped' & Hcontent' & Hkey' & Hframe' & (v & Hv & Hn) & Hff').
    apply retryCountValid_spec in Hmid as (_ & Hmid0 & _).
    split; [apply retryCountValid_spec; split; [exact Htyped' | lia] |].
    repeat split.
    + rewrite Hcount', Hcount. lia.
    + intros _. lia.
    + congruence.
    + congruence.
    + intros key Hk. rewrite Hframe' by exact Hk. apply Hframe. exact Hk.
    + intros v0 Hv0 Hn0. apply Hff'; [apply Hff; assumption | exact Hn0].
    + intros j msg'' _ Hnext. rewrite Hv.
      exact (Hkeep j msg' msg'' Hnext v Hv Hn).
Qed.

End DlqPlansRuns.

(** ** The consumer loop with the DLQ handler behind it *)

Section ConsumerEndToEnd.

Import DlqService.
Import DlqPlans.

Variable JSON_parse : string -> Error + Json.
Variable JSON_stringify : Json -> string.
Variable Buffer_toString : Buffer -> string.
Variable Buffer_from : string -> Buffer.
Variable this : DlqHandler.

Abbreviation realHandler :=
  (BaseConsumer.dlqHandlerOf JSON_parse JSON_stringify Buffer_toString
     Buffer_from this).
Abbreviation planFor :=
  (handlerPlan JSON_parse JSON_stringify Buffer_toString Buffer_from this).
Abbreviation failed := (addLog LError "Message processing failed").

Lemma callsMade_same_calls w1 w2 w' :
  calls w1 = calls w2 -> callsMade w1 w' = callsMade w2 w'.
Proof. intros H. unfold callsMade. rewrite H. reflexivity. Qed.

Lemma plan_settles_once retryable msg error w :
  let plan := planFor retryable msg error w in
  last plan = Some (Ack msg) /\
  length (List.filter isSettle plan) = 1%nat /\
  existsb isNack plan = false.
Proof.
  unfold handlerPlan.
  destruct (retryable && (retryCountOf (headersOf msg) <? maxRetries this));
    repeat split; reflexivity.
Qed.

(** [handleError] with the DLQ handler behind it, on a broker that accepts
    the calls. *)
Lemma handleError_healthy msg error w :
  healthy w ->
  fst (BaseConsumer.handleError realHandler msg error w) = Returned tt /\
  callsMade w (snd (BaseConsumer.handleError realHandler msg error w))
  = planFor (negb (BaseConsumer.isNonRetryable error)) msg error (failed w).
Proof.
  intros H.
  assert (H0 : healthy (failed w)) by exact H.
  unfold BaseConsumer.handleError.
  rewrite (bind_returned _ _ _ tt (failed w)) by reflexivity.
  unfold tryCatch.
  destruct (BaseConsumer.isNonRetryable error); simpl negb.
  - destruct (handleNonRetryable_follows_plan JSON_parse JSON_stringify
                Buffer_toString Buffer_from this msg error (failed w))
      as [Hc Ho].
    destruct (attempted_healthy (faults (failed w)) (length (calls (failed w)))
                (planFor false msg error (failed w)) H0) as [Ha Hp].
    rewrite Ha in Hc. rewrite Hp in Ho. simpl BaseConsumer.handleNonRetryableError.
    destruct (handleNonRetryableError _ _ _ _ _ _ _ _) as [[[]|e] w1];
      simpl in *; [| discriminate Ho].
    split; [reflexivity | exact Hc].
  - destruct (handleRetryable_follows_plan JSON_parse JSON_stringify
                Buffer_toString Buffer_from this msg error (failed w))
      as [Hc Ho].
    destruct (attempted_healthy (faults (failed w)) (length (calls (failed w)))
                (planFor true msg error (failed w)) H0) as [Ha Hp].
    rewrite Ha in Hc. rewrite Hp in Ho. simpl BaseConsumer.handleRetryableError.
    destruct (handleRetryableError _ _ _ _ _ _ _ _) as [[[]|e] w1];
      simpl in *; [| discriminate Ho].
    split; [reflexivity | exact Hc].
Qed.

Variable processMessage : Json -> Message -> M World unit.

Abbreviation handleMsg :=
  (BaseConsumer.handleMessage JSON_parse Buffer_toString realHandler
     processMessage).

(** X6.  With the DLQ handler behind it, a hook that makes no channel call
    of its own and throws, when it throws, an [Error] object, and a broker
    that accepts the calls, [handleMessage] settles every delivered message
    with a valid retry count ([x-retry-count] absent, nullish or an integer
    from 0 to [2^53 - 1]) exactly once, by a positive acknowledgement that
    is its last channel call, and returns: after a successful
    [processMessage] the acknowledgement is its only call; after a decoding
    or processing failure it follows the handler's plan for the error
    (dead-letter for a [NonRetryableError], the retryable path otherwise). *)
Theorem consumer_settles_once msg w :
  retryCountValid (headersOf msg) = true ->
  healthy w ->
  quiet processMessage ->
  let text := Buffer_toString (content msg) in
  let run := handleMsg (Some msg) w in
  let made := callsMade w (snd run) in
  fst run = Returned tt /\
  last made = Some (Ack msg) /\
  length (List.filter isSettle made) = 1%nat /\
  existsb isNack made = false /\
  (forall v,
     JSON_parse text = inr v ->
     fst (processMessage v msg w) = Returned tt ->
     made = [Ack msg]) /\
  (forall e,
     JSON_parse text = inl e ->
     made = planFor (negb (BaseConsumer.isNonRetryable e)) msg e (failed w)) /\
  (forall v e,
     JSON_parse text = inr v ->
     fst (processMessage v msg w) = Thrown e ->
     made = planFor (negb (BaseConsumer.isNonRetryable e)) msg e
              (failed (snd (processMessage v msg w)))).
Proof.
  intros _ H Hquiet text run made.
  unfold made, run, BaseConsumer.handleMessage, BaseConsumer.parseContent.
  fold text. unfold tryCatch.
  destruct (JSON_parse text) as [e|v] eqn:Hparse.
  - (* the payload does not decode *)
    rewrite (bind_thrown _ _ _ e w) by reflexivity.
    destruct (handleError_healthy msg e w H) as [Ho Hc].
    destruct (plan_settles_once (negb (BaseConsumer.isNonRetryable e)) msg e
                (failed w)) as (Hlast & Hone & Hnack).
    rewrite Ho, Hc.
    repeat split; try assumption.
    + intros v Hv. discriminate Hv.
    + intros e' He'. injection He' as <-. reflexivity.
    + intros v e' Hv. discriminate Hv.
  - rewrite (bind_returned _ _ _ v w) by reflexivity.
    destruct (Hquiet v msg w) as [Hcalls Hfaults].
    unfold bind.
    destruct (processMessage v msg w) as [[[]|e] w1] eqn:Hproc; simpl in *.
    + (* processed: the acknowledgement *)
      unfold channelCall. rewrite Hfaults, H. simpl.
      rewrite (callsMade_app w (addCall (Ack msg) w1) [Ack msg])
        by (simpl; rewrite Hcalls; reflexivity).
      repeat split; try reflexivity.
      * intros e He. discriminate He.
      * intros v' e' Hv' He'. injection Hv' as <-.
        rewrite Hproc in He'. discriminate He'.
    + (* the hook throws *)
      assert (H1 : healthy w1) by (intros k; rewrite Hfaults; apply H).
      destruct (handleError_healthy msg e w1 H1) as [Ho Hc].
      destruct (plan_settles_once (negb (BaseConsumer.isNonRetryable e)) msg e
                  (failed w1)) as (Hlast & Hone & Hnack).
      rewrite (callsMade_same_calls w w1) by (symmetry; exact Hcalls).
      rewrite Ho, Hc.
      repeat split; try assumption.
      * intros v' Hv' He'. injection Hv' as <-.
        rewrite Hproc in He'. discriminate He'.
      * intros e' He'. discriminate He'.
      * intros v' e' Hv' He'. injection Hv' as <-.
        rewrite Hproc in He' |- *. injection He' as <-. reflexivity.
Qed.

Lemma monotone_tryCatch {A} (m : M World A) (h : Error -> M World A) :
  monotone m -> (forall e, monotone (h e)) -> monotone (tryCatch m h).
Proof.
  intros Hm Hh w. unfold tryCatch. specialize (Hm w).
  destruct (m w) as [[a|e] w1]; simpl in *; [exact Hm |].
  eapply grows_trans; [exact Hm | apply Hh].
Qed.

Lemma firstCall_tryCatch {A} (m : M World A) (h : Error -> M World A) w0 w c :
  firstCall w0 (snd (m w)) = Some c ->
  (forall e, monotone (h e)) ->
  firstCall w0 (snd (tryCatch m h w)) = Some c.
Proof.
  intros Hm Hh. unfold tryCatch.
  destruct (m w) as [[a|e] w1]; simpl in *; [exact Hm |].
  rewrite firstCall_lookup in *.
  destruct (Hh e w1) as [l Hl]. rewrite Hl.
  apply lookup_app_l_Some. exact Hm.
Qed.

(** The outbound publish of [handleError] for an error that is not a
    [NonRetryableError], on every broker. *)
Lemma handleError_firstCall msg error w0 w :
  calls w = calls w0 ->
  BaseConsumer.isNonRetryable error = false ->
  firstCall w0 (snd (BaseConsumer.handleError realHandler msg error w))
  = Some (if maxRetries this <=? retryCountOf (headersOf msg)
          then dlqMessage this msg error (retryCountOf (headersOf msg))
                 (firstFailureValue (headersOf msg) w)
          else retryMessage this msg error (retryCountOf (headersOf msg))
                 (firstFailureValue (headersOf msg) w)
                 (calculateDelay (retryCountOf (headersOf msg)))).
Proof.
  intros Hcalls Hclass. unfold BaseConsumer.handleError.
  rewrite (bind_returned _ _ _ tt (failed w)) by reflexivity.
  rewrite Hclass. simpl BaseConsumer.handleRetryableError.
  apply firstCall_tryCatch.
  - pose proof (handleRetryableError_firstCall JSON_parse JSON_stringify
                  Buffer_toString Buffer_from this msg error (failed w)) as Hf.
    cbv zeta in Hf. rewrite firstCall_lookup in Hf |- *.
    simpl calls in Hf. rewrite <- Hcalls. exact Hf.
  - intros e. unfold monotone. intros w1. unfold bind, log, modify, channelCall.
    simpl. destruct (faults w1 (length (calls w1))); simpl;
      exists [Nack msg false false]; reflexivity.
Qed.

(** X7.  A payload that [JSON.parse] rejects never reaches
    [processMessage]: whatever the hook is, [handleMessage] hands the
    parser's error to [handleError], which (the error not being a
    [NonRetryableError]) takes the retryable path - for a message with a
    valid retry count ([x-retry-count] absent, nullish or an integer from 0
    to [2^53 - 1]), on every broker the first channel call is the retry
    republish carrying the parser's message in [x-last-error], or the
    dead-letter publish once the retries are used up. *)
Theorem malformed_payload_is_retried msg e w :
  retryCountValid (headersOf msg) = true ->
  JSON_parse (Buffer_toString (content msg)) = inl e ->
  BaseConsumer.isNonRetryable e = false ->
  let run := handleMsg (Some msg) w in
  (forall otherHook,
     BaseConsumer.handleMessage JSON_parse Buffer_toString realHandler
       otherHook (Some msg) w = run) /\
  run = BaseConsumer.handleError realHandler msg e w /\
  firstCall w (snd run)
  = Some (if maxRetries this <=? retryCountOf (headersOf msg)
          then dlqMessage this msg e (retryCountOf (headersOf msg))
                 (firstFailureValue (headersOf msg) w)
          else retryMessage this msg e (retryCountOf (headersOf msg))
                 (firstFailureValue (headersOf msg) w)
                 (calculateDelay (retryCountOf (headersOf msg)))) /\
  outboundHeader "x-last-error" w (snd run) = Some (HStr (message e)).
Proof.
  intros _ Hparse Hclass run.
  assert (Hrun : forall hook,
            BaseConsumer.handleMessage JSON_parse Buffer_toString realHandler
              hook (Some msg) w
            = BaseConsumer.handleError realHandler msg e w).
  { intros hook. unfold BaseConsumer.handleMessage, BaseConsumer.parseContent.
    rewrite Hparse. unfold tryCatch.
    rewrite (bind_thrown _ _ _ e w) by reflexivity. reflexivity. }
  assert (Hfirst := handleError_firstCall msg e w w eq_refl Hclass).
  unfold run. rewrite !Hrun.
  split; [intros hook; apply Hrun |]. split; [reflexivity |].
  split; [exact Hfirst |].
  unfold outboundHeader. rewrite Hfirst.
  destruct (maxRetries this <=? retryCountOf (headersOf msg)); simpl;
    apply lookup_insert_eq.
Qed.

(** X8.  When [processMessage] has returned and the acknowledgement itself
    throws, the error of the acknowledgement is handled like a processing
    failure: [handleMessage] goes on with [handleError], so that the message
    - although processed - is republished for a retry (or dead-lettered once
    the retries are used up) as the next channel call.  Stated for a
    message with a valid retry count ([x-retry-count] absent, nullish or an
    integer from 0 to [2^53 - 1]). *)
Theorem failed_ack_is_retried msg v e w :
  retryCountValid (headersOf msg) = true ->
  JSON_parse (Buffer_toString (content msg)) = inr v ->
  fst (processMessage v msg w) = Returned tt ->
  calls (snd (processMessage v msg w)) = calls w ->
  faults (snd (processMessage v msg w)) (length (calls w)) = Some e ->
  BaseConsumer.isNonRetryable e = false ->
  let w1 := addCall (Ack msg) (snd (processMessage v msg w)) in
  let run := handleMsg (Some msg) w in
  run = BaseConsumer.handleError realHandler msg e w1 /\
  callsMade w (snd run) !! 0%nat = Some (Ack msg) /\
  callsMade w (snd run) !! 1%nat
  = Some (if maxRetries this <=? retryCountOf (headersOf msg)
          then dlqMessage this msg e (retryCountOf (headersOf msg))
                 (firstFailureValue (headersOf msg) w1)
          else retryMessage this msg e (retryCountOf (headersOf msg))
                 (firstFailureValue (headersOf msg) w1)
                 (calculateDelay (retryCountOf (headersOf msg)))).
Proof.
  intros _ Hparse Hproc Hcalls Hfault Hclass w1 run.
  assert (Hrun : run = BaseConsumer.handleError realHandler msg e w1).
  { unfold run, BaseConsumer.handleMessage, BaseConsumer.parseContent.
    rewrite Hparse. unfold tryCatch.
    rewrite (bind_returned _ _ _ v w) by reflexivity.
    unfold bind, channelCall.
    destruct (processMessage v msg w) as [[[]|e'] w'] eqn:Hp; simpl in *;
      [| discriminate Hproc].
    rewrite Hcalls, Hfault. reflexivity. }
  split; [exact Hrun |].
  assert (Hgrow : exists l,
            calls (snd run) = (calls w ++ [Ack msg]) ++ l).
  { rewrite Hrun.
    assert (Hm : monotone (BaseConsumer.handleError realHandler msg e)).
    { unfold BaseConsumer.handleError.
      apply monotone_bind; [apply monotone_log | intros _].
      rewrite Hclass. simpl BaseConsumer.handleRetryableError.
      apply monotone_tryCatch.
      - unfold handleRetryableError, routeToDlq, publishAlert,
          firstFailureOf.
        destruct (headersOf msg !! "x-first-failure-timestamp") as [x|];
          [destruct (nullish (Some x)) |];
          destruct (maxRetries this <=? retryCountOf (headersOf msg));
          repeat first
            [ apply monotone_bind; [| intros ?]
            | apply monotone_ret | apply monotone_log | apply monotone_nowISO
            | apply monotone_channelCall ].
      - intros e'.
        apply monotone_bind; [apply monotone_log | intros _].
        apply monotone_channelCall. }
    destruct (Hm w1) as [l Hl]. exists l. rewrite Hl. unfold w1. simpl.
    rewrite Hcalls. reflexivity. }
  destruct Hgrow as [l Hl].
  split.
  - unfold callsMade. rewrite lookup_drop, Hl, <- app_assoc.
    rewrite Nat.add_0_r. apply list_lookup_middle. reflexivity.
  - pose proof (handleError_firstCall msg e w1 w1 eq_refl Hclass) as Hf.
    rewrite <- Hrun, firstCall_lookup in Hf.
    unfold callsMade. rewrite lookup_drop.
    replace (length (calls w) + 1)%nat with (length (calls w1)); [exact Hf |].
    unfold w1. simpl. rewrite Hcalls, length_app. reflexivity.
Qed.

(** X24.  A [NonRetryableError] thrown by [processMessage] is never
    retried: [handleMessage] hands it to [handleError], and on every broker,
    for a message whose [x-retry-count] is absent, nullish or an integer -
    whatever that count is, below [maxRetries] or not - the first channel
    call is the publish to the dead-letter exchange, under the queue name as
    routing key, with the retry count of the incoming message unchanged (0
    when absent or nullish) and the error's message in [x-last-error]. *)
Theorem nonRetryable_failure_is_dead_lettered msg v e w :
  retryCountTyped (headersOf msg) = true ->
  JSON_parse (Buffer_toString (content msg)) = inr v ->
  fst (processMessage v msg w) = Thrown e ->
  calls (snd (processMessage v msg w)) = calls w ->
  BaseConsumer.isNonRetryable e = true ->
  let w1 := snd (processMessage v msg w) in
  let run := handleMsg (Some msg) w in
  run = BaseConsumer.handleError realHandler msg e w1 /\
  firstCall w (snd run)
  = Some (dlqMessage this msg e (retryCountOf (headersOf msg))
            (firstFailureValue (headersOf msg) w1)) /\
  (exists body opts,
     firstCall w (snd run)
     = Some (Publish (exchange this +:+ ".dlq") (queue this) body opts)) /\
  outboundHeader "x-retry-count" w (snd run)
  = Some (HNum (retryCountOf (headersOf msg))) /\
  outboundHeader "x-last-error" w (snd run) = Some (HStr (message e)).
Proof.
  intros _ Hparse Hproc Hcalls Hclass w1 run.
  assert (Hrun : run = BaseConsumer.handleError realHandler msg e w1).
  { unfold run, w1, BaseConsumer.handleMessage, BaseConsumer.parseContent.
    rewrite Hparse. unfold tryCatch.
    rewrite (bind_returned _ _ _ v w) by reflexivity.
    unfold bind.
    destruct (processMessage v msg w) as [[[]|e'] w'] eqn:Hp; simpl in *;
      [discriminate Hproc |].
    injection Hproc as ->. reflexivity. }
  assert (Hfirst : firstCall w (snd run)
                   = Some (dlqMessage this msg e (retryCountOf (headersOf msg))
                             (firstFailureValue (headersOf msg) w1))).
  { rewrite Hrun. unfold BaseConsumer.handleError.
    rewrite (bind_returned _ _ _ tt (failed w1)) by reflexivity.
    rewrite Hclass. simpl BaseConsumer.handleNonRetryableError.
    apply firstCall_tryCatch.
    - pose proof (handleNonRetryableError_firstCall JSON_parse JSON_stringify
                    Buffer_toString Buffer_from this msg e (failed w1)) as Hf.
      cbv zeta in Hf. rewrite firstCall_lookup in Hf |- *.
      simpl calls in Hf. fold w1 in Hcalls. rewrite <- Hcalls. exact Hf.
    - intros e'. unfold monotone. intros w2.
      unfold bind, log, modify, channelCall.
      simpl. destruct (faults w2 (length (calls w2))); simpl;
        exists [Nack msg false false]; reflexivity. }
  split; [exact Hrun |]. split; [exact Hfirst |].
  split; [rewrite Hfirst; unfold dlqMessage; eauto |].
  unfold outboundHeader. rewrite Hfirst. simpl.
  split.
  - rewrite lookup_insert_ne by discriminate.
    rewrite lookup_insert_ne by discriminate.
    apply lookup_insert_eq.
  - apply lookup_insert_eq.
Qed.

End ConsumerEndToEnd.

(** ** More on the connection manager *)

Section ConnectionExtras.

Import ConnectionManager.
Import ConnectionObserve.

Variable this : Config.

(** *** Registering and invoking callbacks *)

Lemma on_run ev h m n :
  on ev h (m, n)
  = (Returned tt,
     ({| connection := connection m; channel := channel m;
         currentState := currentState m;
         eventHandlers := <[ev := handlersFor ev m ++ [h]]> (eventHandlers m) |},
      n)).
Proof. reflexivity. Qed.

Lemma registerAll_run regs : forall m n,
  exists m',
    registerAll regs (m, n) = (Returned tt, (m', n)) /\
    connection m' = connection m /\
    channel m' = channel m /\
    currentState m' = currentState m /\
    forall ev, handlersFor ev m' = handlersFor ev m ++ registeredFor ev regs.
Proof.
  induction regs as [|[ev h] regs IH]; intros m n.
  - exists m. repeat split; try reflexivity.
    intros ev. unfold registeredFor. simpl. symmetry. apply app_nil_r.
  - simpl registerAll. unfold bind. rewrite on_run.
    destruct (IH {| connection := connection m; channel := channel m;
                    currentState := currentState m;
                    eventHandlers :=
                      <[ev := handlersFor ev m ++ [h]]> (eventHandlers m) |} n)
      as (m' & Hrun & Hc & Hch & Hst & Hh).
    exists m'. rewrite Hrun. repeat split; try assumption.
    intros ev'. rewrite Hh. unfold handlersFor at 1. simpl.
    unfold registeredFor. simpl.
    destruct (String.eqb_spec ev' ev) as [->|Hne].
    + rewrite lookup_insert_eq. simpl. rewrite <- app_assoc. reflexivity.
    + rewrite lookup_insert_ne by congruence. reflexivity.
Qed.

Lemma fold_record evs : forall n,
  trace (fold_left (fun n' ev => record ev n') evs n) = trace n ++ evs /\
  dial (fold_left (fun n' ev => record ev n') evs n) = dial n /\
  dialed (fold_left (fun n' ev => record ev n') evs n) = dialed n.
Proof.
  induction evs as [|ev evs IH]; intros n; simpl.
  - repeat split. symmetry. apply app_nil_r.
  - destruct (IH (record ev n)) as (Ht & Hd & Hn). rewrite Ht, Hd, Hn.
    simpl. rewrite <- app_assoc. repeat split.
Qed.

Lemma emit_run ev arg m n :
  exists n',
    emit ev arg (m, n) = (Returned tt, (m, n')) /\
    trace n' = trace n ++ map (fun h => EvCallback h ev arg) (handlersFor ev m) /\
    dial n' = dial n /\ dialed n' = dialed n.
Proof.
  unfold emit, bind, gets, modify. simpl.
  eexists. split; [reflexivity |].
  fold (handlersFor ev m).
  generalize (handlersFor ev m). intros hs. revert n.
  induction hs as [|h hs IH]; intros n; simpl.
  - repeat split. symmetry. apply app_nil_r.
  - destruct (IH (record (EvCallback h ev arg) n)) as (Ht & Hd & Hn).
    rewrite Ht, Hd, Hn. simpl. rewrite <- app_assoc. repeat split.
Qed.

(** X9.  Callbacks are invoked in registration order: after any series of
    [on] calls, [emit] for an event invokes the callbacks that were already
    registered for it followed by those the series registered for it, in
    the order of the calls, each with the event's argument, and nothing
    else; [on] and [emit] leave the connection, the channel and the state
    alone and, the callbacks not throwing, return. *)
Theorem emit_registration_order regs ev arg m n :
  let s1 := snd (registerAll regs (m, n)) in
  let run := emit ev arg s1 in
  fst (registerAll regs (m, n)) = Returned tt /\
  fst run = Returned tt /\
  fst (snd run) = fst s1 /\
  connection (fst s1) = connection m /\
  channel (fst s1) = channel m /\
  currentState (fst s1) = currentState m /\
  trace (snd (snd run))
  = trace n ++ map (fun h => EvCallback h ev arg)
                 (handlersFor ev m ++ registeredFor ev regs).
Proof.
  destruct (registerAll_run regs m n) as (m' & Hrun & Hc & Hch & Hst & Hh).
  cbv zeta. rewrite Hrun. cbn [fst snd].
  destruct (emit_run ev arg m' n) as (n' & Hemit & Htrace & _).
  rewrite Hemit. cbn [fst snd]. rewrite Htrace, Hh.
  repeat split; assumption.
Qed.

(** *** What a connection attempt leaves behind *)

Lemma callbacksIn_app l1 l2 :
  callbacksIn (l1 ++ l2) = callbacksIn l1 ++ callbacksIn l2.
Proof. unfold callbacksIn. apply omap_app. Qed.

Lemma connectAttempt_frame attempt m n :
  exists added m1 n1 o,
    connectAttempt this attempt (m, n) = (o, (m1, n1)) /\
    trace n1 = trace n ++ added /\
    callbacksIn added = [] /\
    dial n1 = dial n /\
    dialed n1 = S (dialed n) /\
    (o <> Returned true ->
     channel m1 = channel m /\
     connection m1 = match dial n (dialed n) with
                     | inr c => Some c
                     | inl _ => connection m
                     end).
Proof.
  unfold connectAttempt, tryCatch, bind, amqplib_connect,
    createChannel, setConnection, setChannel, setState,
    setupConnectionHandlers, log, sleep, event, modify, gets, ret, throw.
  destruct (dial n (dialed n)) as [e|c] eqn:Hdial; simpl;
    [| destruct (openChannel n c) as [e|ch] eqn:Hopen; simpl];
    try (destruct (attempt =? reconnectAttempts this); simpl);
    do 4 eexists; (split; [reflexivity |]); unfold record; simpl;
    rewrite <- ?app_assoc; simpl;
    (split; [reflexivity |]); (split; [reflexivity |]);
    (split; [reflexivity |]); (split; [reflexivity |]);
    intros Ho; try (split; reflexivity); exfalso; apply Ho; reflexivity.
Qed.

(** [connect] invokes no callback. *)
Lemma connectLoop_no_callbacks turns : forall attempt m n o m' n',
  connectLoop this turns attempt (m, n) = (o, (m', n')) ->
  exists added, trace n' = trace n ++ added /\ callbacksIn added = [].
Proof.
  induction turns as [|turns IH]; intros attempt m n o m' n' Hloop.
  - injection Hloop as _ _ <-. exists []. split; [| reflexivity].
    symmetry. apply app_nil_r.
  - rewrite connectLoop_S in Hloop. unfold bind in Hloop.
    destruct (connectAttempt_frame attempt m n)
      as (added & m1 & n1 & o1 & Hrun & Htrace & Hcb & _).
    rewrite Hrun in Hloop.
    destruct o1 as [[|]|e]; try (injection Hloop as _ _ <-; eauto).
    destruct (IH _ _ _ _ _ _ Hloop) as (added' & Htrace' & Hcb').
    exists (added ++ added'). split.
    + rewrite Htrace', Htrace. symmetry. apply app_assoc.
    + rewrite callbacksIn_app, Hcb, Hcb'. reflexivity.
Qed.

Lemma connectLoop_failure_frame turns : forall attempt m n e m' n',
  reconnectAttempts this = attempt + Z.of_nat turns ->
  connectLoop this (S turns) attempt (m, n) = (Thrown e, (m', n')) ->
  channel m' = channel m /\
  (forall c, dial n (dialed n + turns) = inr c -> connection m' = Some c) /\
  ((forall k, exists refused, dial n k = inl refused) ->
   connection m' = connection m).
Proof.
  induction turns as [|turns IH]; intros attempt m n e m' n' HR Hloop;
    rewrite connectLoop_S in Hloop; unfold bind in Hloop;
    destruct (connectAttempt_frame attempt m n)
      as (added & m1 & n1 & o1 & Hrun & _ & _ & Hdial & Hdialed & Hframe);
    destruct (connectAttempt_run this attempt m n)
      as (added2 & m2 & n2 & o2 & Hrun2 & _ & _ & _ & _ & _ & Hcase);
    rewrite Hrun in Hrun2; injection Hrun2 as <- <- <-;
    rewrite Hrun in Hloop.
  - destruct o1 as [[|]|e1]; try discriminate Hloop.
    injection Hloop as <- <- <-.
    destruct (Hframe ltac:(discriminate)) as [Hch Hconn].
    rewrite Nat.add_0_r. repeat split; try assumption.
    + intros c Hc. rewrite Hc in Hconn. exact Hconn.
    + intros Hall. destruct (Hall (dialed n)) as [r Hr].
      rewrite Hr in Hconn. exact Hconn.
  - destruct o1 as [[|]|e1]; try discriminate Hloop.
    + destruct (Hframe ltac:(discriminate)) as [Hch Hconn].
      destruct (IH (attempt + 1) m1 n1 e m' n' ltac:(lia) Hloop)
        as (Hch' & Hlast & Hnone).
      repeat split.
      * congruence.
      * intros c Hc. apply Hlast. rewrite Hdial, Hdialed.
        replace (S (dialed n) + turns)%nat with (dialed n + S turns)%nat by lia.
        exact Hc.
      * intros Hall. rewrite Hnone.
        -- destruct (Hall (dialed n)) as [r Hr]. rewrite Hr in Hconn.
           exact Hconn.
        -- intros k. rewrite Hdial. apply Hall.
    + exfalso.
      destruct (attemptResult n (dialed n)) as [e0|[c ch]].
      * destruct (Z.eqb_spec attempt (reconnectAttempts this)) as [Heq|Hne];
          [lia |]. destruct Hcase as [Hcase _]. discriminate Hcase.
      * destruct Hcase as [Hcase _]. discriminate Hcase.
Qed.

(** X10.  A failed [connect] (every attempt failed, [reconnectAttempts >= 0])
    never touches the channel reference and invokes no callback; the
    connection reference is the one it found when every [amqplib.connect]
    was refused, but when the last attempt obtained a connection and only
    [createChannel] failed, that connection stays referenced although the
    state is [disconnected]. *)
Theorem failed_connect_frame m n e :
  0 <= reconnectAttempts this ->
  fst (connect this (m, n)) = Thrown e ->
  let m' := fst (snd (connect this (m, n))) in
  let n' := snd (snd (connect this (m, n))) in
  channel m' = channel m /\
  currentState m' = disconnected /\
  callbacksIn (eventsSince n n') = [] /\
  (forall c,
     dial n (dialed n + Z.to_nat (reconnectAttempts this)) = inr c ->
     connection m' = Some c) /\
  ((forall k, exists refused, dial n k = inl refused) ->
   connection m' = connection m).
Proof.
  intros HR Hthrown.
  destruct (connect this (m, n)) as [o [m' n']] eqn:Hrun.
  simpl in Hthrown. subst o. simpl.
  destruct (connect_run this m n _ m' n' HR Hrun)
    as (failed & added & _ & _ & _ & _ & _ & _ & _ & Hstate & _).
  unfold connect, connectBegin in Hrun.
  replace (Z.to_nat (reconnectAttempts this + 1))
    with (S (Z.to_nat (reconnectAttempts this))) in Hrun by lia.
  unfold bind at 1 2 in Hrun. simpl in Hrun.
  destruct (connectLoop_no_callbacks
              (S (Z.to_nat (reconnectAttempts this))) 0 _ _ _ _ _ Hrun)
    as (added' & Ht & Hcb).
  apply (connectLoop_failure_frame (Z.to_nat (reconnectAttempts this)) 0)
    in Hrun as (Hch & Hlast & Hnone); [| lia].
  simpl in *.
  repeat split; try assumption.
  unfold eventsSince. rewrite Ht, <- app_assoc, drop_app_length.
  simpl. exact Hcb.
Qed.

(** *** Reconnection *)



Lemma eventsSince_app n n' l :
  trace n' = trace n ++ l -> eventsSince n n' = l.
Proof. intros H. unfold eventsSince. rewrite H. apply drop_app_length. Qed.



(** *** No attempt at all *)

(** X12.  With a negative [reconnectAttempts] the loop of [connect] has no
    turn: [connect] makes no connection attempt, returns without an error
    and leaves the state [connecting], the references as they were. *)
Theorem connect_without_attempts m n :
  reconnectAttempts this < 0 ->
  let run := connect this (m, n) in
  fst run = Returned tt /\
  currentState (fst (snd run)) = connecting /\
  connection (fst (snd run)) = connection m /\
  channel (fst (snd run)) = channel m /\
  dialed (snd (snd run)) = dialed n /\
  eventsSince n (snd (snd run)) = [EvLog Info "Connecting to RabbitMQ"] /\
  fst (getChannel (snd run)) = fst (getChannel (m, n)).
Proof.
  intros HR. unfold connect, connectBegin.
  replace (Z.to_nat (reconnectAttempts this + 1)) with 0%nat by lia.
  cbv zeta. unfold bind, setState, log, event, modify. simpl.
  repeat split.
  - apply eventsSince_app. reflexivity.
  - rewrite !getChannel_run. simpl. destruct (channel m); reflexivity.
Qed.

(** *** The time spent waiting *)

Lemma sleepTotal_app l1 l2 : sleepTotal (l1 ++ l2) = sleepTotal l1 + sleepTotal l2.
Proof.
  induction l1 as [|ev l1 IH]; simpl; [reflexivity |].
  destruct ev; rewrite IH; lia.
Qed.

Lemma sleepTotal_timing l : sleepTotal (timing l) = sleepTotal l.
Proof.
  induction l as [|ev l IH]; simpl; [reflexivity |].
  destruct ev; simpl; rewrite ?IH; reflexivity.
Qed.

Lemma sleepTotal_schedule u d failed : forall attempt,
  0 <= attempt ->
  sleepTotal (schedule u d attempt failed)
  = d * 2 ^ attempt * (2 ^ Z.of_nat failed - 1).
Proof.
  induction failed as [|failed IH]; intros attempt Ha.
  - simpl. lia.
  - cbn [schedule sleepTotal]. rewrite IH by lia.
    rewrite Nat2Z.inj_succ, !Z.pow_succ_r, Z.pow_add_r by lia.
    ring.
Qed.

(** X13.  With an integer [reconnectAttempts] from 0 to 970 and a safe
    integer [reconnectDelayMs] (the range [backoffExact], on which the
    source computes the delays exactly), the delays that [connect] passes to
    [sleep] add up to [reconnectDelayMs * (2^f - 1)] when [f] attempts fail
    before the one that ends the call; when every attempt fails this is
    [reconnectDelayMs * (2^reconnectAttempts - 1)], 31000 ms with the
    defaults of 5 retries and 1000 ms, which are in that range. *)
Theorem connect_total_backoff m n :
  0 <= reconnectAttempts this ->
  backoffExact this = true ->
  let run := connect this (m, n) in
  let n' := snd (snd run) in
  exists failed,
    dialed n' = (dialed n + S failed)%nat /\
    Z.of_nat failed <= reconnectAttempts this /\
    sleepTotal (eventsSince n n')
    = reconnectDelayMs this * (2 ^ Z.of_nat failed - 1) /\
    (forall e, fst run = Thrown e ->
       sleepTotal (eventsSince n n')
       = reconnectDelayMs this * (2 ^ reconnectAttempts this - 1)) /\
    DEFAULT_RECONNECT_DELAY_MS * (2 ^ DEFAULT_RECONNECT_ATTEMPTS - 1) = 31000 /\
    (forall options,
       optReconnectAttempts options = None ->
       optReconnectDelayMs options = None ->
       backoffExact (newConfig options) = true).
Proof.
  intros HR _ run n'.
  destruct (connect this (m, n)) as [o [m1 n1]] eqn:Hrun.
  unfold run, n'. simpl. clear run n'.
  destruct (connect_run this m n o m1 n1 HR Hrun)
    as (failed & added & Hle & Htrace & Htiming & Hdialed & _ & _ & Hend).
  exists failed.
  assert (Htotal : sleepTotal (eventsSince n n1)
                   = reconnectDelayMs this * (2 ^ Z.of_nat failed - 1)).
  { rewrite (eventsSince_app n n1 added Htrace).
    rewrite <- sleepTotal_timing, Htiming, sleepTotal_schedule by lia.
    rewrite Z.pow_0_r. ring. }
  repeat split; try assumption.
  - intros e ->. destruct Hend as (Hlast & _).
    rewrite Htotal, Hlast. reflexivity.
  - intros options Ha Hd. unfold newConfig, backoffExact. simpl.
    rewrite Ha, Hd. reflexivity.
Qed.

(** *** Closing again *)

Ltac close_cases m n :=
  unfold close, tryFinally, bind, gets, log, event, modify, channel_close,
    connection_close, setChannel, setConnection, setState, ret; simpl;
  destruct (channel m) as [ch|] eqn:Hch; simpl;
    [destruct (channelCloses n ch) as [ech|] eqn:Hcc; simpl |];
    try (destruct (connection m) as [c|] eqn:Hconn; simpl;
         [destruct (connectionCloses n c) as [ec|] eqn:Hnc; simpl |]).

Ltac since := apply eventsSince_app; unfold record; simpl;
              rewrite <- ?app_assoc; reflexivity.

(** A [close] on a manager without references only logs. *)
Lemma close_without_references m n :
  channel m = None -> connection m = None ->
  fst (close (m, n)) = Returned tt /\
  List.filter isNetworkCall (eventsSince n (snd (snd (close (m, n))))) = [] /\
  connection (fst (snd (close (m, n)))) = None /\
  channel (fst (snd (close (m, n)))) = None /\
  currentState (fst (snd (close (m, n)))) = disconnected.
Proof.
  intros Hch Hconn.
  unfold close, tryFinally, bind, gets, log, event, modify, setState, ret.
  simpl. rewrite Hch, Hconn. simpl.
  repeat split; try assumption.
  rewrite (eventsSince_app n _ [EvLog Info "Closing RabbitMQ connection";
                                EvLog Info "RabbitMQ connection closed"]);
    [reflexivity |].
  unfold record. simpl. rewrite <- app_assoc. reflexivity.
Qed.

Lemma close_returned m n :
  fst (close (m, n)) = Returned tt ->
  connection (fst (snd (close (m, n)))) = None /\
  channel (fst (snd (close (m, n)))) = None /\
  currentState (fst (snd (close (m, n)))) = disconnected /\
  List.filter isNetworkCall (eventsSince n (snd (snd (close (m, n)))))
  = match channel m with Some ch => [EvChannelClose ch] | None => [] end
    ++ match connection m with Some c => [EvConnectionClose c] | None => [] end.
Proof.
  close_cases m n; intros Hret; try discriminate Hret;
    (split; [first [reflexivity | assumption] |]);
    (split; [first [reflexivity | assumption] |]);
    (split; [reflexivity |]);
    (erewrite eventsSince_app;
     [| unfold record; simpl; rewrite <- ?app_assoc; reflexivity]);
    reflexivity.
Qed.

(** X14.  Once a [close] has returned, the manager holds no connection and
    no channel and is [disconnected], having closed the channel and then the
    connection it held; a further [close] - like a [close] on a manager that
    never connected - reaches neither the channel nor the connection, changes
    nothing and returns. *)
Theorem close_is_idempotent m n :
  fst (close (m, n)) = Returned tt ->
  let s1 := snd (close (m, n)) in
  let again := close s1 in
  connection (fst s1) = None /\
  channel (fst s1) = None /\
  currentState (fst s1) = disconnected /\
  List.filter isNetworkCall (eventsSince n (snd s1))
  = match channel m with Some ch => [EvChannelClose ch] | None => [] end
    ++ match connection m with Some c => [EvConnectionClose c] | None => [] end /\
  fst again = Returned tt /\
  fst (snd again) = fst s1 /\
  List.filter isNetworkCall (eventsSince (snd s1) (snd (snd again))) = [] /\
  fst (close (newManager, n)) = Returned tt /\
  List.filter isNetworkCall
    (eventsSince n (snd (snd (close (newManager, n))))) = [].
Proof.
  intros Hret. cbv zeta.
  destruct (close_returned m n Hret) as (Hconn & Hch & Hst & Hcalls).
  destruct (close (m, n)) as [o [m1 n1]]. simpl in *.
  destruct (close_without_references m1 n1 Hch Hconn)
    as (Hret2 & Hcalls2 & Hconn2 & Hch2 & Hst2).
  destruct (close_without_references newManager n eq_refl eq_refl)
    as (Hret0 & Hcalls0 & _).
  repeat split; try assumption.
  destruct m1 as [c1 ch1 st1 eh1]. simpl in *. subst c1 ch1 st1.
  unfold close, tryFinally, bind, gets, log, event, modify, setState, ret.
  reflexivity.
Qed.

Lemma close_connection_only m n c :
  channel m = None -> connection m = Some c ->
  List.filter isNetworkCall (eventsSince n (snd (snd (close (m, n)))))
  = [EvConnectionClose c].
Proof.
  intros Hch Hconn.
  unfold close, tryFinally, bind, gets, log, event, modify,
    connection_close, setConnection, setState, ret. simpl.
  rewrite Hch. simpl. rewrite Hconn. simpl.
  destruct (connectionCloses n c); simpl;
    (erewrite eventsSince_app;
     [| unfold record; simpl; rewrite <- ?app_assoc; reflexivity]);
    reflexivity.
Qed.

(** X15.  The two ways [close] fails.  When [channel.close()] throws,
    [connection.close()] is not attempted and both references are kept;
    when [channel.close()] succeeds (or there is no channel) and
    [connection.close()] throws, the channel reference is cleared and the
    connection reference is kept.  In both cases the state is [disconnected],
    the error thrown is the one of the failed call, and a later [close]
    starts again with the references that are left - so after a failed
    [connection.close()] it closes the connection only. *)
Theorem close_failure_modes m n :
  (forall ch e,
     channel m = Some ch ->
     channelCloses n ch = Some e ->
     let s1 := snd (close (m, n)) in
     fst (close (m, n)) = Thrown e /\
     channel (fst s1) = Some ch /\
     connection (fst s1) = connection m /\
     currentState (fst s1) = disconnected /\
     List.filter isNetworkCall (eventsSince n (snd s1)) = [EvChannelClose ch]) /\
  (forall c e,
     (forall ch, channel m = Some ch -> channelCloses n ch = None) ->
     connection m = Some c ->
     connectionCloses n c = Some e ->
     let s1 := snd (close (m, n)) in
     fst (close (m, n)) = Thrown e /\
     channel (fst s1) = None /\
     connection (fst s1) = Some c /\
     currentState (fst s1) = disconnected /\
     List.filter isNetworkCall (eventsSince (snd s1) (snd (snd (close s1))))
     = [EvConnectionClose c]).
Proof.
  split.
  - intros ch e Hch He. cbv zeta.
    unfold close, tryFinally, bind, gets, log, event, modify, channel_close,
      setState, ret. simpl. rewrite Hch. simpl. rewrite He. simpl.
    repeat split; try assumption.
    rewrite (eventsSince_app n _ [EvLog Info "Closing RabbitMQ connection";
                                  EvChannelClose ch]); [reflexivity |].
    unfold record. simpl. rewrite <- app_assoc. reflexivity.
  - intros c e Hok Hconn He. cbv zeta.
    assert (Hfirst : fst (close (m, n)) = Thrown e /\
                     channel (fst (snd (close (m, n)))) = None /\
                     connection (fst (snd (close (m, n)))) = Some c /\
                     currentState (fst (snd (close (m, n)))) = disconnected).
    { unfold close, tryFinally, bind, gets, log, event, modify, channel_close,
        connection_close, setChannel, setConnection, setState, ret. simpl.
      destruct (channel m) as [ch|] eqn:Hch; simpl;
        [rewrite (Hok ch eq_refl); simpl |];
        rewrite Hconn; simpl; rewrite He; simpl;
        repeat split; assumption. }
    destruct Hfirst as (Hthrown & Hch1 & Hconn1 & Hst1).
    repeat split; try assumption.
    destruct (close (m, n)) as [o [m1 n1]]. simpl in *.
    apply close_connection_only; assumption.
Qed.

End ConnectionExtras.

(** ** The publisher *)

Section PublisherRuns.

Import DlqService.
Import BasePublisher.

Variable JSON_stringify : Json -> string.
Variable Buffer_from : string -> Buffer.
Variable exchange : string.

Abbreviation publish' := (publish JSON_stringify Buffer_from exchange).
Abbreviation publishAll' := (publishAll JSON_stringify Buffer_from exchange).
Abbreviation message' := (publishedMessage JSON_stringify Buffer_from exchange).
Abbreviation assertion := (AssertExchange exchange "topic" true None).

Lemma publish_healthy asserted w routingKey content :
  healthy w ->
  exists w',
    publish' routingKey content (asserted, w) = (Returned tt, (true, w')) /\
    healthy w' /\
    calls w' = calls w ++ (if asserted then [] else [assertion])
                       ++ [message' routingKey content].
Proof.
  intros H.
  unfold publish, assertExchangeOnce, onChannel, setExchangeAsserted, bind,
    gets, modify, channelCall, log, ret.
  destruct asserted; simpl; repeat (rewrite ?H; simpl);
    eexists; (split; [reflexivity |]); (split; [exact H |]);
    simpl; rewrite <- ?app_assoc; reflexivity.
Qed.

Lemma publishAll_healthy items : forall asserted w,
  healthy w ->
  exists w',
    publishAll' items (asserted, w)
    = (Returned tt, (match items with [] => asserted | _ => true end, w')) /\
    calls w' = calls w
               ++ (match items with
                   | [] => []
                   | _ => if asserted then [] else [assertion]
                   end)
               ++ map (fun '(routingKey, content) => message' routingKey content)
                    items.
Proof.
  induction items as [|[routingKey content] items IH]; intros asserted w H.
  - exists w. split; [reflexivity |]. simpl. symmetry. apply app_nil_r.
  - simpl publishAll. unfold bind.
    destruct (publish_healthy asserted w routingKey content H)
      as (w1 & Hrun & H1 & Hcalls).
    rewrite Hrun.
    destruct (IH true w1 H1) as (w' & Hrest & Hcalls').
    exists w'. split.
    + rewrite Hrest. destruct items; reflexivity.
    + rewrite Hcalls', Hcalls.
      destruct items as [|item items]; destruct asserted; simpl;
        rewrite <- ?app_assoc; reflexivity.
Qed.

(** X16.  On a broker that accepts the calls, any series of [publish] calls
    on a new publisher, each awaited before the next, asserts the exchange
    exactly once, before the first message, and then publishes the messages in the order of the calls, each
    to the publisher's exchange under its own routing key with the
    serialised content as payload; a publisher whose exchange is asserted
    never asserts it again. *)
Theorem publisher_asserts_once items w :
  healthy w ->
  let run := publishAll' items (false, w) in
  let again := publishAll' items (true, w) in
  fst run = Returned tt /\
  callsMade w (snd (snd run))
  = match items with
    | [] => []
    | _ => assertion
           :: map (fun '(routingKey, content) => message' routingKey content)
                items
    end /\
  fst (snd run) = match items with [] => false | _ => true end /\
  callsMade w (snd (snd again))
  = map (fun '(routingKey, content) => message' routingKey content) items.
Proof.
  intros H. cbv zeta.
  destruct (publishAll_healthy items false w H) as (w1 & Hrun & Hcalls).
  destruct (publishAll_healthy items true w H) as (w2 & Hrun2 & Hcalls2).
  rewrite Hrun, Hrun2. simpl.
  repeat split.
  - unfold callsMade. rewrite Hcalls, drop_app_length.
    destruct items; reflexivity.
  - unfold callsMade. rewrite Hcalls2, drop_app_length.
    destruct items; reflexivity.
Qed.

(** X17.  When the assertion of the exchange throws, [publish] throws the
    same error, publishes nothing and leaves the exchange unasserted, so the
    next [publish] asserts again; when the assertion was accepted and the
    channel's [publish] throws, the error is thrown and the exchange stays
    asserted. *)
Theorem publisher_failures routingKey content w e :
  (faults w (length (calls w)) = Some e ->
   let run := publish' routingKey content (false, w) in
   fst run = Thrown e /\
   fst (snd run) = false /\
   callsMade w (snd (snd run)) = [assertion] /\
   forall routingKey' content',
     firstCall (snd (snd run))
       (snd (snd (publish' routingKey' content' (snd run))))
     = Some assertion) /\
  (faults w (length (calls w)) = None ->
   faults w (S (length (calls w))) = Some e ->
   let run := publish' routingKey content (false, w) in
   fst run = Thrown e /\
   fst (snd run) = true /\
   callsMade w (snd (snd run)) = [assertion; message' routingKey content]).
Proof.
  split.
  - intros He. cbv zeta.
    unfold publish, assertExchangeOnce, onChannel, setExchangeAsserted, bind,
      gets, modify, channelCall, log, ret. simpl. rewrite He. simpl.
    repeat split.
    + apply callsMade_app. reflexivity.
    + intros routingKey' content'. rewrite firstCall_lookup. simpl.
      repeat match goal with
             | |- context [match faults w ?k with _ => _ end] =>
                 destruct (faults w k); simpl
             end;
        rewrite ?app_assoc; rewrite <- ?(app_assoc (calls w ++ [assertion]));
        apply (list_lookup_middle (calls w ++ [assertion]) _ assertion);
        reflexivity.
  - intros Hok He. cbv zeta.
    unfold publish, assertExchangeOnce, onChannel, setExchangeAsserted, bind,
      gets, modify, channelCall, log, ret. simpl. rewrite Hok. simpl.
    rewrite length_app. simpl. rewrite Nat.add_1_r, He. simpl.
    repeat split. apply callsMade_app. simpl. rewrite <- app_assoc. reflexivity.
Qed.

End PublisherRuns.

(** ** The logger factory *)

Section LoggerFacts.

Import Logger.

(** X18.  [buildTransportTargets] always returns one console target, last:
    [pino-pretty] when [pretty] is set and the standard output otherwise;
    it is preceded by the Loki target exactly when a Loki configuration is
    given.  The list is never empty, so [createLogger] always hands a
    transport to [pino], with level [info] unless a level is given. *)
Theorem transport_targets_shape (opts : LoggerOptions) :
  let targets := buildTransportTargets opts in
  let console :=
    match pretty opts with
    | Some true => {| target := "pino-pretty"; options := PrettyOptions true |}
    | _ => {| target := "pino/file"; options := FileOptions 1 |}
    end in
  targets
  = match loki opts with
    | Some l => [{| target := "pino-loki";
                    options := LokiOptions (host l) (lokiLabels opts l) true 5 |};
                 console]
    | None => [console]
    end /\
  last targets = Some console /\
  (length targets = 2%nat <-> is_Some (loki opts)) /\
  (length targets = 1%nat <-> loki opts = None) /\
  transport (createLogger opts) = Some targets /\
  pinoLevel (createLogger opts) = default Info (level opts).
Proof.
  unfold createLogger, buildTransportTargets.
  destruct (loki opts) as [l|]; destruct (pretty opts) as [[|]|]; simpl;
    repeat split; try reflexivity; try discriminate; eauto;
    try (intros [x Hx]; discriminate Hx).
Qed.

(** X19.  The labels of the Loki target are [job] and [environment] from
    the logger options together with the configured labels, and a configured
    label wins over [job] and [environment] when it has the same name. *)
Theorem loki_labels_override (opts : LoggerOptions) (l : LokiConfig) key :
  lokiLabels opts l !! key
  = match default ∅ (labels l) !! key with
    | Some v => Some v
    | None =>
        if String.eqb key "environment" then Some (environment opts)
        else if String.eqb key "job" then Some (job opts)
        else None
    end.
Proof.
  unfold lokiLabels. rewrite lookup_union.
  destruct (default ∅ (labels l) !! key) as [v|]; simpl.
  - destruct (_ !! key); reflexivity.
  - destruct (String.eqb_spec key "environment") as [->|Hne].
    + rewrite lookup_insert_eq. reflexivity.
    + rewrite lookup_insert_ne by congruence.
      destruct (String.eqb_spec key "job") as [->|Hne'].
      * rewrite lookup_insert_eq. reflexivity.
      * rewrite lookup_insert_ne by congruence. rewrite lookup_empty.
        reflexivity.
Qed.

End LoggerFacts.

(** ** Starting and stopping a consumer *)

Section LifecycleRuns.

Import ConsumerLifecycle.

Variable this : Consumer.
Variable dlqSetup : M World unit.

Abbreviation start' := (start this dlqSetup).
Abbreviation subscription := (Consume (queue this) false).

Ltac run_lifecycle :=
  unfold start, stop, onWorld, call, consume, setConsumerTag,
    ConsumerLifecycle.log, bind, gets, modify, ret.

Ltac next_call :=
  simpl; rewrite ?length_app; simpl; rewrite ?Nat.add_1_r;
  match goal with
  | |- context [match faults ?w ?k with _ => _ end] =>
      let E := fresh "E" in destruct (faults w k) eqn:E
  end.

Lemma accepts_topology w :
  accepts 4 w ->
  faults w (length (calls w)) = None /\
  faults w (S (length (calls w))) = None /\
  faults w (S (S (length (calls w)))) = None /\
  faults w (S (S (S (length (calls w))))) = None.
Proof.
  intros H.
  pose proof (H 0%nat ltac:(lia)) as H0.
  pose proof (H 1%nat ltac:(lia)) as H1.
  pose proof (H 2%nat ltac:(lia)) as H2.
  pose proof (H 3%nat ltac:(lia)) as H3.
  rewrite Nat.add_0_r in H0.
  replace (length (calls w) + 1)%nat with (S (length (calls w))) in H1 by lia.
  replace (length (calls w) + 2)%nat
    with (S (S (length (calls w)))) in H2 by lia.
  replace (length (calls w) + 3)%nat
    with (S (S (S (length (calls w))))) in H3 by lia.
  auto.
Qed.

(** X20.  When the broker accepts the prefetch, the exchange, the queue and
    the binding, [start] has made exactly these four calls, in this order,
    when it calls the DLQ handler's [setup]; it subscribes to the queue, with
    acknowledgements, only after [setup] has returned, and records the
    consumer tag of the reply.  When [setup] or the subscription throws,
    [start] throws the same error and the consumer tag is unchanged; after a
    failed [setup] nothing is subscribed. *)
Theorem start_subscribes_last tag w :
  accepts 4 w ->
  let w1 := afterCalls (topology this) w in
  calls w1 = calls w ++ topology this /\
  match dlqSetup w1 with
  | (Thrown e, w2) => start' (tag, w) = (Thrown e, (tag, w2))
  | (Returned _, w2) =>
      match faults w2 (length (calls w2)) with
      | Some e =>
          start' (tag, w) = (Thrown e, (tag, addCall subscription w2))
      | None =>
          exists w3,
            start' (tag, w)
            = (Returned tt, (Some (tags w2 (length (calls w2))), w3)) /\
            calls w3 = calls w2 ++ [subscription]
      end
  end.
Proof.
  intros H. apply accepts_topology in H as (H0 & H1 & H2 & H3).
  cbv zeta. split.
  - unfold afterCalls, topology, addCall. simpl.
    rewrite <- !app_assoc. reflexivity.
  - run_lifecycle. unfold afterCalls, topology. simpl.
    rewrite H0. simpl. rewrite length_app. simpl. rewrite Nat.add_1_r, H1.
    simpl. rewrite !length_app. simpl. rewrite !Nat.add_1_r, H2.
    simpl. rewrite !length_app. simpl. rewrite !Nat.add_1_r, H3.
    simpl.
    match goal with
    | |- context [dlqSetup ?x] => destruct (dlqSetup x) as [[[]|e] w2]
    end; simpl; [| reflexivity].
    destruct (faults w2 (length (calls w2))) as [e|]; simpl; [reflexivity |].
    eexists. split; reflexivity.
Qed.

(** X21.  When the broker rejects one of the four calls that declare the
    prefetch, the exchange, the queue and the binding, [start] throws the
    broker's error right there: the later declarations are not attempted,
    the DLQ handler's [setup] is not run, nothing is subscribed, and the
    consumer tag is unchanged. *)
Theorem start_stops_at_rejected_call tag w i e :
  (i < 4)%nat ->
  accepts i w ->
  faults w (length (calls w) + i) = Some e ->
  exists w',
    start' (tag, w) = (Thrown e, (tag, w')) /\
    calls w' = calls w ++ take (S i) (topology this) /\
    logs w' = logs w.
Proof.
  intros Hi Hacc He.
  assert (Hpre : forall j, (j < i)%nat ->
            faults w (length (calls w) + j) = None) by exact Hacc.
  destruct i as [|[|[|[|i]]]]; [| | | | lia].
  - rewrite Nat.add_0_r in He.
    run_lifecycle. simpl. rewrite He. simpl.
    eexists. split; [reflexivity |]. split; reflexivity.
  - pose proof (Hpre 0%nat ltac:(lia)) as H0. rewrite Nat.add_0_r in H0.
    rewrite Nat.add_1_r in He.
    run_lifecycle. simpl. rewrite H0. simpl.
    rewrite length_app. simpl. rewrite Nat.add_1_r, He. simpl.
    eexists. split; [reflexivity |]. split; [| reflexivity].
    simpl. rewrite <- !app_assoc. reflexivity.
  - pose proof (Hpre 0%nat ltac:(lia)) as H0. rewrite Nat.add_0_r in H0.
    pose proof (Hpre 1%nat ltac:(lia)) as H1. rewrite Nat.add_1_r in H1.
    replace (length (calls w) + 2)%nat
      with (S (S (length (calls w)))) in He by lia.
    run_lifecycle. simpl. rewrite H0. simpl.
    rewrite length_app. simpl. rewrite Nat.add_1_r, H1. simpl.
    rewrite !length_app. simpl. rewrite !Nat.add_1_r, He. simpl.
    eexists. split; [reflexivity |]. split; [| reflexivity].
    simpl. rewrite <- !app_assoc. reflexivity.
  - pose proof (Hpre 0%nat ltac:(lia)) as H0. rewrite Nat.add_0_r in H0.
    pose proof (Hpre 1%nat ltac:(lia)) as H1. rewrite Nat.add_1_r in H1.
    pose proof (Hpre 2%nat ltac:(lia)) as H2.
    replace (length (calls w) + 2)%nat
      with (S (S (length (calls w)))) in H2 by lia.
    replace (length (calls w) + 3)%nat
      with (S (S (S (length (calls w))))) in He by lia.
    run_lifecycle. simpl. rewrite H0. simpl.
    rewrite length_app. simpl. rewrite Nat.add_1_r, H1. simpl.
    rewrite !length_app. simpl. rewrite !Nat.add_1_r, H2. simpl.
    rewrite !length_app. simpl. rewrite !Nat.add_1_r, He. simpl.
    eexists. split; [reflexivity |]. split; [| reflexivity].
    simpl. rewrite <- !app_assoc. reflexivity.
Qed.

(** X22.  [stop] cancels the subscription exactly when a non-empty consumer
    tag is recorded, with that tag, and makes no other call.  When it
    returns, a second [stop] returns without any call; when the
    cancellation throws, [stop] throws the same error and the tag is kept.
    A consumer that was never started is stopped without any call. *)
Theorem stop_cancels_recorded_tag tag w :
  let run := stop (tag, w) in
  let w' := snd (snd run) in
  callsSince w w'
  = match tag with
    | Some t => if truthy t then [Cancel t] else []
    | None => []
    end /\
  (fst run = Returned tt ->
   let again := stop (snd run) in
   fst again = Returned tt /\ callsSince w' (snd (snd again)) = []) /\
  (forall e, fst run = Thrown e ->
     fst (snd run) = tag /\
     faults w (length (calls w)) = Some e /\
     exists t, tag = Some t /\ truthy t = true).
Proof.
  cbv zeta. unfold callsSince.
  destruct tag as [t|]; [destruct (truthy t) eqn:Ht |].
  - run_lifecycle. simpl. rewrite Ht. simpl.
    destruct (faults w (length (calls w))) as [e|] eqn:E; simpl.
    + split; [apply drop_app_length |].
      split; [discriminate |].
      intros e' He'. injection He' as <-. eauto.
    + split; [apply drop_app_length |].
      split; [| discriminate].
      intros _. split; [reflexivity |]. apply drop_all.
  - run_lifecycle. simpl. rewrite Ht. simpl. rewrite Ht. simpl.
    split; [apply drop_all |].
    split; [| discriminate].
    intros _. split; [reflexivity |]. apply drop_all.
  - run_lifecycle. simpl.
    split; [apply drop_all |].
    split; [| discriminate].
    intros _. split; [reflexivity |]. apply drop_all.
Qed.

(** X23.  Stopping a consumer that was started cancels the subscription
    that [start] made: the tag passed to [cancel] is the one the broker
    returned for the [consume] call of [start]. *)
Theorem stop_cancels_started_subscription tag w s t :
  start' (tag, w) = (Returned tt, s) ->
  fst s = Some t ->
  truthy t = true ->
  callsSince (snd s) (snd (snd (stop s))) = [Cancel t] /\
  exists k,
    calls (snd s) !! k = Some subscription /\
    faults (snd s) k = None /\
    tags (snd s) k = t /\
    S k = length (calls (snd s)).
Proof.
  intros Hrun Htag Ht.
  split.
  - destruct s as [tag' w']. simpl in Htag. subst tag'.
    unfold callsSince. run_lifecycle. simpl. rewrite Ht. simpl.
    destruct (faults w' (length (calls w'))); simpl; apply drop_app_length.
  - revert Hrun. run_lifecycle.
    next_call; [discriminate |].
    next_call; [discriminate |].
    next_call; [discriminate |].
    next_call; [discriminate |].
    simpl.
    match goal with
    | |- context [dlqSetup ?x] => destruct (dlqSetup x) as [[[]|e] w2]
    end; simpl; [| discriminate].
    destruct (faults w2 (length (calls w2))) as [e|] eqn:E5; simpl;
      [discriminate |].
    intros Hrun. injection Hrun as <-. simpl in Htag.
    injection Htag as <-. simpl.
    exists (length (calls w2)).
    split; [apply list_lookup_middle; reflexivity |].
    split; [exact E5 |].
    split; [reflexivity |].
    rewrite length_app. simpl. lia.
Qed.

End LifecycleRuns.

(** ** Lifecycle, publisher and handler samples *)

Section HandlerSamples.

Import DlqService.
Import DlqPlans.

Abbreviation sampleHandleMessage :=
  (BaseConsumer.handleMessage Sample.JSON_parse Sample.Buffer_toString
     Sample.dlqHandler).

Lemma setup_assertions_witness :
  healthy Sample.world /\
  callsMade Sample.world (snd (setup Sample.handler Sample.world))
  = setupPlan Sample.handler /\
  fst (setup Sample.handler (snd (setup Sample.handler Sample.world)))
  = Returned tt.
Proof.
  assert (H : healthy Sample.world) by (intros k; reflexivity).
  split; [exact H |].
  destruct (setup_assertions Sample.handler Sample.world)
    as (_ & _ & Hhealthy).
  destruct (Hhealthy H) as (_ & Hcalls & Hagain & _).
  split; [exact Hcalls | exact Hagain].
Defined.

Lemma handlers_stop_at_first_rejection_witness :
  retryCountValid (headersOf (Sample.retriedMessage 3)) = true /\
  callsMade (Sample.brokenWorld 0)
    (snd (handleRetryableError Sample.JSON_parse Sample.JSON_stringify
            Sample.Buffer_toString Sample.Buffer_from Sample.handler
            (Sample.retriedMessage 3) Sample.dbTimeout (Sample.brokenWorld 0)))
  = attempted (faults (Sample.brokenWorld 0)) 0
      (handlerPlan Sample.JSON_parse Sample.JSON_stringify
         Sample.Buffer_toString Sample.Buffer_from Sample.handler true
         (Sample.retriedMessage 3) Sample.dbTimeout (Sample.brokenWorld 0)) /\
  existsb isNack
    (callsMade (Sample.brokenWorld 0)
       (snd (handleRetryableError Sample.JSON_parse Sample.JSON_stringify
               Sample.Buffer_toString Sample.Buffer_from Sample.handler
               (Sample.retriedMessage 3) Sample.dbTimeout
               (Sample.brokenWorld 0))))
  = false.
Proof.
  assert (H : retryCountValid (headersOf (Sample.retriedMessage 3)) = true)
    by (vm_compute; reflexivity).
  split; [exact H |].
  destruct (handlers_stop_at_first_rejection Sample.JSON_parse
              Sample.JSON_stringify Sample.Buffer_toString Sample.Buffer_from
              Sample.handler (Sample.retriedMessage 3) Sample.dbTimeout
              (Sample.brokenWorld 0) H)
    as (Hcalls & _ & _ & _ & _ & _ & _ & _ & Hnack & _).
  split; [exact Hcalls | exact Hnack].
Defined.

Lemma nonRetryable_never_delays_witness :
  headersOf (Sample.retriedMessage 3) !! "x-delay" = None /\
  retryCountTyped (headersOf (Sample.retriedMessage 3)) = true /\
  fst (handleNonRetryableError Sample.JSON_parse Sample.JSON_stringify
         Sample.Buffer_toString Sample.Buffer_from Sample.handler
         (Sample.retriedMessage 3) Sample.dbTimeout Sample.world)
  = Returned tt /\
  (exists alert,
     List.filter isPublish
       (callsMade Sample.world
          (snd (handleNonRetryableError Sample.JSON_parse
                  Sample.JSON_stringify Sample.Buffer_toString
                  Sample.Buffer_from Sample.handler (Sample.retriedMessage 3)
                  Sample.dbTimeout Sample.world)))
     = [dlqMessage Sample.handler (Sample.retriedMessage 3) Sample.dbTimeout
          3 (HStr "2024-01-01T00:00:00.000Z");
        alertMessage Sample.JSON_stringify Sample.Buffer_from Sample.handler
          alert]) /\
  Forall (fun c => publishedHeader "x-delay" c = None)
    (callsMade Sample.world
       (snd (handleNonRetryableError Sample.JSON_parse Sample.JSON_stringify
               Sample.Buffer_toString Sample.Buffer_from Sample.handler
               (Sample.retriedMessage 3) Sample.dbTimeout Sample.world))).
Proof.
  assert (H : headersOf (Sample.retriedMessage 3) !! "x-delay" = None)
    by (vm_compute; reflexivity).
  assert (Ht : retryCountTyped (headersOf (Sample.retriedMessage 3)) = true)
    by (vm_compute; reflexivity).
  assert (Hr : fst (handleNonRetryableError Sample.JSON_parse
                      Sample.JSON_stringify Sample.Buffer_toString
                      Sample.Buffer_from Sample.handler
                      (Sample.retriedMessage 3) Sample.dbTimeout Sample.world)
               = Returned tt)
    by (vm_compute; reflexivity).
  split; [exact H | split; [exact Ht | split; [exact Hr |]]].
  destruct (nonRetryable_never_delays Sample.JSON_parse Sample.JSON_stringify
              Sample.Buffer_toString Sample.Buffer_from Sample.handler
              (Sample.retriedMessage 3) Sample.dbTimeout Sample.world)
    as (_ & Hdelay & _ & Hpublishes).
  split; [exact (Hpublishes Hr Ht) | exact (Hdelay H)].
Defined.

Lemma retry_chain_bounded_witness :
  retryCountValid (headersOf (Sample.retriedMessage 3)) = true /\
  maxRetries Sample.handler <= MAX_SAFE_INTEGER /\
  retryChain Sample.JSON_parse Sample.JSON_stringify Sample.Buffer_toString
    Sample.Buffer_from Sample.handler 1 (Sample.retriedMessage 3)
    Sample2.redelivered /\
  retryCountValid (headersOf Sample2.redelivered) = true /\
  retryCountOf (headersOf Sample2.redelivered) = 3 + 1 /\
  headersOf Sample2.redelivered !! "x-trace-id"
  = headersOf (Sample.retriedMessage 3) !! "x-trace-id".
Proof.
  assert (H : retryCountValid (headersOf (Sample.retriedMessage 3)) = true)
    by (vm_compute; reflexivity).
  assert (Hmax : maxRetries Sample.handler <= MAX_SAFE_INTEGER)
    by (vm_compute; intros Hgt; discriminate Hgt).
  split; [exact H | split; [exact Hmax |]].
  assert (Hround : retryRound Sample.JSON_parse Sample.JSON_stringify
                     Sample.Buffer_toString Sample.Buffer_from Sample.handler
                     (Sample.retriedMessage 3) Sample2.redelivered).
  { pose proof (handleRetryableError_firstCall Sample.JSON_parse
                  Sample.JSON_stringify Sample.Buffer_toString
                  Sample.Buffer_from Sample.handler (Sample.retriedMessage 3)
                  Sample.dbTimeout Sample.world) as Hfirst.
    cbv zeta in Hfirst.
    assert (Hleft : (maxRetries Sample.handler
                     <=? retryCountOf (headersOf (Sample.retriedMessage 3)))
                    = false) by (vm_compute; reflexivity).
    rewrite Hleft in Hfirst. unfold retryMessage in Hfirst.
    exists Sample.dbTimeout, Sample.world.
    do 3 eexists.
    split; [exact Hfirst |].
    split; [reflexivity | split; [reflexivity |]].
    intros key Hkey.
    match goal with
    | |- _ = ?published !! key =>
        assert (Hmaps : headersOf Sample2.redelivered
                        = <["x-delay" := HNum (-4000)]> published)
          by (vm_compute; reflexivity);
        rewrite Hmaps
    end.
    apply lookup_insert_ne. congruence. }
  assert (Hchain : retryChain Sample.JSON_parse Sample.JSON_stringify
                     Sample.Buffer_toString Sample.Buffer_from Sample.handler
                     1 (Sample.retriedMessage 3) Sample2.redelivered).
  { eapply chain_round; [apply chain_start | exact Hround]. }
  split; [exact Hchain |].
  destruct (retry_chain_bounded Sample.JSON_parse Sample.JSON_stringify
              Sample.Buffer_toString Sample.Buffer_from Sample.handler
              1 (Sample.retriedMessage 3) Sample2.redelivered H Hmax Hchain)
    as (Hvalid & Hcount & _ & _ & _ & Hframe & _).
  split; [exact Hvalid |].
  split; [exact Hcount |].
  apply Hframe. unfold retryHeaderKeys. intros Hin.
  repeat (apply elem_of_cons in Hin as [Hin|Hin]; [discriminate Hin |]).
  apply elem_of_nil in Hin. exact Hin.
Defined.

Lemma consumer_settles_once_witness :
  retryCountValid (headersOf Sample.freshMessage) = true /\
  healthy Sample.world /\
  quiet Sample2.processOk /\
  fst (sampleHandleMessage Sample2.processOk (Some Sample.freshMessage)
         Sample.world) = Returned tt /\
  callsMade Sample.world
    (snd (sampleHandleMessage Sample2.processOk (Some Sample.freshMessage)
            Sample.world))
  = [Ack Sample.freshMessage].
Proof.
  assert (H : healthy Sample.world) by (intros k; reflexivity).
  assert (Hq : quiet Sample2.processOk)
    by (intros c m w; split; reflexivity).
  assert (Hv : retryCountValid (headersOf Sample.freshMessage) = true)
    by (vm_compute; reflexivity).
  split; [exact Hv | split; [exact H | split; [exact Hq |]]].
  destruct (consumer_settles_once Sample.JSON_parse Sample.JSON_stringify
              Sample.Buffer_toString Sample.Buffer_from Sample.handler
              Sample2.processOk Sample.freshMessage Sample.world Hv H Hq)
    as (Hret & _ & _ & _ & Hok & _).
  split; [exact Hret |].
  apply (Hok (JObj [])); reflexivity.
Defined.

Lemma malformed_payload_is_retried_witness :
  retryCountValid (headersOf (Sample.retriedMessage 3)) = true /\
  Sample.JSON_parse (Sample.Buffer_toString (content (Sample.retriedMessage 3)))
  = inl {| name := SyntaxError; message := "Unexpected token";
           code := None; context := None |} /\
  outboundHeader "x-last-error" Sample.world
    (snd (sampleHandleMessage Sample.processMessage
            (Some (Sample.retriedMessage 3)) Sample.world))
  = Some (HStr "Unexpected token").
Proof.
  assert (H : Sample.JSON_parse
                (Sample.Buffer_toString (content (Sample.retriedMessage 3)))
              = inl {| name := SyntaxError; message := "Unexpected token";
                       code := None; context := None |})
    by (vm_compute; reflexivity).
  assert (Hv : retryCountValid (headersOf (Sample.retriedMessage 3)) = true)
    by (vm_compute; reflexivity).
  split; [exact Hv | split; [exact H |]].
  destruct (malformed_payload_is_retried Sample.JSON_parse
              Sample.JSON_stringify Sample.Buffer_toString Sample.Buffer_from
              Sample.handler Sample.processMessage (Sample.retriedMessage 3)
              _ Sample.world Hv H)
    as (_ & _ & _ & Hlast).
  - reflexivity.
  - exact Hlast.
Defined.

Lemma failed_ack_is_retried_witness :
  retryCountValid (headersOf Sample.freshMessage) = true /\
  faults (Sample.brokenWorld 5) 0 = Some (plainError "Channel closed") /\
  callsMade (Sample.brokenWorld 5)
    (snd (sampleHandleMessage Sample2.processOk (Some Sample.freshMessage)
            (Sample.brokenWorld 5))) !! 0%nat
  = Some (Ack Sample.freshMessage).
Proof.
  assert (Hv : retryCountValid (headersOf Sample.freshMessage) = true)
    by (vm_compute; reflexivity).
  split; [exact Hv | split; [reflexivity |]].
  destruct (failed_ack_is_retried Sample.JSON_parse Sample.JSON_stringify
              Sample.Buffer_toString Sample.Buffer_from Sample.handler
              Sample2.processOk Sample.freshMessage (JObj [])
              (plainError "Channel closed") (Sample.brokenWorld 5)
              Hv eq_refl eq_refl eq_refl eq_refl eq_refl)
    as (_ & Hack & _).
  exact Hack.
Defined.

Lemma nonRetryable_failure_is_dead_lettered_witness :
  retryCountTyped (headersOf Sample.freshMessage) = true /\
  BaseConsumer.isNonRetryable Sample2.invalidOrder = true /\
  firstCall Sample.world
    (snd (sampleHandleMessage Sample2.processInvalid (Some Sample.freshMessage)
            Sample.world))
  = Some (dlqMessage Sample.handler Sample.freshMessage Sample2.invalidOrder 0
            (HStr "2024-06-01T12:00:00.000Z")) /\
  outboundHeader "x-retry-count" Sample.world
    (snd (sampleHandleMessage Sample2.processInvalid (Some Sample.freshMessage)
            Sample.world))
  = Some (HNum 0).
Proof.
  assert (Ht : retryCountTyped (headersOf Sample.freshMessage) = true)
    by (vm_compute; reflexivity).
  split; [exact Ht | split; [reflexivity |]].
  destruct (nonRetryable_failure_is_dead_lettered Sample.JSON_parse
              Sample.JSON_stringify Sample.Buffer_toString Sample.Buffer_from
              Sample.handler Sample2.processInvalid Sample.freshMessage
              (JObj []) Sample2.invalidOrder Sample.world
              Ht eq_refl eq_refl eq_refl eq_refl)
    as (_ & Hfirst & _ & Hcount & _).
  split; [exact Hfirst | exact Hcount].
Defined.

End HandlerSamples.

Section ConnectionExtraSamples.

Import ConnectionManager.
Import ConnectionObserve.

Lemma failed_connect_frame_witness :
  0 <= reconnectAttempts (Sample.config 3) /\
  fst (connect (Sample.config 3) (Sample.fresh 5 false))
  = Thrown (connectionError (Sample.config 3) (plainError "refused")) /\
  currentState (fst (snd (connect (Sample.config 3) (Sample.fresh 5 false))))
  = disconnected /\
  callbacksIn
    (eventsSince (snd (Sample.fresh 5 false))
       (snd (snd (connect (Sample.config 3) (Sample.fresh 5 false)))))
  = [].
Proof.
  assert (H0 : 0 <= reconnectAttempts (Sample.config 3))
    by (vm_compute; intros H; discriminate H).
  assert (H : fst (connect (Sample.config 3)
                     (fst (Sample.fresh 5 false), snd (Sample.fresh 5 false)))
              = Thrown (connectionError (Sample.config 3)
                          (plainError "refused")))
    by (vm_compute; reflexivity).
  split; [exact H0 | split; [exact H |]].
  destruct (failed_connect_frame (Sample.config 3)
              (fst (Sample.fresh 5 false)) (snd (Sample.fresh 5 false))
              _ H0 H)
    as (_ & Hstate & Hcallbacks & _).
  split; [exact Hstate | exact Hcallbacks].
Defined.


Lemma connect_without_attempts_witness :
  reconnectAttempts (Sample.config (-1)) < 0 /\
  fst (connect (Sample.config (-1)) (Sample.fresh 0 false)) = Returned tt /\
  currentState (fst (snd (connect (Sample.config (-1)) (Sample.fresh 0 false))))
  = connecting /\
  dialed (snd (snd (connect (Sample.config (-1)) (Sample.fresh 0 false))))
  = dialed (snd (Sample.fresh 0 false)).
Proof.
  assert (H0 : reconnectAttempts (Sample.config (-1)) < 0)
    by (vm_compute; reflexivity).
  split; [exact H0 |].
  destruct (connect_without_attempts (Sample.config (-1))
              (fst (Sample.fresh 0 false)) (snd (Sample.fresh 0 false)) H0)
    as (Hret & Hstate & _ & _ & Hdialed & _).
  split; [exact Hret | split; [exact Hstate | exact Hdialed]].
Defined.

Lemma connect_total_backoff_witness :
  0 <= reconnectAttempts (Sample.config 3) /\
  backoffExact (Sample.config 3) = true /\
  exists failed,
    dialed (snd (snd (connect (Sample.config 3) (Sample.fresh 2 false))))
    = (dialed (snd (Sample.fresh 2 false)) + S failed)%nat /\
    sleepTotal
      (eventsSince (snd (Sample.fresh 2 false))
         (snd (snd (connect (Sample.config 3) (Sample.fresh 2 false)))))
    = reconnectDelayMs (Sample.config 3) * (2 ^ Z.of_nat failed - 1).
Proof.
  assert (H0 : 0 <= reconnectAttempts (Sample.config 3))
    by (vm_compute; intros H; discriminate H).
  assert (Hx : backoffExact (Sample.config 3) = true)
    by (vm_compute; reflexivity).
  split; [exact H0 | split; [exact Hx |]].
  destruct (connect_total_backoff (Sample.config 3)
              (fst (Sample.fresh 2 false)) (snd (Sample.fresh 2 false)) H0 Hx)
    as (failed & Hdialed & _ & Hsleep & _).
  exists failed. split; [exact Hdialed | exact Hsleep].
Defined.

Lemma close_is_idempotent_witness :
  let connected := snd (connect (Sample.config 0) (Sample.fresh 0 false)) in
  fst (close connected) = Returned tt /\
  channel (fst (snd (close connected))) = None /\
  connection (fst (snd (close connected))) = None /\
  fst (close (snd (close connected))) = Returned tt /\
  List.filter isNetworkCall
    (eventsSince (snd (snd (close connected)))
       (snd (snd (close (snd (close connected)))))) = [].
Proof.
  cbv zeta.
  assert (H : fst (close
                (fst (snd (connect (Sample.config 0) (Sample.fresh 0 false))),
                 snd (snd (connect (Sample.config 0) (Sample.fresh 0 false)))))
              = Returned tt)
    by (vm_compute; reflexivity).
  split; [exact H |].
  destruct (close_is_idempotent _ _ H)
    as (Hconn & Hchan & _ & _ & Hagain & _ & Hquiet & _).
  split; [exact Hchan | split; [exact Hconn | split; [exact Hagain | exact Hquiet]]].
Defined.

Lemma close_failure_modes_witness :
  let connected := snd (connect (Sample.config 0) (Sample.fresh 0 true)) in
  channel (fst connected) = Some 1%nat /\
  channelCloses (snd connected) 1%nat = Some (plainError "close failed") /\
  fst (close connected) = Thrown (plainError "close failed") /\
  channel (fst (snd (close connected))) = Some 1%nat /\
  currentState (fst (snd (close connected))) = disconnected.
Proof.
  cbv zeta.
  assert (Hch : channel (fst (snd (connect (Sample.config 0)
                                     (Sample.fresh 0 true)))) = Some 1%nat)
    by (vm_compute; reflexivity).
  assert (Hfail : channelCloses (snd (snd (connect (Sample.config 0)
                                             (Sample.fresh 0 true)))) 1%nat
                  = Some (plainError "close failed"))
    by (vm_compute; reflexivity).
  split; [exact Hch | split; [exact Hfail |]].
  destruct (close_failure_modes
              (fst (snd (connect (Sample.config 0) (Sample.fresh 0 true))))
              (snd (snd (connect (Sample.config 0) (Sample.fresh 0 true)))))
    as (Hmode & _).
  destruct (Hmode _ _ Hch Hfail) as (Hthrown & Hkept & _ & Hstate & _).
  split; [exact Hthrown | split; [exact Hkept | exact Hstate]].
Defined.

End ConnectionExtraSamples.

Section PublisherSamples.

Import DlqService.
Import BasePublisher.

Abbreviation samplePublish :=
  (publish Sample.JSON_stringify Sample.Buffer_from "orders").
Abbreviation samplePublishAll :=
  (publishAll Sample.JSON_stringify Sample.Buffer_from "orders").
Abbreviation sampleMessage :=
  (publishedMessage Sample.JSON_stringify Sample.Buffer_from "orders").

Lemma publisher_asserts_once_witness :
  healthy Sample.world /\
  callsMade Sample.world
    (snd (snd (samplePublishAll [("created", JObj []); ("updated", JNull)]
                 (false, Sample.world))))
  = [AssertExchange "orders" "topic" true None;
     sampleMessage "created" (JObj []);
     sampleMessage "updated" JNull].
Proof.
  assert (H : healthy Sample.world) by (intros k; reflexivity).
  split; [exact H |].
  destruct (publisher_asserts_once Sample.JSON_stringify Sample.Buffer_from
              "orders" [("created", JObj []); ("updated", JNull)]
              Sample.world H)
    as (_ & Hcalls & _).
  exact Hcalls.
Defined.

Lemma publisher_failures_witness :
  faults (Sample.brokenWorld 5) (length (calls (Sample.brokenWorld 5)))
  = Some (plainError "Channel closed") /\
  fst (samplePublish "created" JNull (false, Sample.brokenWorld 5))
  = Thrown (plainError "Channel closed") /\
  fst (snd (samplePublish "created" JNull (false, Sample.brokenWorld 5)))
  = false /\
  fst (samplePublish "created" JNull (false, Sample.brokenWorld 0))
  = Thrown (plainError "Channel closed") /\
  fst (snd (samplePublish "created" JNull (false, Sample.brokenWorld 0)))
  = true.
Proof.
  assert (H : faults (Sample.brokenWorld 5)
                (length (calls (Sample.brokenWorld 5)))
              = Some (plainError "Channel closed")) by reflexivity.
  split; [exact H |].
  destruct (publisher_failures Sample.JSON_stringify Sample.Buffer_from
              "orders" "created" JNull (Sample.brokenWorld 5)
              (plainError "Channel closed"))
    as (Hassert & _).
  destruct (Hassert H) as (Hthrown & Hflag & _).
  destruct (publisher_failures Sample.JSON_stringify Sample.Buffer_from
              "orders" "created" JNull (Sample.brokenWorld 0)
              (plainError "Channel closed"))
    as (_ & Hpublish).
  destruct (Hpublish eq_refl eq_refl) as (Hthrown' & Hflag' & _).
  split; [exact Hthrown | split; [exact Hflag |]].
  split; [exact Hthrown' | exact Hflag'].
Defined.

End PublisherSamples.

Section LifecycleSamples.

Import ConsumerLifecycle.

Abbreviation sampleStart := (start Sample2.consumer Sample2.noSetup).

Lemma start_subscribes_last_witness :
  accepts 4 (Sample2.lifecycleWorld None) /\
  exists w3,
    sampleStart (None, Sample2.lifecycleWorld None)
    = (Returned tt, (Some "amq.ctag-1", w3)) /\
    calls w3
    = topology Sample2.consumer ++ [Consume "orders.created" false].
Proof.
  assert (H : accepts 4 (Sample2.lifecycleWorld None))
    by (intros i _; reflexivity).
  split; [exact H |].
  destruct (start_subscribes_last Sample2.consumer Sample2.noSetup None
              (Sample2.lifecycleWorld None) H)
    as (_ & Hrun).
  destruct Hrun as (w3 & Hrun & Hcalls).
  exists w3. split; [exact Hrun | exact Hcalls].
Defined.

Lemma start_stops_at_rejected_call_witness :
  accepts 2 (Sample2.lifecycleWorld (Some 2%nat)) /\
  faults (Sample2.lifecycleWorld (Some 2%nat)) 2
  = Some (plainError "Channel closed") /\
  exists w',
    sampleStart (None, Sample2.lifecycleWorld (Some 2%nat))
    = (Thrown (plainError "Channel closed"), (None, w')) /\
    calls w'
    = [Prefetch 10;
       OnChannel (DlqService.AssertExchange "orders" "topic" true None);
       OnChannel (DlqService.AssertQueue "orders.created" true)].
Proof.
  assert (H : accepts 2 (Sample2.lifecycleWorld (Some 2%nat))).
  { intros i Hi. destruct i as [|[|i]]; [reflexivity | reflexivity | lia]. }
  split; [exact H | split; [reflexivity |]].
  destruct (start_stops_at_rejected_call Sample2.consumer Sample2.noSetup None
              (Sample2.lifecycleWorld (Some 2%nat)) 2
              (plainError "Channel closed"))
    as (w' & Hrun & Hcalls & _); [lia | exact H | reflexivity |].
  exists w'. split; [exact Hrun | exact Hcalls].
Defined.

Lemma stop_cancels_recorded_tag_witness :
  callsSince (Sample2.lifecycleWorld None)
    (snd (snd (stop (Some "amq.ctag-1", Sample2.lifecycleWorld None))))
  = [Cancel "amq.ctag-1"] /\
  fst (stop (snd (stop (Some "amq.ctag-1", Sample2.lifecycleWorld None))))
  = Returned tt /\
  fst (snd (stop (Some "amq.ctag-1", Sample2.lifecycleWorld (Some 0%nat))))
  = Some "amq.ctag-1".
Proof.
  destruct (stop_cancels_recorded_tag (Some "amq.ctag-1")
              (Sample2.lifecycleWorld None))
    as (Hcalls & Hagain & _).
  destruct (Hagain eq_refl) as (Hret & _).
  destruct (stop_cancels_recorded_tag (Some "amq.ctag-1")
              (Sample2.lifecycleWorld (Some 0%nat)))
    as (_ & _ & Hthrown).
  destruct (Hthrown (plainError "Channel closed") eq_refl) as (Hkept & _).
  split; [exact Hcalls | split; [exact Hret | exact Hkept]].
Defined.

Lemma stop_cancels_started_subscription_witness :
  let started := snd (sampleStart (None, Sample2.lifecycleWorld None)) in
  sampleStart (None, Sample2.lifecycleWorld None) = (Returned tt, started) /\
  fst started = Some "amq.ctag-1" /\
  callsSince (snd started) (snd (snd (stop started)))
  = [Cancel "amq.ctag-1"].
Proof.
  cbv zeta.
  assert (Hrun : sampleStart (None, Sample2.lifecycleWorld None)
                 = (Returned tt,
                    snd (sampleStart (None, Sample2.lifecycleWorld None))))
    by reflexivity.
  assert (Htag : fst (snd (sampleStart (None, Sample2.lifecycleWorld None)))
                 = Some "amq.ctag-1") by reflexivity.
  split; [exact Hrun | split; [exact Htag |]].
  destruct (stop_cancels_started_subscription Sample2.consumer Sample2.noSetup
              None (Sample2.lifecycleWorld None) _ "amq.ctag-1" Hrun Htag
              eq_refl)
    as (Hcancel & _).
  exact Hcancel.
Defined.

End LifecycleSamples.
